(** * iscsiblk: the iSCSI target / initiator lifecycle orchestrator

    A shallow embedding of [iscsiblk/iscsi.go].  Every call that leaves the
    package (the [iscsi] and [util] helpers, [nsfilelock], [os.Stat],
    [time.Sleep], [logrus]) is an event answered by the environment; the
    functions of the package are finite programs over these events.  A run
    of a program against an environment yields the trace of the calls made,
    with the answers received, and the outcome. *)

From Stdlib Require Import List String Ascii ZArith Bool Arith Lia.
Import ListNotations.

Local Open Scope string_scope.
Local Open Scope Z_scope.

Set Implicit Arguments.

(** ** Go values *)

(** A Go [error] is observed in this package only through [err == nil] and
    [err.Error()]: a non-nil error is its message, [nil] is [None]. *)
Definition error := string.

(** [time.Duration]: a count of nanoseconds. *)
Definition Duration := Z.

Definition Millisecond : Duration := 1000000.
Definition Second : Duration := 1000 * Millisecond.

(** [os.FileMode] bits; [os.ModeDevice] is [1 << (32 - 1 - 5)]. *)
Definition FileMode := Z.
Definition ModeDevice : FileMode := Z.shiftl 1 26.

(** [*util.NamespaceExecutor]: the namespace path it was made for. *)
Record NamespaceExecutor := { ne_ns : string }.

(** [*nsfilelock.NSFileLock] as built by [NewLockWithTimeout]. *)
Record NSFileLock := NewLockWithTimeout
  { lock_ns : string; lock_file : string; lock_timeout : Duration }.

(** ** Package variables *)

Definition LockFile : string := "/var/run/longhorn-iscsi.lock".
Definition LockTimeout : Duration := 120 * Second.
Definition TargetLunID : Z := 1.
Definition RetryCounts : nat := 5.
Definition RetryIntervalSCSI : Duration := 3 * Second.
Definition RetryIntervalTargetID : Duration := 500 * Millisecond.
Definition HostProc : string := "/host/proc".

Record ScsiDevice := mkScsiDevice
  { Target : string;
    TargetID : Z;
    Device : string;
    BackingFile : string;
    BSType : string;
    BSOpts : string }.

Definition set_TargetID (tid : Z) (dev : ScsiDevice) : ScsiDevice :=
  mkScsiDevice (Target dev) tid (Device dev) (BackingFile dev) (BSType dev) (BSOpts dev).

Definition set_Device (d : string) (dev : ScsiDevice) : ScsiDevice :=
  mkScsiDevice (Target dev) (TargetID dev) d (BackingFile dev) (BSType dev) (BSOpts dev).

Definition set_BS (bsType bsOpts : string) (dev : ScsiDevice) : ScsiDevice :=
  mkScsiDevice (Target dev) (TargetID dev) (Device dev) (BackingFile dev) bsType bsOpts.

(** ** The [strings] functions the package uses *)

(** [strings.HasPrefix s p]. *)
Fixpoint HasPrefix (s p : string) {struct p} : bool :=
  match p, s with
  | EmptyString, _ => true
  | String _ _, EmptyString => false
  | String a p', String b s' => Ascii.eqb a b && HasPrefix s' p'
  end.

(** [strings.Contains s substr]. *)
Fixpoint Contains (s substr : string) : bool :=
  HasPrefix s substr ||
  match s with
  | EmptyString => false
  | String _ s' => Contains s' substr
  end.

(** [strings.Replace s old new (-1)] for a non-empty [old]: every
    non-overlapping instance of [old], found from the left, becomes [new].
    [skip] counts the bytes of a matched instance still to be dropped. *)
Fixpoint replace_from (old new : string) (skip : nat) (s : string) : string :=
  match s with
  | EmptyString => EmptyString
  | String c s' =>
      match skip with
      | S k => replace_from old new k s'
      | O =>
          if HasPrefix s old
          then new ++ replace_from old new (Nat.pred (String.length old)) s'
          else String c (replace_from old new O s')
      end
  end.

Definition ReplaceAll (s old new : string) : string :=
  if String.eqb old new then s else replace_from old new O s.

(** ** Names *)

Definition Volume2ISCSIName (name : string) : string :=
  ReplaceAll name "_" ":".

Definition GetTargetName (name : string) : string :=
  "iqn.2014-09.com.rancher:" ++ Volume2ISCSIName name.

Definition NewScsiDevice (name backingFile bsType bsOpts : string)
  : ScsiDevice * option error :=
  (mkScsiDevice (GetTargetName name) 0 "" backingFile bsType bsOpts, None).

(** ** Calls to the environment *)

Inductive Level := InfoLevel | WarnLevel | FatalLevel.

(** An argument of a log format string. *)
Inductive Arg :=
| AStr (s : string)
| AInt (z : Z)
| AErr (e : option error).

(** Modelled from the spec: the types of session and connection
    identifiers.  [iscsi.GetTargetConnections] and [iscsi.CloseConnection]
    are not among the sources; the specification (section 6) gives
    [CloseConnection(id, sid, cid int)]. *)
Definition SessionID := Z.
Definition ConnectionID := Z.

(** The functions of the [iscsi] and [util] packages are not among the
    sources, and [nsfilelock], [os], [time] and [logrus] are libraries:
    each of their functions is a call answered by the environment, with
    the signature of its call sites.  Nothing is assumed of the answers.

    [Ev X] is a call whose answer has type [X].  A Go result pair
    [(v, err)] is the pair of [v] and an [option error]; a map is the list
    of its entries in the order a [range] visits them. *)
Inductive Ev : Type -> Type :=
(* iscsi: target side *)
| iscsi_StartDaemon (foreground : bool) : Ev (option error)
| iscsi_FindNextAvailableTargetID : Ev (Z * option error)
| iscsi_CreateTarget (tid : Z) (name : string) : Ev (option error)
| iscsi_DeleteTarget (tid : Z) : Ev (option error)
| iscsi_AddLun (tid lun : Z) (backingFile bsType bsOpts : string) : Ev (option error)
| iscsi_DeleteLun (tid lun : Z) : Ev (option error)
| iscsi_BindInitiator (tid : Z) (initiator : string) : Ev (option error)
| iscsi_UnbindInitiator (tid : Z) (initiator : string) : Ev (option error)
| iscsi_GetTargetTid (name : string) : Ev (Z * option error)
| iscsi_GetTargetConnections (tid : Z)
  : Ev (list (SessionID * list ConnectionID) * option error)
| iscsi_CloseConnection (tid : Z) (sid : SessionID) (cid : ConnectionID) : Ev (option error)
(* iscsi: initiator side *)
| iscsi_CheckForInitiatorExistence (ne : NamespaceExecutor) : Ev (option error)
| iscsi_DiscoverTarget (ip target : string) (ne : NamespaceExecutor) : Ev (option error)
| iscsi_IsTargetDiscovered (ip target : string) (ne : NamespaceExecutor) : Ev bool
| iscsi_CleanupScsiNodes (target : string) (ne : NamespaceExecutor) : Ev (option error)
| iscsi_DeleteDiscoveredTarget (ip target : string) (ne : NamespaceExecutor) : Ev (option error)
| iscsi_LoginTarget (ip target : string) (ne : NamespaceExecutor) : Ev (option error)
| iscsi_LogoutTarget (ip target : string) (ne : NamespaceExecutor) : Ev (option error)
| iscsi_IsTargetLoggedIn (ip target : string) (ne : NamespaceExecutor) : Ev bool
| iscsi_GetDevice (ip target : string) (lun : Z) (ne : NamespaceExecutor) : Ev (string * option error)
| iscsi_RescanTarget (ip target : string) (ne : NamespaceExecutor) : Ev (option error)
(* util *)
| util_GetHostNamespacePath (hostProc : string) : Ev string
| util_NewNamespaceExecutor (ns : string) : Ev (NamespaceExecutor * option error)
| util_GetIPToHost : Ev (string * option error)
(* nsfilelock *)
| lock_Lock (l : NSFileLock) : Ev (option error)
| lock_Unlock (l : NSFileLock) : Ev unit
(* os, time, logrus *)
| os_Stat (path : string) : Ev (FileMode * option error)
| time_Sleep (d : Duration) : Ev unit
| logrus_Log (lvl : Level) (format : string) (args : list Arg) : Ev unit.

(** ** Programs *)

(** A program either returns, terminates the process ([os.Exit]), or makes
    a call and continues with its answer. *)
Inductive Prog (R : Type) : Type :=
| Ret (r : R)
| Exit (code : Z)
| Vis (X : Type) (e : Ev X) (k : X -> Prog R).

Arguments Ret {R} r.
Arguments Exit {R} code.
Arguments Vis {R X} e k.

Fixpoint bind {A B : Type} (p : Prog A) (f : A -> Prog B) : Prog B :=
  match p with
  | Ret a => f a
  | Exit c => Exit c
  | Vis e k => Vis e (fun x => bind (k x) f)
  end.

Definition call {X : Type} (e : Ev X) : Prog X := Vis e Ret.

Declare Scope prog_scope.
Delimit Scope prog_scope with prog.
Notation "x <- p ;; q" := (bind p (fun x => q))
  (at level 100, p at next level, right associativity) : prog_scope.
Notation "' pat <- p ;; q" := (bind p (fun x => match x with pat => q end))
  (at level 100, pat pattern, p at next level, right associativity) : prog_scope.
Notation "p ;; q" := (bind p (fun _ => q))
  (at level 100, right associativity) : prog_scope.
Local Open Scope prog_scope.

Definition Infof (format : string) (args : list Arg) : Prog unit :=
  call (logrus_Log InfoLevel format args).
Definition Warnf (format : string) (args : list Arg) : Prog unit :=
  call (logrus_Log WarnLevel format args).
(** [logrus.Fatalf] logs, then calls [os.Exit(1)]: it does not return and
    deferred calls do not run. *)
Definition Fatalf {R : Type} (format : string) (args : list Arg) : Prog R :=
  call (logrus_Log FatalLevel format args) ;; Exit 1.
Definition Sleep (d : Duration) : Prog unit := call (time_Sleep d).

(** ** The functions of the package *)

(** [fmt.Errorf] with one verb: the format is what precedes the verb and
    what follows it, [e] is the text the verb stands for. *)
Definition Errorf (pre : string) (e : string) (post : string) : error :=
  pre ++ e ++ post.

(** The allocation loop of [SetupTarget], with [n] iterations left.
    [inr e] is the [return err] inside the loop; [inl dev] is the state in
    which control reaches the statement after the loop, by [break] or by
    the loop condition becoming false. *)
Fixpoint SetupTarget_allocate (n : nat) (dev : ScsiDevice) : Prog (ScsiDevice + error) :=
  match n with
  | O => Ret (inl dev)
  | S n' =>
      '(tid, err) <- call iscsi_FindNextAvailableTargetID ;;
      match err with
      | Some e => Ret (inr e)
      | None =>
          Infof "go-iscsi-helper: found available target id %v" [AInt tid] ;;
          err <- call (iscsi_CreateTarget tid (Target dev)) ;;
          match err with
          | None => Ret (inl (set_TargetID tid dev))
          | Some e =>
              Infof "go-iscsi-helper: failed to use target id %v, retrying with a new target ID: err %v"
                    [AInt tid; AErr (Some e)] ;;
              Sleep RetryIntervalTargetID ;;
              SetupTarget_allocate n' dev
          end
      end
  end.

(** [SetupTarget] mutates [dev] through its pointer: the program returns
    the device as it is when the function returns, and the error. *)
Definition SetupTarget (dev : ScsiDevice) : Prog (ScsiDevice * option error) :=
  err <- call (iscsi_StartDaemon false) ;;
  match err with
  | Some e => Ret (dev, Some e)
  | None =>
      r <- SetupTarget_allocate RetryCounts dev ;;
      match r with
      | inr e => Ret (dev, Some e)
      | inl dev =>
          err <- call (iscsi_AddLun (TargetID dev) TargetLunID
                         (BackingFile dev) (BSType dev) (BSOpts dev)) ;;
          match err with
          | Some e => Ret (dev, Some e)
          | None =>
              err <- call (iscsi_BindInitiator (TargetID dev) "ALL") ;;
              match err with
              | Some e => Ret (dev, Some e)
              | None => Ret (dev, None)
              end
          end
      end
  end.

(** The discovery loop of [StartScsi]; the result is the value of [err]
    when the loop is left. *)
Fixpoint StartScsi_discover (n : nat) (localIP target : string)
    (ne : NamespaceExecutor) (err : option error) : Prog (option error) :=
  match n with
  | O => Ret err
  | S n' =>
      err <- call (iscsi_DiscoverTarget localIP target ne) ;;
      found <- call (iscsi_IsTargetDiscovered localIP target ne) ;;
      if found then Ret err
      else
        Warnf "FAIL to discover due to %v" [AErr err] ;;
        cerr <- call (iscsi_CleanupScsiNodes target ne) ;;
        match cerr with
        | Some e => Warnf "Fail to cleanup nodes for %v: %v" [AStr target; AErr (Some e)]
        | None => Warnf "Nodes cleaned up for %v" [AStr target]
        end ;;
        Sleep RetryIntervalSCSI ;;
        StartScsi_discover n' localIP target ne err
  end.

(** [err == nil && (st.Mode()&os.ModeDevice != 0)]. *)
Definition device_ready (st : FileMode * option error) : bool :=
  match snd st with
  | None => negb (Z.land (fst st) ModeDevice =? 0)
  | Some _ => false
  end.

(** The device-node poll of [StartScsi]; the result is [deviceFound]. *)
Fixpoint StartScsi_waitDevice (n : nat) (path : string) : Prog bool :=
  match n with
  | O => Ret false
  | S n' =>
      st <- call (os_Stat path) ;;
      if device_ready st then Ret true
      else Sleep RetryIntervalSCSI ;; StartScsi_waitDevice n' path
  end.

(** [StartScsi] between [lock.Lock()] and the deferred [lock.Unlock()]. *)
Definition StartScsi_locked (dev : ScsiDevice) : Prog (ScsiDevice * option error) :=
  ns <- call (util_GetHostNamespacePath HostProc) ;;
  '(ne, err) <- call (util_NewNamespaceExecutor ns) ;;
  match err with
  | Some e => Ret (dev, Some e)
  | None =>
  err <- call (iscsi_CheckForInitiatorExistence ne) ;;
  match err with
  | Some e => Ret (dev, Some e)
  | None =>
  '(localIP, err) <- call util_GetIPToHost ;;
  match err with
  | Some e => Ret (dev, Some e)
  | None =>
  '(dev, err) <- SetupTarget dev ;;
  match err with
  | Some e => Ret (dev, Some e)
  | None =>
  StartScsi_discover RetryCounts localIP (Target dev) ne None ;;
  err <- call (iscsi_LoginTarget localIP (Target dev) ne) ;;
  match err with
  | Some e => Ret (dev, Some e)
  | None =>
  '(path, err) <- call (iscsi_GetDevice localIP (Target dev) TargetLunID ne) ;;
  let dev := set_Device path dev in
  match err with
  | Some e => Ret (dev, Some e)
  | None =>
  deviceFound <- StartScsi_waitDevice RetryCounts (Device dev) ;;
  if deviceFound then Ret (dev, None)
  else Ret (dev, Some (Errorf "Failed to wait for device " (Device dev) " to show up"))
  end end end end end end.

Definition StartScsi (dev : ScsiDevice) : Prog (ScsiDevice * option error) :=
  ns <- call (util_GetHostNamespacePath HostProc) ;;
  let lock := NewLockWithTimeout ns LockFile LockTimeout in
  err <- call (lock_Lock lock) ;;
  match err with
  | Some e => Ret (dev, Some (Errorf "Fail to lock: " e ""))
  | None =>
      r <- StartScsi_locked dev ;;
      call (lock_Unlock lock) ;;
      Ret r
  end.

(** [err == nil || strings.Contains(err.Error(), "exit status 21")]. *)
Definition nil_or_not_found (err : option error) : bool :=
  match err with
  | None => true
  | Some e => Contains e "exit status 21"
  end.

Definition is_timeout (e : error) : bool := Contains e "Timeout executing: ".

(** The logout loop of [LogoutTarget]; the result is [(err, loggingOut)]
    when the loop is left. *)
Fixpoint LogoutTarget_logout (n : nat) (ip target : string)
    (ne : NamespaceExecutor) (err : option error) : Prog (option error * bool) :=
  match n with
  | O => Ret (err, false)
  | S n' =>
      err <- call (iscsi_LogoutTarget ip target ne) ;;
      match err with
      | None => Ret (None, false)
      | Some e =>
          if Contains e "exit status 21" then Ret (None, false)
          else if is_timeout e then Ret (Some e, true)
          else Sleep RetryIntervalSCSI ;; LogoutTarget_logout n' ip target ne (Some e)
      end
  end.

(** The wait-for-logout loop; the result is [err] when the loop is left. *)
Fixpoint LogoutTarget_wait (n : nat) (ip target : string)
    (ne : NamespaceExecutor) (err : option error) : Prog (option error) :=
  match n with
  | O => Ret err
  | S n' =>
      loggedIn <- call (iscsi_IsTargetLoggedIn ip target ne) ;;
      if negb loggedIn then Ret None
      else Sleep RetryIntervalSCSI ;; LogoutTarget_wait n' ip target ne err
  end.

(** The loop that deletes the discovery record; the result is [err] when
    the loop is left. *)
Fixpoint LogoutTarget_delete (n : nat) (ip target : string)
    (ne : NamespaceExecutor) (err : option error) : Prog (option error) :=
  match n with
  | O => Ret err
  | S n' =>
      found <- call (iscsi_IsTargetDiscovered ip target ne) ;;
      if negb found then Ret None
      else
        err <- call (iscsi_DeleteDiscoveredTarget ip target ne) ;;
        if nil_or_not_found err then Ret None
        else Sleep RetryIntervalSCSI ;; LogoutTarget_delete n' ip target ne err
  end.

(** The body of [if iscsi.IsTargetLoggedIn(ip, target, ne) { ... }]:
    [Some err] is a [return] from inside the block, [None] falls through
    to the final [return nil]. *)
Definition LogoutTarget_session (ip target : string) (ne : NamespaceExecutor)
  : Prog (option error) :=
  Infof "Shutdown SCSI device for %v:%v" [AStr ip; AStr target] ;;
  '(err, loggingOut) <- LogoutTarget_logout RetryCounts ip target ne None ;;
  err <- (if loggingOut : bool
          then Infof "Logout SCSI device timeout, waiting for logout complete" [] ;;
               LogoutTarget_wait RetryCounts ip target ne err
          else Ret err) ;;
  match err with
  | Some e => Ret (Some (Errorf "Failed to logout target: " e ""))
  | None =>
      err <- LogoutTarget_delete RetryCounts ip target ne None ;;
      match err with
      | Some e => Ret (Some e)
      | None => Ret None
      end
  end.

Definition LogoutTarget (target : string) : Prog (option error) :=
  ns <- call (util_GetHostNamespacePath HostProc) ;;
  '(ne, err) <- call (util_NewNamespaceExecutor ns) ;;
  match err with
  | Some e => Ret (Some e)
  | None =>
  '(ip, err) <- call util_GetIPToHost ;;
  match err with
  | Some e => Ret (Some e)
  | None =>
  err <- call (iscsi_CheckForInitiatorExistence ne) ;;
  match err with
  | Some e => Ret (Some e)
  | None =>
  loggedIn <- call (iscsi_IsTargetLoggedIn ip target ne) ;;
  if loggedIn : bool then LogoutTarget_session ip target ne
  else Ret None
  end end end.

(** [for _, cid := range cidList]: [Some e] is the [return err]. *)
Fixpoint DeleteTarget_closeSession (tid : Z) (sid : SessionID)
    (cidList : list ConnectionID) : Prog (option error) :=
  match cidList with
  | [] => Ret None
  | cid :: rest =>
      err <- call (iscsi_CloseConnection tid sid cid) ;;
      match err with
      | Some e => Ret (Some e)
      | None => DeleteTarget_closeSession tid sid rest
      end
  end.

(** [for sid, cidList := range sessionConnectionsMap], over the entries
    of the map in the order the [range] visits them. *)
Fixpoint DeleteTarget_closeAll (tid : Z) (m : list (SessionID * list ConnectionID))
  : Prog (option error) :=
  match m with
  | [] => Ret None
  | (sid, cidList) :: rest =>
      err <- DeleteTarget_closeSession tid sid cidList ;;
      match err with
      | Some e => Ret (Some e)
      | None => DeleteTarget_closeAll tid rest
      end
  end.

Definition DeleteTarget (target : string) (targetID : Z) : Prog (option error) :=
  '(tid, err) <- call (iscsi_GetTargetTid target) ;;
  match err with
  | Some _ => Ret None
  | None =>
  if tid =? -1 then Ret None
  else
    (if negb (tid =? targetID)
     then Fatalf "BUG: Invalid TID %v found for %v" [AInt tid; AStr target]
     else Ret tt) ;;
    Infof "Shutdown SCSI target %v" [AStr target] ;;
    err <- call (iscsi_UnbindInitiator targetID "ALL") ;;
    match err with
    | Some e => Ret (Some e)
    | None =>
    err <- call (iscsi_DeleteLun targetID TargetLunID) ;;
    match err with
    | Some e => Ret (Some e)
    | None =>
    '(sessionConnectionsMap, err) <- call (iscsi_GetTargetConnections tid) ;;
    match err with
    | Some e => Ret (Some e)
    | None =>
    err <- DeleteTarget_closeAll tid sessionConnectionsMap ;;
    match err with
    | Some e => Ret (Some e)
    | None =>
    err <- call (iscsi_DeleteTarget targetID) ;;
    match err with
    | Some e => Ret (Some e)
    | None => Ret None
    end end end end end
  end.

Definition StopScsi (volumeName : string) (targetID : Z) : Prog (option error) :=
  ns <- call (util_GetHostNamespacePath HostProc) ;;
  let lock := NewLockWithTimeout ns LockFile LockTimeout in
  err <- call (lock_Lock lock) ;;
  match err with
  | Some e => Ret (Some (Errorf "Fail to lock: " e ""))
  | None =>
      r <- (let target := GetTargetName volumeName in
            err <- LogoutTarget target ;;
            match err with
            | Some e => Ret (Some (Errorf "Fail to logout target: " e ""))
            | None =>
                err <- DeleteTarget target targetID ;;
                match err with
                | Some e => Ret (Some (Errorf "Fail to delete target: " e ""))
                | None => Ret None
                end
            end) ;;
      call (lock_Unlock lock) ;;
      Ret r
  end.

Definition UpdateScsiBackingStore (dev : ScsiDevice) (bsType bsOpts : string)
  : ScsiDevice * option error :=
  (set_BS bsType bsOpts dev, None).

Definition UpdateTarget (dev : ScsiDevice) : Prog (ScsiDevice * option error) :=
  err <- DeleteTarget (Target dev) (TargetID dev) ;;
  match err with
  | Some e => Ret (dev, Some e)
  | None => SetupTarget dev
  end.

Definition UpdateScsi (dev : ScsiDevice) : Prog (ScsiDevice * option error) :=
  ns <- call (util_GetHostNamespacePath HostProc) ;;
  let lock := NewLockWithTimeout ns LockFile LockTimeout in
  err <- call (lock_Lock lock) ;;
  match err with
  | Some e => Ret (dev, Some (Errorf "Fail to lock: " e ""))
  | None =>
      r <- (ns <- call (util_GetHostNamespacePath HostProc) ;;
            '(ne, err) <- call (util_NewNamespaceExecutor ns) ;;
            match err with
            | Some e => Ret (dev, Some e)
            | None =>
            err <- call (iscsi_CheckForInitiatorExistence ne) ;;
            match err with
            | Some e => Ret (dev, Some e)
            | None =>
            '(ip, err) <- call util_GetIPToHost ;;
            match err with
            | Some e => Ret (dev, Some e)
            | None =>
            '(dev, err) <- UpdateTarget dev ;;
            match err with
            | Some e => Ret (dev, Some e)
            | None =>
            err <- call (iscsi_RescanTarget ip (Target dev) ne) ;;
            match err with
            | Some e => Ret (dev, Some e)
            | None => Ret (dev, None)
            end end end end end) ;;
      call (lock_Unlock lock) ;;
      Ret r
  end.

(** ** Runs *)

(** One call of a trace: the event and the answer it received. *)
Inductive Entry : Type :=
| entry (X : Type) (e : Ev X) (x : X).

Inductive Outcome (R : Type) : Type :=
| Done (r : R)
| Exited (code : Z).

Arguments Done {R} r.
Arguments Exited {R} code.

Record Result (R W : Type) : Type := mkResult
  { trace : list Entry;
    outcome : Outcome R;
    final : W }.

(** An environment: a state and the way it answers each call. *)
Definition Handler (W : Type) : Type := forall X : Type, Ev X -> W -> X * W.

Fixpoint run {W R : Type} (h : Handler W) (p : Prog R) (w : W) : Result R W :=
  match p with
  | Ret r => mkResult [] (Done r) w
  | Exit c => mkResult [] (Exited c) w
  | Vis e k =>
      let a := h _ e w in
      let r := run h (k (fst a)) (snd a) in
      mkResult (entry e (fst a) :: trace r) (outcome r) (final r)
  end.

(** ** Reading traces *)

(** The answers, in order, that the calls selected by [sel] received. *)
Definition answers {A : Type} (sel : Entry -> option A) (tr : list Entry) : list A :=
  flat_map (fun en => match sel en with Some a => [a] | None => [] end) tr.

Definition sel_CreateTarget (en : Entry) : option (Z * option error) :=
  match en with
  | entry e x =>
      match e in Ev X return X -> option (Z * option error) with
      | iscsi_CreateTarget tid _ => fun x => Some (tid, x)
      | _ => fun _ => None
      end x
  end.

Definition sel_AddLun (en : Entry) : option (Z * option error) :=
  match en with
  | entry e x =>
      match e in Ev X return X -> option (Z * option error) with
      | iscsi_AddLun tid _ _ _ _ => fun x => Some (tid, x)
      | _ => fun _ => None
      end x
  end.

Definition sel_DiscoverTarget (en : Entry) : option (option error) :=
  match en with
  | entry e x =>
      match e in Ev X return X -> option (option error) with
      | iscsi_DiscoverTarget _ _ _ => fun x => Some x
      | _ => fun _ => None
      end x
  end.

Definition sel_IsTargetDiscovered (en : Entry) : option bool :=
  match en with
  | entry e x =>
      match e in Ev X return X -> option bool with
      | iscsi_IsTargetDiscovered _ _ _ => fun x => Some x
      | _ => fun _ => None
      end x
  end.

Definition sel_CleanupScsiNodes (en : Entry) : option (option error) :=
  match en with
  | entry e x =>
      match e in Ev X return X -> option (option error) with
      | iscsi_CleanupScsiNodes _ _ => fun x => Some x
      | _ => fun _ => None
      end x
  end.

Definition sel_DeleteDiscoveredTarget (en : Entry) : option (option error) :=
  match en with
  | entry e x =>
      match e in Ev X return X -> option (option error) with
      | iscsi_DeleteDiscoveredTarget _ _ _ => fun x => Some x
      | _ => fun _ => None
      end x
  end.

Definition sel_LoginTarget (en : Entry) : option (option error) :=
  match en with
  | entry e x =>
      match e in Ev X return X -> option (option error) with
      | iscsi_LoginTarget _ _ _ => fun x => Some x
      | _ => fun _ => None
      end x
  end.

Definition sel_LogoutTarget (en : Entry) : option (option error) :=
  match en with
  | entry e x =>
      match e in Ev X return X -> option (option error) with
      | iscsi_LogoutTarget _ _ _ => fun x => Some x
      | _ => fun _ => None
      end x
  end.

Definition sel_IsTargetLoggedIn (en : Entry) : option bool :=
  match en with
  | entry e x =>
      match e in Ev X return X -> option bool with
      | iscsi_IsTargetLoggedIn _ _ _ => fun x => Some x
      | _ => fun _ => None
      end x
  end.

Definition sel_GetTargetTid (en : Entry) : option (Z * option error) :=
  match en with
  | entry e x =>
      match e in Ev X return X -> option (Z * option error) with
      | iscsi_GetTargetTid _ => fun x => Some x
      | _ => fun _ => None
      end x
  end.

Definition sel_Stat (en : Entry) : option (string * (FileMode * option error)) :=
  match en with
  | entry e x =>
      match e in Ev X return X -> option (string * (FileMode * option error)) with
      | os_Stat path => fun x => Some (path, x)
      | _ => fun _ => None
      end x
  end.

Definition sel_Sleep (en : Entry) : option Duration :=
  match en with
  | entry e _ =>
      match e with
      | time_Sleep d => Some d
      | _ => None
      end
  end.

(** The teardown steps of [DeleteTarget]: unbind, LUN delete, connection
    listing and close, target delete. *)
Definition is_teardown (en : Entry) : bool :=
  match en with
  | entry e _ =>
      match e with
      | iscsi_UnbindInitiator _ _ | iscsi_DeleteLun _ _
      | iscsi_GetTargetConnections _ | iscsi_CloseConnection _ _ _
      | iscsi_DeleteTarget _ => true
      | _ => false
      end
  end.

(** ** A simulated host

    An executable environment with the faults the orchestrator is written
    against: allocators racing for target IDs, discovery that does not
    take at once, logout commands that fail or time out, device nodes that
    appear late. *)
Module SimHost.

Inductive LogoutFault :=
| LogoutError (e : error)      (* the command fails, the session stays *)
| LogoutTimeout (lag : nat).   (* the command times out; the session
                                  goes away after [lag] further polls *)

Record Host := mkHost
  { targets : list (Z * string);       (* live targets: ID, name *)
    racers : nat;                      (* allocators about to take the next free ID *)
    tid_lookup_fault : option error;   (* the ID lookup by name fails *)
    discovered : list string;          (* discovery records *)
    discover_misses : nat;             (* discoveries that will not take *)
    delete_faults : list error;        (* failures of the next record deletions *)
    sessions : list string;            (* targets logged in to *)
    logout_faults : list LogoutFault;  (* outcomes of the next logout commands *)
    logout_pending : option nat;       (* a timed-out logout still completing *)
    devnode_lag : nat;                 (* polls before the device node appears *)
    locked : bool }.

Definition mem (s : string) (l : list string) : bool := existsb (String.eqb s) l.
Definition remove (s : string) (l : list string) : list string :=
  filter (fun x => negb (String.eqb s x)) l.
Definition live (tid : Z) (w : Host) : bool :=
  existsb (fun p => fst p =? tid) (targets w).
Definition next_free (w : Host) : Z :=
  1 + fold_right (fun p m => Z.max (fst p) m) 0 (targets w).
Definition lookup (name : string) (w : Host) : Z :=
  match find (fun p => String.eqb (snd p) name) (targets w) with
  | Some p => fst p
  | None => -1
  end.

Definition with_targets (w : Host) t r :=
  mkHost t r (tid_lookup_fault w) (discovered w) (discover_misses w) (delete_faults w)
         (sessions w) (logout_faults w) (logout_pending w) (devnode_lag w) (locked w).
Definition with_discovery (w : Host) d m f :=
  mkHost (targets w) (racers w) (tid_lookup_fault w) d m f
         (sessions w) (logout_faults w) (logout_pending w) (devnode_lag w) (locked w).
Definition with_sessions (w : Host) s f p :=
  mkHost (targets w) (racers w) (tid_lookup_fault w) (discovered w) (discover_misses w)
         (delete_faults w) s f p (devnode_lag w) (locked w).
Definition with_devnode_lag (w : Host) n :=
  mkHost (targets w) (racers w) (tid_lookup_fault w) (discovered w) (discover_misses w)
         (delete_faults w) (sessions w) (logout_faults w) (logout_pending w) n (locked w).
Definition with_locked (w : Host) b :=
  mkHost (targets w) (racers w) (tid_lookup_fault w) (discovered w) (discover_misses w)
         (delete_faults w) (sessions w) (logout_faults w) (logout_pending w) (devnode_lag w) b.

Definition on_target (tid : Z) (w : Host) : option error * Host :=
  if live tid w then (None, w) else (Some "tgtadm: can't find the target", w).

Definition handle : Handler Host := fun X e =>
  match e in Ev X return Host -> X * Host with
  | iscsi_StartDaemon _ => fun w => (None, w)
  | iscsi_FindNextAvailableTargetID => fun w =>
      let tid := next_free w in
      match racers w with
      | O => ((tid, None), w)
      | S r => ((tid, None), with_targets w ((tid, "iqn.racer") :: targets w) r)
      end
  | iscsi_CreateTarget tid name => fun w =>
      if live tid w then (Some "tgtadm: this target already exists", w)
      else (None, with_targets w ((tid, name) :: targets w) (racers w))
  | iscsi_DeleteTarget tid => fun w =>
      if live tid w
      then (None, with_targets w (filter (fun p => negb (fst p =? tid)) (targets w)) (racers w))
      else (Some "tgtadm: can't find the target", w)
  | iscsi_AddLun tid _ _ _ _ => on_target tid
  | iscsi_DeleteLun tid _ => on_target tid
  | iscsi_BindInitiator tid _ => on_target tid
  | iscsi_UnbindInitiator tid _ => on_target tid
  | iscsi_GetTargetTid name => fun w =>
      match tid_lookup_fault w with
      | Some e => ((-1, Some e), w)
      | None => ((lookup name w, None), w)
      end
  | iscsi_GetTargetConnections _ => fun w => (([], None), w)
  | iscsi_CloseConnection _ _ _ => fun w => (None, w)
  | iscsi_CheckForInitiatorExistence _ => fun w => (None, w)
  | iscsi_DiscoverTarget _ target _ => fun w =>
      match discover_misses w with
      | S m => (Some "iscsiadm: No portals found",
                with_discovery w (discovered w) m (delete_faults w))
      | O => (None, with_discovery w (target :: remove target (discovered w)) O (delete_faults w))
      end
  | iscsi_IsTargetDiscovered _ target _ => fun w => (mem target (discovered w), w)
  | iscsi_CleanupScsiNodes _ _ => fun w => (None, w)
  | iscsi_DeleteDiscoveredTarget _ target _ => fun w =>
      match delete_faults w with
      | e :: rest => (Some e, with_discovery w (discovered w) (discover_misses w) rest)
      | [] => (None, with_discovery w (remove target (discovered w)) (discover_misses w) [])
      end
  | iscsi_LoginTarget _ target _ => fun w =>
      if mem target (discovered w)
      then (None, with_sessions w (target :: remove target (sessions w))
                    (logout_faults w) (logout_pending w))
      else (Some "iscsiadm: No records found, exit status 21", w)
  | iscsi_LogoutTarget _ target _ => fun w =>
      match logout_faults w with
      | LogoutError e :: rest => (Some e, with_sessions w (sessions w) rest (logout_pending w))
      | LogoutTimeout lag :: rest =>
          (Some "Timeout executing: iscsiadm -m node --logout",
           with_sessions w (sessions w) rest (Some lag))
      | [] => (None, with_sessions w (remove target (sessions w)) [] None)
      end
  | iscsi_IsTargetLoggedIn _ target _ => fun w =>
      match logout_pending w with
      | Some O => (false, with_sessions w (remove target (sessions w)) (logout_faults w) None)
      | Some (S k) => (mem target (sessions w),
                       with_sessions w (sessions w) (logout_faults w) (Some k))
      | None => (mem target (sessions w), w)
      end
  | iscsi_GetDevice _ target _ _ => fun w =>
      if mem target (sessions w) then (("/dev/sdb", None), w)
      else (("", Some "cannot find the device"), w)
  | iscsi_RescanTarget _ _ _ => fun w => (None, w)
  | util_GetHostNamespacePath hostProc => fun w => (hostProc ++ "/1/ns/", w)
  | util_NewNamespaceExecutor ns => fun w => ((Build_NamespaceExecutor ns, None), w)
  | util_GetIPToHost => fun w => (("10.42.0.7", None), w)
  | lock_Lock _ => fun w =>
      if locked w then (Some "timeout waiting for file to be locked", w)
      else (None, with_locked w true)
  | lock_Unlock _ => fun w => (tt, with_locked w false)
  | os_Stat _ => fun w =>
      match devnode_lag w with
      | S n => ((0, Some "stat: no such file or directory"), with_devnode_lag w n)
      | O => ((Z.lor ModeDevice 432, None), w)
      end
  | time_Sleep _ => fun w => (tt, w)
  | logrus_Log _ _ _ => fun w => (tt, w)
  end.

(** A host with nothing provisioned and no fault pending. *)
Definition idle : Host :=
  mkHost [] O None [] O [] [] [] None O false.

Definition ne : NamespaceExecutor := Build_NamespaceExecutor "/host/proc/1/ns/".
Definition ip : string := "10.42.0.7".

End SimHost.

(** * Stating the properties *)

Unset Implicit Arguments.
Local Open Scope list_scope.

Arguments RetryIntervalSCSI : simpl never.
Arguments RetryIntervalTargetID : simpl never.
Arguments ModeDevice : simpl never.

(** ** Target names *)

(** What the specification asks of the name: each ['_'] becomes [':']. *)
Definition underscore_to_colon (c : ascii) : ascii :=
  if Ascii.eqb c "_" then ":"%char else c.

Fixpoint each_underscore_to_colon (s : string) : string :=
  match s with
  | EmptyString => EmptyString
  | String c s' => String (underscore_to_colon c) (each_underscore_to_colon s')
  end.

Fixpoint no_underscore (s : string) : bool :=
  match s with
  | EmptyString => true
  | String c s' => negb (Ascii.eqb c "_") && no_underscore s'
  end.

(** Two names differ only by characters other than ['_']: wherever one
    of them has a ['_'], the other has one too. *)
Fixpoint same_underscores (s t : string) : bool :=
  match s, t with
  | EmptyString, _ => no_underscore t
  | _, EmptyString => no_underscore s
  | String a s', String b t' =>
      Bool.eqb (Ascii.eqb a "_") (Ascii.eqb b "_") && same_underscores s' t'
  end.

(** ** What a program can call, and whether it returns *)

(** Whatever the environment answers, every call of [p] satisfies [Q]. *)
Fixpoint quiet {R : Type} (Q : Entry -> bool) (p : Prog R) : Prop :=
  match p with
  | Ret _ => True
  | Exit _ => True
  | Vis e k => forall x, Q (entry e x) = true /\ quiet Q (k x)
  end.

(** Whatever the environment answers, [p] does not exit the process. *)
Fixpoint returns {R : Type} (p : Prog R) : Prop :=
  match p with
  | Ret _ => True
  | Exit _ => False
  | Vis e k => forall x, returns (k x)
  end.

(** The calls [LogoutTarget] never makes: the target-ID lookup and the
    teardown steps of [DeleteTarget]. *)
Definition initiator_side (en : Entry) : bool :=
  negb (is_teardown en) &&
  match sel_GetTargetTid en with Some _ => false | None => true end.

(** Not an [os.Stat]. *)
Definition no_stat (en : Entry) : bool :=
  match sel_Stat en with Some _ => false | None => true end.

(** Neither the discovery check nor the login. *)
Definition off_discovery (en : Entry) : bool :=
  match sel_IsTargetDiscovered en, sel_LoginTarget en with
  | None, None => true
  | _, _ => false
  end.

(** ** The shapes of the runs of the loops

    Each loop of the package is left in a few ways.  A predicate on runs
    gives, for each way, the calls the loop made, in order and with their
    answers, and the values it leaves. *)

Section LoopShapes.

Context {W : Type}.
Variables (ip target : string) (ne : NamespaceExecutor).









(** An attempt after which the target is not discovered: the discovery
    command answered [fst a], the cleanup pass answered [snd a]. *)
Definition failed_discovery (a : option error * option error) : list Entry :=
  [ entry (iscsi_DiscoverTarget ip target ne) (fst a);
    entry (iscsi_IsTargetDiscovered ip target ne) false;
    entry (logrus_Log WarnLevel "FAIL to discover due to %v" [AErr (fst a)]) tt;
    entry (iscsi_CleanupScsiNodes target ne) (snd a);
    match snd a with
    | Some e => entry (logrus_Log WarnLevel "Fail to cleanup nodes for %v: %v"
                         [AStr target; AErr (Some e)]) tt
    | None => entry (logrus_Log WarnLevel "Nodes cleaned up for %v" [AStr target]) tt
    end;
    entry (time_Sleep RetryIntervalSCSI) tt ].

(** The two ways the discovery loop is left, with [n] attempts allowed:
    on the attempt that finds the target discovered, or by using up the
    attempts. *)
Inductive discover_run (n : nat) (err0 : option error) (r : Result (option error) W) : Prop :=
| discover_confirmed (fails : list (option error * option error)) (derr : option error) :
    (List.length fails < n)%nat ->
    trace r = flat_map failed_discovery fails
              ++ [entry (iscsi_DiscoverTarget ip target ne) derr;
                  entry (iscsi_IsTargetDiscovered ip target ne) true] ->
    outcome r = Done derr ->
    discover_run n err0 r
| discover_exhausted (fails : list (option error * option error)) :
    List.length fails = n ->
    trace r = flat_map failed_discovery fails ->
    outcome r = Done (last (map fst fails) err0) ->
    discover_run n err0 r.

End LoopShapes.

Section DeviceShapes.

Context {W : Type}.
Variable path : string.

(** A poll that did not find a device node, and the pause after it. *)
Definition stat_retry (st : FileMode * option error) : list Entry :=
  [ entry (os_Stat path) st; entry (time_Sleep RetryIntervalSCSI) tt ].

(** The two ways the device poll is left, with [n] polls allowed. *)
Inductive waitDevice_run (n : nat) (r : Result bool W) : Prop :=
| waitDevice_found (misses : list (FileMode * option error)) (st : FileMode * option error) :
    Forall (fun m => device_ready m = false) misses ->
    (List.length misses < n)%nat ->
    device_ready st = true ->
    trace r = flat_map stat_retry misses ++ [entry (os_Stat path) st] ->
    outcome r = Done true ->
    waitDevice_run n r
| waitDevice_exhausted (misses : list (FileMode * option error)) :
    Forall (fun m => device_ready m = false) misses ->
    List.length misses = n ->
    trace r = flat_map stat_retry misses ->
    outcome r = Done false ->
    waitDevice_run n r.

End DeviceShapes.

Section AllocateShapes.

Context {W : Type}.
Variable dev : ScsiDevice.

(** The log line for a candidate ID. *)
Definition found_id (tid : Z) : Entry :=
  entry (logrus_Log InfoLevel "go-iscsi-helper: found available target id %v" [AInt tid]) tt.

(** An attempt on which the creation of the candidate failed. *)
Definition collision (a : Z * error) : list Entry :=
  [ entry iscsi_FindNextAvailableTargetID (fst a, None);
    found_id (fst a);
    entry (iscsi_CreateTarget (fst a) (Target dev)) (Some (snd a));
    entry (logrus_Log InfoLevel
             "go-iscsi-helper: failed to use target id %v, retrying with a new target ID: err %v"
             [AInt (fst a); AErr (Some (snd a))]) tt;
    entry (time_Sleep RetryIntervalTargetID) tt ].

(** The three ways the allocation loop is left, with [n] attempts
    allowed: a creation succeeds, no candidate ID is found, or every
    creation fails. *)
Inductive allocate_run (n : nat) (r : Result (ScsiDevice + error) W) : Prop :=
| allocate_created (fails : list (Z * error)) (tid : Z) :
    (List.length fails < n)%nat ->
    trace r = flat_map collision fails
              ++ [ entry iscsi_FindNextAvailableTargetID (tid, None);
                   found_id tid;
                   entry (iscsi_CreateTarget tid (Target dev)) None ] ->
    outcome r = Done (inl (set_TargetID tid dev)) ->
    allocate_run n r
| allocate_no_id (fails : list (Z * error)) (tid : Z) (e : error) :
    (List.length fails < n)%nat ->
    trace r = flat_map collision fails
              ++ [entry iscsi_FindNextAvailableTargetID (tid, Some e)] ->
    outcome r = Done (inr e) ->
    allocate_run n r
| allocate_exhausted (fails : list (Z * error)) :
    List.length fails = n ->
    trace r = flat_map collision fails ->
    outcome r = Done (inl dev) ->
    allocate_run n r.

End AllocateShapes.

(** A creation attempt that failed. *)
Definition collided (a : Z * option error) : bool :=
  match snd a with Some _ => true | None => false end.

(** ** The shapes of the runs of [LogoutTarget] and [StartScsi] *)

Section SessionShapes.

Context {W : Type}.
Variable h : Handler W.
Variables (ip target : string) (ne : NamespaceExecutor).

(** The log lines, the logout command and the poll of the logged-in
    branch. *)
Definition session_start : Entry :=
  entry (logrus_Log InfoLevel "Shutdown SCSI device for %v:%v" [AStr ip; AStr target]) tt.

Definition session_waiting : Entry :=
  entry (logrus_Log InfoLevel "Logout SCSI device timeout, waiting for logout complete" [])
        tt.

Definition logout_call (d : option error) : Entry :=
  entry (iscsi_LogoutTarget ip target ne) d.

Definition poll_gone : Entry :=
  entry (iscsi_IsTargetLoggedIn ip target ne) false.




End SessionShapes.



Section StartShapes.

Context {W : Type}.

(** The error of a device that did not show up. *)
Definition wait_failure (dev : ScsiDevice) : error :=
  Errorf "Failed to wait for device " (Device dev) " to show up".


End StartShapes.


(** ** [StopScsi] on an absent target *)

(** A healthy host on which the target is absent: the lock is granted,
    the executor, the address and the initiator are there, no session is
    logged in and the ID lookup answers the [-1] sentinel. *)
Definition host_ok_target_absent (en : Entry) : bool :=
  match en with
  | entry e x =>
      match e in Ev X return X -> bool with
      | lock_Lock _ => fun x => match x with None => true | Some _ => false end
      | util_NewNamespaceExecutor _ => fun x =>
          match snd x with None => true | Some _ => false end
      | util_GetIPToHost => fun x => match snd x with None => true | Some _ => false end
      | iscsi_CheckForInitiatorExistence _ => fun x =>
          match x with None => true | Some _ => false end
      | iscsi_IsTargetLoggedIn _ _ _ => fun x => negb x
      | iscsi_GetTargetTid _ => fun x =>
          (fst x =? -1) && match snd x with None => true | Some _ => false end
      | _ => fun _ => true
      end x
  end.

(** [Stop] called twice in a row. *)
Definition StopScsi_twice (volumeName : string) (targetID : Z)
  : Prog (option error * option error) :=
  (e1 <- StopScsi volumeName targetID ;;
   e2 <- StopScsi volumeName targetID ;;
   Ret (e1, e2))%prog.

(** ** What every run of a program satisfies *)

(** Whatever the environment answers, the calls that [p] makes and the
    way it ends satisfy [P]. *)
Fixpoint always {R : Type} (P : list Entry -> Outcome R -> Prop) (p : Prog R) : Prop :=
  match p with
  | Ret r => P [] (Done r)
  | Exit c => P [] (Exited c)
  | Vis e k => forall x, always (fun tr o => P (entry e x :: tr) o) (k x)
  end.

(** ** The calls of each function *)

(** Taking and releasing the file lock. *)
Definition is_lock (en : Entry) : bool :=
  match en with
  | entry e _ =>
      match e with
      | lock_Lock _ | lock_Unlock _ => true
      | _ => false
      end
  end.

Definition not_lock (en : Entry) : bool := negb (is_lock en).

(** Logging and sleeping. *)
Definition is_log_or_sleep (en : Entry) : bool :=
  match en with
  | entry e _ =>
      match e with
      | time_Sleep _ | logrus_Log _ _ _ => true
      | _ => false
      end
  end.

(** The checks that [StartScsi] and [UpdateScsi] make before they touch
    the target, and that [LogoutTarget] makes before it asks for the
    session. *)
Definition is_check (en : Entry) : bool :=
  match en with
  | entry e _ =>
      match e with
      | util_GetHostNamespacePath _ | util_NewNamespaceExecutor _
      | util_GetIPToHost | iscsi_CheckForInitiatorExistence _ => true
      | _ => false
      end
  end.

(** The calls of [SetupTarget]. *)
Definition calls_SetupTarget (en : Entry) : bool :=
  is_log_or_sleep en ||
  match en with
  | entry e _ =>
      match e with
      | iscsi_StartDaemon _ | iscsi_FindNextAvailableTargetID | iscsi_CreateTarget _ _
      | iscsi_AddLun _ _ _ _ _ | iscsi_BindInitiator _ _ => true
      | _ => false
      end
  end.

(** The calls of [DeleteTarget]. *)
Definition calls_DeleteTarget (en : Entry) : bool :=
  is_teardown en ||
  match en with
  | entry e _ =>
      match e with
      | iscsi_GetTargetTid _ | logrus_Log _ _ _ => true
      | _ => false
      end
  end.

(** The calls of [LogoutTarget]. *)
Definition calls_LogoutTarget (en : Entry) : bool :=
  is_check en || is_log_or_sleep en ||
  match en with
  | entry e _ =>
      match e with
      | iscsi_IsTargetLoggedIn _ _ _ | iscsi_LogoutTarget _ _ _
      | iscsi_IsTargetDiscovered _ _ _ | iscsi_DeleteDiscoveredTarget _ _ _ => true
      | _ => false
      end
  end.

(** The calls with which [StartScsi] sets up the initiator. *)
Definition is_attach (en : Entry) : bool :=
  match en with
  | entry e _ =>
      match e with
      | iscsi_DiscoverTarget _ _ _ | iscsi_IsTargetDiscovered _ _ _
      | iscsi_CleanupScsiNodes _ _ | iscsi_LoginTarget _ _ _
      | iscsi_GetDevice _ _ _ _ | os_Stat _ => true
      | _ => false
      end
  end.

Definition is_rescan (en : Entry) : bool :=
  match en with
  | entry e _ =>
      match e with
      | iscsi_RescanTarget _ _ _ => true
      | _ => false
      end
  end.

(** The calls of the three functions that take the lock. *)
Definition calls_StartScsi (en : Entry) : bool :=
  is_lock en || is_check en || calls_SetupTarget en || is_attach en.

Definition calls_StopScsi (en : Entry) : bool :=
  is_lock en || calls_LogoutTarget en || calls_DeleteTarget en.

Definition calls_UpdateScsi (en : Entry) : bool :=
  is_lock en || is_check en || calls_DeleteTarget en || calls_SetupTarget en || is_rescan en.

(** ** The lock *)

Definition the_lock (ns : string) : NSFileLock := NewLockWithTimeout ns LockFile LockTimeout.

(** The three ways a function that takes the lock ends.  [refused] makes
    the function's result from the error it returns. *)
Inductive lock_use {R : Type} (refused : error -> R) (tr : list Entry) (o : Outcome R)
  : Prop :=
| lock_refused (ns : string) (e : error) :
    tr = [ entry (util_GetHostNamespacePath HostProc) ns;
           entry (lock_Lock (the_lock ns)) (Some e) ] ->
    o = Done (refused (Errorf "Fail to lock: " e "")) ->
    lock_use refused tr o
| lock_released (ns : string) (body : list Entry) (a : R) :
    forallb not_lock body = true ->
    tr = entry (util_GetHostNamespacePath HostProc) ns
         :: entry (lock_Lock (the_lock ns)) None
         :: body ++ [entry (lock_Unlock (the_lock ns)) tt] ->
    o = Done a ->
    lock_use refused tr o
| lock_held_at_exit (ns : string) (body : list Entry) (c : Z) :
    forallb not_lock body = true ->
    tr = entry (util_GetHostNamespacePath HostProc) ns
         :: entry (lock_Lock (the_lock ns)) None
         :: body ->
    o = Exited c ->
    lock_use refused tr o.

(** ** The checks before the target is touched *)

(** The lock and the checks, all passed. *)
Definition preflight (ns ns' : string) (ne : NamespaceExecutor) (ip : string) : list Entry :=
  [ entry (util_GetHostNamespacePath HostProc) ns;
    entry (lock_Lock (the_lock ns)) None;
    entry (util_GetHostNamespacePath HostProc) ns';
    entry (util_NewNamespaceExecutor ns') (ne, None);
    entry (iscsi_CheckForInitiatorExistence ne) None;
    entry util_GetIPToHost (ip, None) ].

Definition is_preflight (en : Entry) : bool := is_lock en || is_check en.

(** Either the function made none but lock and check calls and returned
    an error with [dev] as it was, or all checks passed and the call
    [first] came next. *)
Inductive preflight_run {X : Type} (dev : ScsiDevice) (first : Ev X)
    (tr : list Entry) (o : Outcome (ScsiDevice * option error)) : Prop :=
| preflight_failed (e : error) :
    forallb is_preflight tr = true ->
    o = Done (dev, Some e) ->
    preflight_run dev first tr o
| preflight_passed (ns ns' : string) (ne : NamespaceExecutor) (ip : string)
                   (x : X) (rest : list Entry) :
    tr = preflight ns ns' ne ip ++ entry first x :: rest ->
    preflight_run dev first tr o.

(** ** The functions that take the lock *)

(** What [StartScsi], [StopScsi] and [UpdateScsi] do with the lock, around
    the rest of the function. *)
Definition with_lock {R : Type} (refused : error -> R) (body : Prog R) : Prog R :=
  (ns <- call (util_GetHostNamespacePath HostProc) ;;
   err <- call (lock_Lock (the_lock ns)) ;;
   match err with
   | Some e => Ret (refused (Errorf "Fail to lock: " e ""))
   | None =>
       r <- body ;;
       call (lock_Unlock (the_lock ns)) ;;
       Ret r
   end)%prog.

(** [StopScsi] between [lock.Lock()] and the deferred [lock.Unlock()]. *)
Definition StopScsi_locked (volumeName : string) (targetID : Z) : Prog (option error) :=
  (let target := GetTargetName volumeName in
   err <- LogoutTarget target ;;
   match err with
   | Some e => Ret (Some (Errorf "Fail to logout target: " e ""))
   | None =>
       err <- DeleteTarget target targetID ;;
       match err with
       | Some e => Ret (Some (Errorf "Fail to delete target: " e ""))
       | None => Ret None
       end
   end)%prog.

(** [UpdateScsi] between [lock.Lock()] and the deferred [lock.Unlock()]. *)
Definition UpdateScsi_locked (dev : ScsiDevice) : Prog (ScsiDevice * option error) :=
  (ns <- call (util_GetHostNamespacePath HostProc) ;;
   '(ne, err) <- call (util_NewNamespaceExecutor ns) ;;
   match err with
   | Some e => Ret (dev, Some e)
   | None =>
   err <- call (iscsi_CheckForInitiatorExistence ne) ;;
   match err with
   | Some e => Ret (dev, Some e)
   | None =>
   '(ip, err) <- call util_GetIPToHost ;;
   match err with
   | Some e => Ret (dev, Some e)
   | None =>
   '(dev, err) <- UpdateTarget dev ;;
   match err with
   | Some e => Ret (dev, Some e)
   | None =>
   err <- call (iscsi_RescanTarget ip (Target dev) ne) ;;
   match err with
   | Some e => Ret (dev, Some e)
   | None => Ret (dev, None)
   end end end end end)%prog.

(** ** Errors *)

(** The error that the answer to a call carries, if it carries one. *)
Definition failure_of (en : Entry) : option error :=
  match en with
  | entry e x =>
      match e in Ev X return X -> option error with
      | iscsi_StartDaemon _ => fun x => x
      | iscsi_FindNextAvailableTargetID => fun x => snd x
      | iscsi_CreateTarget _ _ => fun x => x
      | iscsi_DeleteTarget _ => fun x => x
      | iscsi_AddLun _ _ _ _ _ => fun x => x
      | iscsi_DeleteLun _ _ => fun x => x
      | iscsi_BindInitiator _ _ => fun x => x
      | iscsi_UnbindInitiator _ _ => fun x => x
      | iscsi_GetTargetTid _ => fun x => snd x
      | iscsi_GetTargetConnections _ => fun x => snd x
      | iscsi_CloseConnection _ _ _ => fun x => x
      | iscsi_CheckForInitiatorExistence _ => fun x => x
      | iscsi_DiscoverTarget _ _ _ => fun x => x
      | iscsi_CleanupScsiNodes _ _ => fun x => x
      | iscsi_DeleteDiscoveredTarget _ _ _ => fun x => x
      | iscsi_LoginTarget _ _ _ => fun x => x
      | iscsi_LogoutTarget _ _ _ => fun x => x
      | iscsi_GetDevice _ _ _ _ => fun x => snd x
      | iscsi_RescanTarget _ _ _ => fun x => x
      | util_NewNamespaceExecutor _ => fun x => snd x
      | util_GetIPToHost => fun x => snd x
      | lock_Lock _ => fun x => x
      | os_Stat _ => fun x => snd x
      | iscsi_IsTargetDiscovered _ _ _ => fun _ => None
      | iscsi_IsTargetLoggedIn _ _ _ => fun _ => None
      | util_GetHostNamespacePath _ => fun _ => None
      | lock_Unlock _ => fun _ => None
      | time_Sleep _ => fun _ => None
      | logrus_Log _ _ _ => fun _ => None
      end x
  end.

(** The error of the last call of a trace. *)
Definition last_failure (tr : list Entry) : option error :=
  last (map failure_of tr) None.

(** ** The teardown of a target *)

(** The connections of a session map, in the order [DeleteTarget] visits
    them. *)
Definition connections (m : list (SessionID * list ConnectionID))
  : list (SessionID * ConnectionID) :=
  flat_map (fun sc => map (pair (fst sc)) (snd sc)) m.

(** A connection closed without error. *)
Definition closed (tid : Z) (c : SessionID * ConnectionID) : Entry :=
  entry (iscsi_CloseConnection tid (fst c) (snd c)) None.

Definition fatal_log (tid : Z) (target : string) : Entry :=
  entry (logrus_Log FatalLevel "BUG: Invalid TID %v found for %v" [AInt tid; AStr target]) tt.

(** The complete teardown of the target [targetID], whose connections
    were [m]: every step answered [nil]. *)
Definition teardown (target : string) (targetID : Z)
    (m : list (SessionID * list ConnectionID)) : list Entry :=
  [ entry (iscsi_GetTargetTid target) (targetID, None);
    entry (logrus_Log InfoLevel "Shutdown SCSI target %v" [AStr target]) tt;
    entry (iscsi_UnbindInitiator targetID "ALL") None;
    entry (iscsi_DeleteLun targetID TargetLunID) None;
    entry (iscsi_GetTargetConnections targetID) (m, None) ]
  ++ map (closed targetID) (connections m)
  ++ [ entry (iscsi_DeleteTarget targetID) None ].

(** The three runs of [DeleteTarget] that return [nil]. *)
Inductive deleted_run (target : string) (targetID : Z) (tr : list Entry) : Prop :=
| lookup_failed (tid : Z) (e : error) :
    tr = [entry (iscsi_GetTargetTid target) (tid, Some e)] ->
    deleted_run target targetID tr
| target_absent :
    tr = [entry (iscsi_GetTargetTid target) (-1, None)] ->
    deleted_run target targetID tr
| torn_down (m : list (SessionID * list ConnectionID)) :
    targetID <> -1 ->
    tr = teardown target targetID m ->
    deleted_run target targetID tr.

(** The run that ends the process: the lookup found the target under
    another ID, and the fatal log line is the last call. *)
Definition fatal_mismatch (target : string) (targetID : Z) (tr : list Entry) (c : Z) : Prop :=
  c = 1 /\
  exists (pre : list Entry) (tid : Z),
    tid <> -1 /\ tid <> targetID /\
    tr = pre ++ [entry (iscsi_GetTargetTid target) (tid, None); fatal_log tid target].

(** What holds of every run of [DeleteTarget]. *)
Definition DeleteTarget_post (target : string) (targetID : Z)
    (tr : list Entry) (o : Outcome (option error)) : Prop :=
  match o with
  | Done None => deleted_run target targetID tr
  | Done (Some e) => last_failure tr = Some e
  | Exited c => fatal_mismatch target targetID tr c
  end.

(** ** More simulated hosts *)

(** The simulated host with a target whose LUN is busy: [DeleteLun] is
    refused. *)
Definition busy_lun : Handler SimHost.Host := fun X e =>
  match e in Ev X return SimHost.Host -> X * SimHost.Host with
  | iscsi_DeleteLun _ _ => fun w => (Some "tgtadm: this logical unit is busy", w)
  | e' => SimHost.handle e'
  end.

(** The simulated host with initiators connected to every target: the
    sessions and connections of a target are [m]. *)
Definition connected (m : list (SessionID * list ConnectionID)) : Handler SimHost.Host :=
  fun X e =>
    match e in Ev X return SimHost.Host -> X * SimHost.Host with
    | iscsi_GetTargetConnections _ => fun w => ((m, None), w)
    | e' => SimHost.handle e'
    end.

(** ** The ways [StopScsi] ends *)

(** What holds of every run of [StopScsi] once the lock is taken: [tr]
    are the calls between the lock and its release. *)
Inductive stop_run (target : string) (targetID : Z) (tr : list Entry)
    (o : Outcome (option error)) : Prop :=
| stop_logout_failed (e : error) :
    forallb initiator_side tr = true ->
    o = Done (Some (Errorf "Fail to logout target: " e "")) ->
    stop_run target targetID tr o
| stop_delete_failed (out del : list Entry) (e : error) :
    forallb calls_LogoutTarget out = true ->
    last_failure del = Some e ->
    tr = out ++ del ->
    o = Done (Some (Errorf "Fail to delete target: " e "")) ->
    stop_run target targetID tr o
| stop_done (out del : list Entry) :
    forallb calls_LogoutTarget out = true ->
    deleted_run target targetID del ->
    tr = out ++ del ->
    o = Done None ->
    stop_run target targetID tr o
| stop_fatal (c : Z) :
    fatal_mismatch target targetID tr c ->
    o = Exited c ->
    stop_run target targetID tr o.

(** The same of the whole run of [StopScsi]. *)
Definition stop_outcomes (target : string) (targetID : Z) (tr : list Entry)
    (o : Outcome (option error)) : Prop :=
  (forall e : error,
      o = Done (Some (Errorf "Fail to logout target: " e "")) ->
      answers sel_GetTargetTid tr = [] /\ existsb is_teardown tr = false)
  /\ (o = Done None ->
      exists (ns : string) (out del : list Entry),
        tr = entry (util_GetHostNamespacePath HostProc) ns
             :: entry (lock_Lock (the_lock ns)) None
             :: out ++ del ++ [entry (lock_Unlock (the_lock ns)) tt]
        /\ forallb calls_LogoutTarget out = true
        /\ deleted_run target targetID del)
  /\ (forall msg : error,
         o = Done (Some msg) ->
         exists e : error,
           msg = Errorf "Fail to lock: " e ""
           \/ msg = Errorf "Fail to logout target: " e ""
           \/ msg = Errorf "Fail to delete target: " e "").

(** ** The rescan of [UpdateScsi] *)

Definition sel_RescanTarget (en : Entry) : option (string * option error) :=
  match en with
  | entry e x =>
      match e in Ev X return X -> option (string * option error) with
      | iscsi_RescanTarget _ target _ => fun x => Some (target, x)
      | _ => fun _ => None
      end x
  end.

(** Either [UpdateScsi] did not come to the rescan, and then it did not
    return [nil]; or the rescan of [dev.Target] was its last call before
    the lock was released, and what the rescan answered is what
    [UpdateScsi] returned. *)
Inductive rescan_use (dev : ScsiDevice) (tr : list Entry)
    (o : Outcome (ScsiDevice * option error)) : Prop :=
| rescan_not_reached :
    answers sel_RescanTarget tr = [] ->
    (forall dev', o <> Done (dev', None)) ->
    rescan_use dev tr o
| rescan_last (dev' : ScsiDevice) (x : option error) (pre : list Entry)
              (ip : string) (ne : NamespaceExecutor) (l : NSFileLock) :
    answers sel_RescanTarget pre = [] ->
    tr = pre ++ [entry (iscsi_RescanTarget ip (Target dev) ne) x; entry (lock_Unlock l) tt] ->
    o = Done (dev', x) ->
    rescan_use dev tr o.

(** The same between the lock and its release. *)
Inductive rescan_use_locked (dev : ScsiDevice) (tr : list Entry)
    (o : Outcome (ScsiDevice * option error)) : Prop :=
| rescan_not_reached_locked :
    answers sel_RescanTarget tr = [] ->
    (forall dev', o <> Done (dev', None)) ->
    rescan_use_locked dev tr o
| rescan_last_locked (dev' : ScsiDevice) (x : option error) (pre : list Entry)
                     (ip : string) (ne : NamespaceExecutor) :
    answers sel_RescanTarget pre = [] ->
    tr = pre ++ [entry (iscsi_RescanTarget ip (Target dev) ne) x] ->
    o = Done (dev', x) ->
    rescan_use_locked dev tr o.

(** ** The two halves of [UpdateTarget] *)

(** The calls [del] of [DeleteTarget] come first; the calls [setup] of
    [SetupTarget] follow only when [DeleteTarget] returned [nil]. *)
Definition teardown_then_setup (dev : ScsiDevice) (tr : list Entry) : Prop :=
  exists del setup : list Entry,
    tr = del ++ setup
    /\ forallb calls_DeleteTarget del = true
    /\ forallb calls_SetupTarget setup = true
    /\ (setup = [] \/ deleted_run (Target dev) (TargetID dev) del).

(** ** Allocation and waiting *)

(** A candidate ID that [FindNextAvailableTargetID] answered. *)
Definition sel_candidate (en : Entry) : option Z :=
  match en with
  | entry e x =>
      match e in Ev X return X -> option Z with
      | iscsi_FindNextAvailableTargetID => fun x =>
          match snd x with
          | None => Some (fst x)
          | Some _ => None
          end
      | _ => fun _ => None
      end x
  end.

(** The time a run spent in [time.Sleep]. *)
Definition total_sleep (tr : list Entry) : Duration :=
  fold_right Z.add 0 (answers sel_Sleep tr).

(** Every candidate ID that was found was tried, in order, and nothing
    else was; and every failed creation was followed by one pause of
    [RetryIntervalTargetID], the only pauses there are. *)
Definition paced (tr : list Entry) : Prop :=
  map fst (answers sel_CreateTarget tr) = answers sel_candidate tr
  /\ answers sel_Sleep tr
     = repeat RetryIntervalTargetID
              (List.length (filter collided (answers sel_CreateTarget tr))).

(** ** The steps of a successful [StartScsi] *)

(** The steps that must succeed: the daemon start, the LUN attachment,
    the initiator binding, the login and the device lookup. *)
Definition is_step (en : Entry) : bool :=
  match en with
  | entry e _ =>
      match e with
      | iscsi_StartDaemon _ | iscsi_AddLun _ _ _ _ _ | iscsi_BindInitiator _ _
      | iscsi_LoginTarget _ _ _ | iscsi_GetDevice _ _ _ _ => true
      | _ => false
      end
  end.

Definition not_step (en : Entry) : bool := negb (is_step en).

(** The steps of [SetupTarget], each answered [nil], for the device as it
    is when the function returns. *)
Definition target_steps (dev' : ScsiDevice) : list Entry :=
  [ entry (iscsi_StartDaemon false) None;
    entry (iscsi_AddLun (TargetID dev') TargetLunID
             (BackingFile dev') (BSType dev') (BSOpts dev')) None;
    entry (iscsi_BindInitiator (TargetID dev') "ALL") None ].

(** The steps of [StartScsi], each answered [nil]. *)
Definition start_steps (dev' : ScsiDevice) (ip : string) (ne : NamespaceExecutor)
  : list Entry :=
  target_steps dev'
  ++ [ entry (iscsi_LoginTarget ip (Target dev') ne) None;
       entry (iscsi_GetDevice ip (Target dev') TargetLunID ne) (Device dev', None) ].

(** ** The target that the calls address *)

(** The target name that a call carries, if it carries one. *)
Definition target_of (en : Entry) : option string :=
  match en with
  | entry e _ =>
      match e with
      | iscsi_CreateTarget _ name => Some name
      | iscsi_GetTargetTid name => Some name
      | iscsi_DiscoverTarget _ target _ => Some target
      | iscsi_IsTargetDiscovered _ target _ => Some target
      | iscsi_CleanupScsiNodes target _ => Some target
      | iscsi_DeleteDiscoveredTarget _ target _ => Some target
      | iscsi_LoginTarget _ target _ => Some target
      | iscsi_LogoutTarget _ target _ => Some target
      | iscsi_IsTargetLoggedIn _ target _ => Some target
      | iscsi_GetDevice _ target _ _ => Some target
      | iscsi_RescanTarget _ target _ => Some target
      | _ => None
      end
  end.

(** The call [en] carries no target name, or it carries [target]. *)
Definition addresses (target : string) (en : Entry) : bool :=
  match target_of en with
  | Some t => String.eqb target t
  | None => true
  end.

(** ** The errors of the functions that take the lock *)

(** The function returned because the lock was refused, or it returned
    the error of its last call before it released the lock. *)
Definition locked_failure (e : error) (tr : list Entry) : Prop :=
  (exists (ns : string) (le : error),
      tr = [ entry (util_GetHostNamespacePath HostProc) ns;
             entry (lock_Lock (the_lock ns)) (Some le) ]
      /\ e = Errorf "Fail to lock: " le "")
  \/ (exists (pre : list Entry) (l : NSFileLock),
         tr = pre ++ [entry (lock_Unlock l) tt] /\ last_failure pre = Some e).

(** ** The checks of [LogoutTarget] *)

(** Either a check failed, its error is returned and nothing but checks
    was called; or the checks passed and the session query came next. *)
Inductive logout_checks (target : string) (tr : list Entry) (o : Outcome (option error))
  : Prop :=
| logout_check_failed (e : error) :
    forallb is_check tr = true ->
    last_failure tr = Some e ->
    o = Done (Some e) ->
    logout_checks target tr o
| logout_checks_passed (ns : string) (ne : NamespaceExecutor) (ip : string) (b : bool)
                       (rest : list Entry) :
    tr = [ entry (util_GetHostNamespacePath HostProc) ns;
           entry (util_NewNamespaceExecutor ns) (ne, None);
           entry util_GetIPToHost (ip, None);
           entry (iscsi_CheckForInitiatorExistence ne) None;
           entry (iscsi_IsTargetLoggedIn ip target ne) b ] ++ rest ->
    logout_checks target tr o.

(** ** The backing store that is attached *)

(** The LUN and the backing store of an [AddLun] call. *)
Definition sel_attached (en : Entry) : option (Z * string * string * string) :=
  match en with
  | entry e _ =>
      match e with
      | iscsi_AddLun _ lun backingFile bsType bsOpts => Some (lun, backingFile, bsType, bsOpts)
      | _ => None
      end
  end.

Definition backing (dev : ScsiDevice) : Z * string * string * string :=
  (TargetLunID, BackingFile dev, BSType dev, BSOpts dev).

(** [AddLun] was called at most once, with the backing store of [dev],
    and exactly once when the function returned [nil]. *)
Definition attaches (dev : ScsiDevice) (tr : list Entry)
    (o : Outcome (ScsiDevice * option error)) : Prop :=
  (answers sel_attached tr = [] \/ answers sel_attached tr = [backing dev])
  /\ forall dev', o = Done (dev', None) -> answers sel_attached tr = [backing dev].

(** * Properties *)

Arguments RetryCounts : simpl never.
Arguments LogoutTarget : simpl never.
Arguments DeleteTarget : simpl never.
Arguments SetupTarget : simpl never.

(** ** Lists *)

Lemma last_cons {A : Type} (l : list A) :
  forall x d : A, last (x :: l) d = last l x.
Proof.
  induction l as [| a l IH]; intros x d; [reflexivity |].
  change (last (a :: l) d = last (a :: l) x).
  rewrite !IH; reflexivity.
Qed.



(** ** Runs of composed programs *)

Section Runs.

Context {W : Type}.
Variable h : Handler W.

Lemma run_bind {A B : Type} (p : Prog A) (k : A -> Prog B) (w : W) :
  run h (bind p k) w =
  match outcome (run h p w) with
  | Done a =>
      let r := run h (k a) (final (run h p w)) in
      mkResult (trace (run h p w) ++ trace r) (outcome r) (final r)
  | Exited c => mkResult (trace (run h p w)) (Exited c) (final (run h p w))
  end.
Proof.
  revert w; induction p as [a | c | X e k' IH]; intros w; simpl.
  - destruct (run h (k a) w); reflexivity.
  - reflexivity.
  - rewrite IH.
    destruct (outcome (run h (k' (fst (h X e w))) (snd (h X e w)))); reflexivity.
Qed.

Lemma run_bind_assoc {A B C : Type} (p : Prog A) (f : A -> Prog B) (g : B -> Prog C)
      (w : W) :
  run h (bind (bind p f) g) w = run h (bind p (fun a => bind (f a) g)) w.
Proof.
  revert w; induction p as [a | c | X e k IH]; intros w; simpl;
    [reflexivity | reflexivity | rewrite IH; reflexivity].
Qed.

Lemma answers_cons {A : Type} (sel : Entry -> option A) (en : Entry) (tr : list Entry) :
  answers sel (en :: tr) =
  match sel en with Some a => a :: answers sel tr | None => answers sel tr end.
Proof. unfold answers; simpl; destruct (sel en); reflexivity. Qed.

Lemma answers_app {A : Type} (sel : Entry -> option A) (t1 t2 : list Entry) :
  answers sel (t1 ++ t2) = answers sel t1 ++ answers sel t2.
Proof. unfold answers; apply flat_map_app. Qed.

End Runs.

Lemma answers_nil {A : Type} (sel : Entry -> option A) : answers sel [] = [].
Proof. reflexivity. Qed.

Lemma answers_flat_map_nil {A B : Type} (sel : Entry -> option A)
      (f : B -> list Entry) (l : list B) :
  (forall x, answers sel (f x) = []) -> answers sel (flat_map f l) = [].
Proof.
  intros Hf; induction l as [| x l IH]; [reflexivity |].
  cbn [flat_map]; rewrite answers_app, Hf, IH; reflexivity.
Qed.

Lemma answers_flat_map_one {A B : Type} (sel : Entry -> option A)
      (f : B -> list Entry) (g : B -> A) (l : list B) :
  (forall x, answers sel (f x) = [g x]) -> answers sel (flat_map f l) = map g l.
Proof.
  intros Hf; induction l as [| x l IH]; [reflexivity |].
  cbn [flat_map map]; rewrite answers_app, Hf, IH; reflexivity.
Qed.

Lemma answers_concat_repeat_nil {A : Type} (sel : Entry -> option A)
      (t : list Entry) (k : nat) :
  answers sel t = [] -> answers sel (List.concat (repeat t k)) = [].
Proof.
  intros Ht; induction k as [| k IH]; [reflexivity |].
  cbn [repeat List.concat]; rewrite answers_app, Ht, IH; reflexivity.
Qed.

Lemma map_const_repeat {A B : Type} (b : B) (l : list A) :
  map (fun _ => b) l = repeat b (List.length l).
Proof. induction l as [| a l IH]; [reflexivity |]. cbn; rewrite IH; reflexivity. Qed.

(** ** Tactics for runs *)

(** Answer the next call of the goal's run: the handler's answer at a
    state variable becomes a pair of fresh variables. *)
Ltac step h :=
  match goal with
  | |- context [h ?X ?e ?w] => is_var w; destruct (h X e w) as [? ?] eqn:?
  end;
  repeat match goal with u : unit |- _ => destruct u end;
  simpl.

(** Answer the next call of a run that a hypothesis speaks about. *)
Ltac step_in H h :=
  match type of H with
  | context [h ?X ?e ?w] => is_var w; destruct (h X e w) as [? ?] eqn:?
  end;
  repeat match goal with u : unit |- _ => destruct u end;
  simpl in H |- *.

(** The same, unfolding only the run itself. *)
Ltac run_cbn_in H :=
  cbn [run bind call trace outcome final fst snd] in H |- *.

Ltac answer_in H h :=
  match type of H with
  | context [h ?X ?e ?w] => is_var w; destruct (h X e w) as [? ?] eqn:?
  end;
  repeat match goal with u : unit |- _ => destruct u end;
  run_cbn_in H.

Ltac run_cbn := cbn [run bind call trace outcome final fst snd].


Ltac answer h :=
  match goal with
  | |- context [h ?X ?e ?w] => is_var w; destruct (h X e w) as [? ?] eqn:?
  end;
  repeat match goal with u : unit |- _ => destruct u end;
  run_cbn.

(** Push a projection through a trace made of the loops' pieces. *)
Ltac project_pieces :=
  match goal with
  | |- context [answers ?sel (flat_map ?f ?l)] =>
      first
        [ rewrite (answers_flat_map_nil sel f l) by (intros; reflexivity)
        | rewrite (answers_flat_map_one sel f (fun _ => true) l) by (intros; reflexivity)
        | rewrite (answers_flat_map_one sel f (@Some error) l) by (intros; reflexivity) ]
  | |- context [answers ?sel (List.concat (repeat ?t ?k))] =>
      rewrite (answers_concat_repeat_nil sel t k) by reflexivity
  end.

Ltac project :=
  unfold session_start, session_waiting, logout_call, poll_gone;
  repeat first
    [ rewrite answers_app
    | rewrite answers_cons;
      cbn [sel_IsTargetLoggedIn sel_IsTargetDiscovered sel_DeleteDiscoveredTarget
           sel_LogoutTarget sel_Stat sel_GetTargetTid sel_CleanupScsiNodes
           sel_DiscoverTarget]
    | project_pieces
    | rewrite map_const_repeat
    | rewrite answers_nil
    | rewrite app_nil_r ];
  cbn [app].

(** ** What a program can call, and whether it returns *)

Section Footprints.

Context {W : Type}.
Variable h : Handler W.

Lemma quiet_bind {A B : Type} (Q : Entry -> bool) (p : Prog A) (k : A -> Prog B) :
  quiet Q p -> (forall a, quiet Q (k a)) -> quiet Q (bind p k).
Proof.
  intros Hp Hk; induction p as [a | c | X e k' IH]; simpl in *; auto.
  intros x; split; [apply Hp | apply IH, Hp].
Qed.

Lemma returns_bind {A B : Type} (p : Prog A) (k : A -> Prog B) :
  returns p -> (forall a, returns (k a)) -> returns (bind p k).
Proof.
  intros Hp Hk; induction p as [a | c | X e k' IH]; simpl in *; auto.
Qed.

Lemma quiet_trace {R : Type} (Q : Entry -> bool) (p : Prog R) :
  quiet Q p -> forall w : W, forallb Q (trace (run h p w)) = true.
Proof.
  induction p as [a | c | X e k IH]; simpl; intros Hq w; auto.
  destruct (Hq (fst (h X e w))) as [HQ Hk].
  rewrite HQ; simpl; apply IH; assumption.
Qed.

Lemma returns_outcome {R : Type} (p : Prog R) :
  returns p -> forall w : W, exists a, outcome (run h p w) = Done a.
Proof.
  induction p as [a | c | X e k IH]; simpl; intros Hr w.
  - exists a; reflexivity.
  - contradiction.
  - apply IH, Hr.
Qed.

Lemma forallb_answers_nil {A : Type} (Q : Entry -> bool) (sel : Entry -> option A)
      (tr : list Entry) :
  (forall en, Q en = true -> sel en = None) ->
  forallb Q tr = true -> answers sel tr = [].
Proof.
  intros HQ; induction tr as [| en tr IH]; simpl; intros HF; [reflexivity |].
  apply andb_true_iff in HF; destruct HF as [H1 H2].
  rewrite (HQ en H1); simpl; apply IH; assumption.
Qed.

Lemma forallb_existsb_false (Q P : Entry -> bool) (tr : list Entry) :
  (forall en, Q en = true -> P en = false) ->
  forallb Q tr = true -> existsb P tr = false.
Proof.
  intros HQ; induction tr as [| en tr IH]; simpl; intros HF; [reflexivity |].
  apply andb_true_iff in HF; destruct HF as [H1 H2].
  rewrite (HQ en H1); simpl; apply IH; assumption.
Qed.

End Footprints.

Ltac quiet_step :=
  match goal with
  | |- True => exact I
  | |- quiet _ (Ret _) => exact I
  | |- quiet _ (Vis _ _) => simpl; intros; split; [reflexivity |]
  | |- quiet _ (bind _ _) => apply quiet_bind; [| intros]
  | |- quiet _ (match ?x with _ => _ end) => destruct x
  | |- returns (Ret _) => exact I
  | |- returns (Vis _ _) => simpl; intros
  | |- returns (bind _ _) => apply returns_bind; [| intros]
  | |- returns (match ?x with _ => _ end) => destruct x
  | |- _ => assumption
  end.

Ltac quiet_tac :=
  unfold Infof, Warnf, Sleep, call; repeat quiet_step.

Lemma initiator_side_no_lookup (en : Entry) :
  initiator_side en = true -> sel_GetTargetTid en = None.
Proof.
  unfold initiator_side; intros H; apply andb_true_iff in H; destruct H as [_ H].
  destruct (sel_GetTargetTid en); [discriminate | reflexivity].
Qed.

Lemma initiator_side_no_teardown (en : Entry) :
  initiator_side en = true -> is_teardown en = false.
Proof.
  unfold initiator_side; intros H; apply andb_true_iff in H; destruct H as [H _].
  destruct (is_teardown en); [discriminate | reflexivity].
Qed.


Lemma LogoutTarget_initiator_side (target : string) :
  quiet initiator_side (LogoutTarget target) /\ returns (LogoutTarget target).
Proof.
  assert (HL : forall n ip ne err,
             quiet initiator_side (LogoutTarget_logout n ip target ne err)
             /\ returns (LogoutTarget_logout n ip target ne err)).
  { induction n as [| n IH]; intros ip ne err; [split; exact I |].
    split; simpl; intros; (try split); try reflexivity;
      destruct x as [e |]; try exact I;
      destruct (Contains e "exit status 21"); try exact I;
      destruct (is_timeout e); try exact I; simpl; intros;
      (try split); try reflexivity; apply IH. }
  assert (HW : forall n ip ne err,
             quiet initiator_side (LogoutTarget_wait n ip target ne err)
             /\ returns (LogoutTarget_wait n ip target ne err)).
  { induction n as [| n IH]; intros ip ne err; [split; exact I |].
    split; simpl; intros; (try split); try reflexivity;
      destruct x; simpl; try exact I; intros;
      (try split); try reflexivity; apply IH. }
  assert (HD : forall n ip ne err,
             quiet initiator_side (LogoutTarget_delete n ip target ne err)
             /\ returns (LogoutTarget_delete n ip target ne err)).
  { induction n as [| n IH]; intros ip ne err; [split; exact I |].
    split; simpl; intros; (try split); try reflexivity;
      destruct x; simpl; try exact I; intros;
      (try split); try reflexivity;
      destruct (nil_or_not_found x); try exact I; simpl; intros;
      (try split); try reflexivity; apply IH. }
  split; unfold LogoutTarget, LogoutTarget_session; quiet_tac;
    try apply HL; try apply HW; try apply HD.
Qed.

Lemma SetupTarget_footprint (dev : ScsiDevice) :
  quiet no_stat (SetupTarget dev)
  /\ quiet off_discovery (SetupTarget dev)
  /\ returns (SetupTarget dev).
Proof.
  assert (HA : forall n d,
             quiet no_stat (SetupTarget_allocate n d)
             /\ quiet off_discovery (SetupTarget_allocate n d)
             /\ returns (SetupTarget_allocate n d)).
  { induction n as [| n IH]; intros d; [repeat split; exact I |].
    repeat split; cbn [SetupTarget_allocate]; quiet_tac; apply IH. }
  repeat split; unfold SetupTarget; quiet_tac; apply HA.
Qed.

Lemma StartScsi_waitDevice_footprint (n : nat) (path : string) :
  quiet off_discovery (StartScsi_waitDevice n path).
Proof.
  induction n as [| n IH]; [exact I |].
  cbn [StartScsi_waitDevice]; quiet_tac.
Qed.

Lemma off_discovery_answers (tr : list Entry) :
  forallb off_discovery tr = true ->
  answers sel_IsTargetDiscovered tr = [] /\ answers sel_LoginTarget tr = [].
Proof.
  intros HF; split; revert HF; apply forallb_answers_nil; intros en;
    unfold off_discovery;
    destruct (sel_IsTargetDiscovered en), (sel_LoginTarget en);
    (discriminate || reflexivity).
Qed.


(** ** The loops *)

Section Allocate.

Context {W : Type}.
Variable h : Handler W.
Variable dev : ScsiDevice.

(** After [N] collisions and a success the loop has made [N + 1]
    attempts and [dev.TargetID] is the created ID; after [n] collisions
    the loop ends with [dev] as it was and without an error. *)
Lemma SetupTarget_allocate_run (n : nat) :
  forall w : W, allocate_run dev n (run h (SetupTarget_allocate n dev) w).
Proof.
  induction n as [| n IH]; intros w.
  - apply allocate_exhausted with (fails := []); reflexivity.
  - simpl. step h. destruct p as [tid [e |]]; simpl.
    + apply allocate_no_id with (fails := []) (tid := tid) (e := e);
        [simpl; lia | reflexivity | reflexivity].
    + step h. step h. destruct o as [e |]; simpl.
      * step h. step h.
        destruct (IH w4) as [fails t HL HT HO | fails t e' HL HT HO | fails HL HT HO].
        -- apply allocate_created with (fails := (tid, e) :: fails) (tid := t);
             [ simpl; lia | simpl; rewrite HT; reflexivity | assumption ].
        -- apply allocate_no_id with (fails := (tid, e) :: fails) (tid := t) (e := e');
             [ simpl; lia | simpl; rewrite HT; reflexivity | assumption ].
        -- apply allocate_exhausted with (fails := (tid, e) :: fails);
             [ simpl; lia | simpl; rewrite HT; reflexivity | assumption ].
      * apply allocate_created with (fails := []) (tid := tid);
          [simpl; lia | reflexivity | reflexivity].
Qed.

End Allocate.

Section StartLoops.

Context {W : Type}.
Variable h : Handler W.
Variables (ip target : string) (ne : NamespaceExecutor).

Lemma StartScsi_discover_run (n : nat) :
  forall (w : W) (err0 : option error),
    discover_run ip target ne n err0 (run h (StartScsi_discover n ip target ne err0) w).
Proof.
  induction n as [| n IH]; intros w err0.
  - apply discover_exhausted with (fails := []); reflexivity.
  - simpl. step h. step h. destruct b; simpl.
    + apply discover_confirmed with (fails := []) (derr := o); simpl; auto with arith.
    + step h. step h.
      assert (HS : forall w',
                 discover_run ip target ne (S n) err0
                   (mkResult
                      (failed_discovery ip target ne (o, o0)
                       ++ trace (run h (StartScsi_discover n ip target ne o) w'))
                      (outcome (run h (StartScsi_discover n ip target ne o) w'))
                      (final (run h (StartScsi_discover n ip target ne o) w')))).
      { intros w'.
        destruct (IH w' o) as [fails derr HL HT HO | fails HL HT HO].
        - apply discover_confirmed with (fails := (o, o0) :: fails) (derr := derr);
            [ simpl; lia | cbn [trace flat_map]; rewrite HT, app_assoc; reflexivity
            | assumption ].
        - apply discover_exhausted with (fails := (o, o0) :: fails);
            [ simpl; lia | cbn [trace flat_map]; rewrite HT; reflexivity
            | cbn [outcome]; rewrite HO; f_equal; symmetry;
              apply (last_cons (map fst fails)) ]. }
      destruct o0 as [ce |]; simpl; step h; step h; apply HS.
Qed.

Variable path : string.

Lemma StartScsi_waitDevice_run (n : nat) :
  forall w : W, waitDevice_run path n (run h (StartScsi_waitDevice n path) w).
Proof.
  induction n as [| n IH]; intros w.
  - apply waitDevice_exhausted with (misses := []); simpl; auto.
  - simpl. step h. destruct (device_ready p) eqn:ER; simpl.
    + apply waitDevice_found with (misses := []) (st := p); simpl; auto with arith.
    + step h.
      destruct (IH w1) as [misses st HF HL HR HT HO | misses HF HL HT HO].
      * apply waitDevice_found with (misses := p :: misses) (st := st);
          [ constructor; assumption | simpl; lia | assumption
          | simpl; rewrite HT; reflexivity | assumption ].
      * apply waitDevice_exhausted with (misses := p :: misses);
          [ constructor; assumption | simpl; lia
          | simpl; rewrite HT; reflexivity | assumption ].
Qed.

End StartLoops.

Section LogoutLoops.

Context {W : Type}.
Variable h : Handler W.
Variables (ip target : string) (ne : NamespaceExecutor).




End LogoutLoops.

Lemma cleanups_failed_discovery (ip target : string) (ne : NamespaceExecutor)
      (fails : list (option error * option error)) :
  answers sel_CleanupScsiNodes (flat_map (failed_discovery ip target ne) fails)
  = map snd fails.
Proof.
  apply answers_flat_map_one. intros [d [c |]]; reflexivity.
Qed.


(** ** Target names *)

Section Names.

Lemma Volume2ISCSIName_each (name : string) :
  Volume2ISCSIName name = each_underscore_to_colon name.
Proof.
  unfold Volume2ISCSIName, ReplaceAll.
  change (String.eqb "_" ":") with false; cbv iota.
  induction name as [| c name IH]; [reflexivity |].
  cbn [replace_from each_underscore_to_colon HasPrefix String.length Nat.pred].
  unfold underscore_to_colon.
  rewrite Ascii.eqb_sym, andb_true_r.
  destruct (Ascii.eqb c "_"); simpl; rewrite IH; reflexivity.
Qed.

Lemma each_underscore_to_colon_inj (s : string) :
  forall t : string,
    same_underscores s t = true ->
    each_underscore_to_colon s = each_underscore_to_colon t ->
    s = t.
Proof.
  induction s as [| a s IH]; intros [| b t] HS HE; simpl in *;
    try reflexivity; try discriminate.
  apply andb_true_iff in HS; destruct HS as [HU HS].
  injection HE as Hc Hr.
  f_equal; [| apply IH; assumption].
  unfold underscore_to_colon in Hc.
  destruct (Ascii.eqb a "_") eqn:Ea, (Ascii.eqb b "_") eqn:Eb;
    simpl in HU; try discriminate.
  - apply Ascii.eqb_eq in Ea, Eb; congruence.
  - assumption.
Qed.

Lemma append_inj_l (p s t : string) : (p ++ s = p ++ t)%string -> s = t.
Proof. induction p as [| c p IH]; simpl; intros H; [assumption |]. injection H; auto. Qed.

End Names.

(** C5: the target name of a volume is the fixed authority prefix followed
    by the volume name with every ['_'] replaced by [':']; equal names give
    equal target names; and two different names that differ only by
    characters other than ['_'] give different target names. *)
Theorem GetTargetName_spec (n1 n2 : string) :
  GetTargetName n1 = ("iqn.2014-09.com.rancher:" ++ each_underscore_to_colon n1)%string
  /\ (n1 = n2 -> GetTargetName n1 = GetTargetName n2)
  /\ (same_underscores n1 n2 = true -> n1 <> n2 -> GetTargetName n1 <> GetTargetName n2).
Proof.
  split; [| split].
  - unfold GetTargetName. rewrite Volume2ISCSIName_each. reflexivity.
  - intros ->. reflexivity.
  - intros HS HN HE. apply HN.
    unfold GetTargetName in HE. apply append_inj_l in HE.
    rewrite !Volume2ISCSIName_each in HE.
    apply each_underscore_to_colon_inj; assumption.
Qed.

Lemma GetTargetName_spec_witness :
  GetTargetName "vol_a" = "iqn.2014-09.com.rancher:vol:a"
  /\ GetTargetName "vol_a" <> GetTargetName "vol_b".
Proof.
  split.
  - exact (proj1 (GetTargetName_spec "vol_a" "vol_b")).
  - apply (proj2 (proj2 (GetTargetName_spec "vol_a" "vol_b"))).
    + reflexivity.
    + discriminate.
Defined.

(** Without the restriction the mapping is not injective: a name with a
    [':'] collides with the name that has a ['_'] in its place. *)
Example GetTargetName_collision :
  GetTargetName "vol_a" = GetTargetName "vol:a".
Proof. reflexivity. Qed.

(** ** [SetupTarget] *)

Lemma creations_collision (dev : ScsiDevice) (fails : list (Z * error)) :
  answers sel_CreateTarget (flat_map (collision dev) fails)
  = map (fun a => (fst a, Some (snd a))) fails.
Proof. apply answers_flat_map_one. intros x; reflexivity. Qed.

Lemma collisions_then_success (fails : list (Z * error)) (t : Z) :
  forall (pre post : list (Z * option error)) (tid : Z),
    map (fun a => (fst a, Some (snd a))) fails ++ [(t, None)] = pre ++ (tid, None) :: post ->
    post = [] /\ forallb collided pre = true /\ tid = t.
Proof.
  induction fails as [| a fails IH]; intros pre post tid HE.
  - destruct pre as [| x pre]; cbn in HE.
    + injection HE as -> <-. repeat split.
    + injection HE as _ HE. destruct pre; discriminate HE.
  - destruct pre as [| x pre]; cbn in HE; [discriminate HE |].
    injection HE as <- HE. destruct (IH pre post tid HE) as (HP & HC & HT).
    repeat split; [assumption | cbn; assumption | assumption].
Qed.

Lemma collisions_only (fails : list (Z * error)) :
  forall (pre post : list (Z * option error)) (tid : Z),
    map (fun a => (fst a, Some (snd a))) fails <> pre ++ (tid, None) :: post.
Proof.
  induction fails as [| a fails IH]; intros pre post tid HE.
  - destruct pre; discriminate HE.
  - destruct pre as [| x pre]; cbn in HE; [discriminate HE |].
    injection HE as _ HE. exact (IH pre post tid HE).
Qed.

Lemma collisions_collided (fails : list (Z * error)) :
  forallb collided (map (fun a => (fst a, Some (snd a))) fails) = true.
Proof. induction fails as [| a fails IH]; [reflexivity | exact IH]. Qed.

(** What holds of the allocation in every environment.  [SetupTarget]
    makes at most [RetryCounts] creation attempts.  A creation that
    succeeds is the last attempt, every attempt before it failed, and
    [dev.TargetID] is the created ID when the function returns.  When
    [RetryCounts] attempts were made and all of them failed, the function
    goes on to [AddLun] on the ID that [dev] had on entry. *)
Lemma SetupTarget_allocation_outcomes
    {W : Type} (h : Handler W) (w : W) (dev : ScsiDevice) :
  let r := run h (SetupTarget dev) w in
  let creations := answers sel_CreateTarget (trace r) in
  (List.length creations <= RetryCounts)%nat
  /\ (forall (pre post : list (Z * option error)) (tid : Z),
         creations = pre ++ (tid, None) :: post ->
         post = [] /\ forallb collided pre = true
         /\ exists err, outcome r = Done (set_TargetID tid dev, err))
  /\ (List.length creations = RetryCounts ->
      forallb collided creations = true ->
      exists x, answers sel_AddLun (trace r) = [(TargetID dev, x)]).
Proof.
  intros r creations; subst creations r.
  unfold SetupTarget. run_cbn. answer h.
  destruct o as [e |]; run_cbn.
  { split; [cbn; lia |].
    split; [intros [| x pre] post tid HE; discriminate HE | intros HL; discriminate HL]. }
  rewrite run_bind.
  pose proof (SetupTarget_allocate_run h dev RetryCounts w0) as HA.
  destruct (run h (SetupTarget_allocate RetryCounts dev) w0) as [tra oa wa].
  destruct HA as [fails t HL HT HO | fails t e HL HT HO | fails HL HT HO];
    cbn [trace outcome final] in *; subst tra oa; run_cbn.
  - (* created *)
    assert (HC : forall tl : list Entry,
               answers sel_CreateTarget tl = [] ->
               answers sel_CreateTarget
                 (entry (iscsi_StartDaemon false) None
                  :: (flat_map (collision dev) fails
                      ++ [entry iscsi_FindNextAvailableTargetID (t, None);
                          found_id t;
                          entry (iscsi_CreateTarget t (Target dev)) None]) ++ tl)
               = map (fun a => (fst a, Some (snd a))) fails ++ [(t, None)]).
    { intros tl HN. rewrite answers_cons. cbn [sel_CreateTarget].
      rewrite !answers_app, creations_collision, HN. cbn. rewrite app_nil_r. reflexivity. }
    answer h. destruct o as [e |]; run_cbn; [| answer h; destruct o as [e |]; run_cbn];
      rewrite HC by reflexivity;
      (split; [rewrite length_app, length_map; cbn; lia |]);
      (split;
       [ intros pre post tid HE;
         destruct (collisions_then_success fails t pre post tid HE) as (HP & HF & ->);
         repeat split; try assumption; eexists; reflexivity
       | intros _ HF; rewrite forallb_app in HF;
         apply andb_true_iff in HF; destruct HF as [_ HF]; discriminate HF ]).
  - (* no candidate ID *)
    assert (HC : answers sel_CreateTarget
                   (entry (iscsi_StartDaemon false) None
                    :: (flat_map (collision dev) fails
                        ++ [entry iscsi_FindNextAvailableTargetID (t, Some e)]) ++ [])
                 = map (fun a => (fst a, Some (snd a))) fails).
    { rewrite answers_cons. cbn [sel_CreateTarget].
      rewrite !answers_app, creations_collision. cbn. rewrite !app_nil_r. reflexivity. }
    rewrite HC.
    split; [rewrite length_map; lia |].
    split; [intros pre post tid HE; destruct (collisions_only fails pre post tid HE) |].
    rewrite length_map. intros HE; lia.
  - (* every attempt collided *)
    assert (HC : forall tl : list Entry,
               answers sel_CreateTarget tl = [] ->
               answers sel_CreateTarget
                 (entry (iscsi_StartDaemon false) None
                  :: flat_map (collision dev) fails ++ tl)
               = map (fun a => (fst a, Some (snd a))) fails).
    { intros tl HN. rewrite answers_cons. cbn [sel_CreateTarget].
      rewrite !answers_app, creations_collision, HN. rewrite app_nil_r. reflexivity. }
    assert (HU : forall (x : option error) (tl : list Entry),
               answers sel_AddLun tl = [] ->
               answers sel_AddLun
                 (entry (iscsi_StartDaemon false) None
                  :: flat_map (collision dev) fails
                     ++ entry (iscsi_AddLun (TargetID dev) TargetLunID (BackingFile dev)
                                 (BSType dev) (BSOpts dev)) x :: tl)
               = [(TargetID dev, x)]).
    { intros x tl HN. rewrite answers_cons. cbn [sel_AddLun].
      rewrite answers_app, answers_cons. cbn [sel_AddLun].
      rewrite (answers_flat_map_nil sel_AddLun (collision dev) fails) by (intros; reflexivity).
      rewrite HN. reflexivity. }
    answer h. destruct o as [e |]; run_cbn; [| answer h; destruct o as [e |]; run_cbn];
      rewrite HC by reflexivity;
      (split; [rewrite length_map; lia |]);
      (split;
       [ intros pre post tid HE; destruct (collisions_only fails pre post tid HE)
       | intros _ _; eexists; apply HU; reflexivity ]).
Qed.

(** C1, where the code departs from it.  Five allocators take the five
    candidate IDs between the lookup and the creation, so all
    [RetryCounts] creations fail.  [SetupTarget] still goes on to attach
    the LUN, on the ID the device had before the call.  For a new device
    (ID 0) it returns the error of [AddLun], not the last creation error;
    for a device whose stale ID 1 now names another allocator's target it
    attaches the LUN there and returns [nil]. *)
Theorem SetupTarget_exhausted_allocation :
  let dev := fst (NewScsiDevice "vol_a" "/var/lib/longhorn/a.img" "file" "") in
  let stale := set_TargetID 1 dev in
  let w := SimHost.with_targets SimHost.idle [] 5 in
  let r := run SimHost.handle (SetupTarget dev) w in
  let r1 := run SimHost.handle (SetupTarget stale) w in
  (map snd (answers sel_CreateTarget (trace r))
   = repeat (Some "tgtadm: this target already exists") RetryCounts
   /\ answers sel_AddLun (trace r) = [(0, Some "tgtadm: can't find the target")]
   /\ outcome r = Done (dev, Some "tgtadm: can't find the target"))
  /\
  (map snd (answers sel_CreateTarget (trace r1))
   = repeat (Some "tgtadm: this target already exists") RetryCounts
   /\ answers sel_AddLun (trace r1) = [(1, None)]
   /\ outcome r1 = Done (stale, None)
   /\ SimHost.lookup (Target stale) (final r1) = -1).
Proof. vm_compute. repeat split. Qed.

(** Two collisions, then a success: three attempts, and the device has
    the created ID. *)
Example SetupTarget_two_collisions :
  let dev := fst (NewScsiDevice "vol_a" "/var/lib/longhorn/a.img" "file" "") in
  let r := run SimHost.handle (SetupTarget dev) (SimHost.with_targets SimHost.idle [] 2) in
  map fst (answers sel_CreateTarget (trace r)) = [1; 2; 3]
  /\ outcome r = Done (set_TargetID 3 dev, None).
Proof. vm_compute. repeat split. Qed.

(** ** [StartScsi] *)

Section StartRun.

Context {W : Type}.
Variable h : Handler W.


End StartRun.

Lemma confirmations_failed_discovery (ip target : string) (ne : NamespaceExecutor)
      (fails : list (option error * option error)) :
  answers sel_IsTargetDiscovered (flat_map (failed_discovery ip target ne) fails)
  = repeat false (List.length fails).
Proof.
  rewrite <- map_const_repeat. apply answers_flat_map_one.
  intros [d [c |]]; reflexivity.
Qed.

Lemma logins_failed_discovery (ip target : string) (ne : NamespaceExecutor)
      (fails : list (option error * option error)) :
  answers sel_LoginTarget (flat_map (failed_discovery ip target ne) fails) = [].
Proof. apply answers_flat_map_nil. intros [d [c |]]; reflexivity. Qed.

Lemma repeat_false_no_true (k n : nat) (l : list bool) :
  repeat false k ++ true :: l <> repeat false n.
Proof.
  revert n; induction k as [| k IH]; intros [| n] HE; try discriminate HE.
  injection HE as HE. exact (IH n HE).
Qed.

(** What holds after an exhausted discovery in every environment: when
    [IsTargetDiscovered] answered false on all [RetryCounts] attempts,
    [StartScsi] has called [LoginTarget], once, and an error of the login
    is what it returns. *)
Lemma StartScsi_login_after_exhausted_discovery
    {W : Type} (h : Handler W) (w : W) (dev : ScsiDevice) :
  let r := run h (StartScsi dev) w in
  answers sel_IsTargetDiscovered (trace r) = repeat false RetryCounts ->
  exists x : option error,
    answers sel_LoginTarget (trace r) = [x]
    /\ forall e, x = Some e -> exists dev', outcome r = Done (dev', Some e).
Proof.
  intros r; subst r. unfold StartScsi, StartScsi_locked. run_cbn.
  answer h. answer h. destruct o as [e |]; run_cbn; [intros HQ; discriminate HQ |].
  rewrite ?run_bind_assoc. run_cbn.
  answer h. answer h. destruct p as [ne [e |]]; run_cbn;
    [answer h; intros HQ; discriminate HQ |].
  answer h. destruct o as [e |]; run_cbn;
    [answer h; intros HQ; discriminate HQ |].
  answer h. destruct p as [ip [e |]]; run_cbn;
    [answer h; intros HQ; discriminate HQ |].
  (* SetupTarget *)
  rewrite ?run_bind_assoc. rewrite run_bind.
  destruct (SetupTarget_footprint dev) as (_ & HQ1 & HR1).
  destruct (off_discovery_answers _ (quiet_trace h _ _ HQ1 w5)) as [HD1 HL1].
  destruct (returns_outcome h _ HR1 w5) as [[dev1 err1] HO1].
  destruct (run h (SetupTarget dev) w5) as [tr1 o1 w6].
  cbn [trace outcome final] in *; subst o1.
  destruct err1 as [e |]; run_cbn.
  { answer h. project. rewrite HD1. intros HQ; discriminate HQ. }
  (* discovery *)
  rewrite ?run_bind_assoc. rewrite run_bind.
  pose proof (StartScsi_discover_run h ip (Target dev1) ne RetryCounts w6 None) as HS.
  destruct (run h (StartScsi_discover RetryCounts ip (Target dev1) ne None) w6)
    as [tr2 o2 w7].
  destruct HS as [fails derr HL HT HO | fails HL HT HO];
    cbn [trace outcome final] in *; subst tr2 o2; run_cbn.
  { (* confirmed: some answer was true *)
    intros HQ. exfalso. revert HQ. project. rewrite HD1, confirmations_failed_discovery.
    cbn [app]. rewrite <- app_assoc. cbn [app]. apply repeat_false_no_true. }
  (* login *)
  answer h. destruct o as [e |]; run_cbn.
  { answer h. intros _. exists (Some e). split.
    - project. rewrite HL1, logins_failed_discovery. reflexivity.
    - intros e' HE. injection HE as <-. eexists; reflexivity. }
  intros _. exists None. split; [| intros e HE; discriminate HE].
  (* nothing after the login is a login *)
  answer h. destruct p as [path [e |]]; run_cbn.
  { answer h. project. rewrite HL1, logins_failed_discovery. reflexivity. }
  rewrite ?run_bind_assoc. rewrite run_bind.
  pose proof (off_discovery_answers _
                (quiet_trace h _ _
                   (StartScsi_waitDevice_footprint RetryCounts
                      (Device (set_Device path dev1))) w9)) as [_ HL3].
  pose proof (StartScsi_waitDevice_run h (Device (set_Device path dev1)) RetryCounts w9)
    as HWD.
  destruct (run h (StartScsi_waitDevice RetryCounts (Device (set_Device path dev1))) w9)
    as [tr3 o3 w10].
  destruct HWD as [misses st _ _ _ _ HO | misses _ _ _ HO];
    cbn [trace outcome final] in *; subst o3; run_cbn; answer h;
    project; rewrite HL1, logins_failed_discovery, HL3; reflexivity.
Qed.

(** C3, where the code departs from it.  Discovery fails on all
    [RetryCounts] attempts and the target is never discovered.
    [StartScsi] still calls [LoginTarget], and what it returns is the
    error of the login; the last discovery error was only logged. *)
Theorem StartScsi_exhausted_discovery :
  let dev := fst (NewScsiDevice "vol_a" "/var/lib/longhorn/a.img" "file" "") in
  let w := SimHost.mkHost [] O None [] 5 [] [] [] None O false in
  let r := run SimHost.handle (StartScsi dev) w in
  answers sel_DiscoverTarget (trace r)
  = repeat (Some "iscsiadm: No portals found") RetryCounts
  /\ answers sel_IsTargetDiscovered (trace r) = repeat false RetryCounts
  /\ answers sel_LoginTarget (trace r) = [Some "iscsiadm: No records found, exit status 21"]
  /\ outcome r = Done (set_TargetID 1 dev,
                       Some "iscsiadm: No records found, exit status 21").
Proof. vm_compute. repeat split. Qed.

(** C7: the discovery loop is left before the retry bound exactly on the
    attempt where [IsTargetDiscovered] answers true, whatever
    [DiscoverTarget] answered on that or on earlier attempts.  Every
    attempt after which the target is not discovered is followed by one
    cleanup pass, a log line that tells whether the cleanup failed, and a
    pause of [RetryIntervalSCSI]; nothing follows the attempt on which the
    target is discovered; and the loop never exits the process. *)
Theorem StartScsi_discover_outcomes
    {W : Type} (h : Handler W) (w : W) (ip target : string) (ne : NamespaceExecutor) :
  let r := run h (StartScsi_discover RetryCounts ip target ne None) w in
  exists fails : list (option error * option error),
    answers sel_CleanupScsiNodes (trace r) = map snd fails /\
    (((List.length fails < RetryCounts)%nat /\
      exists derr : option error,
        trace r = flat_map (failed_discovery ip target ne) fails
                  ++ [ entry (iscsi_DiscoverTarget ip target ne) derr;
                       entry (iscsi_IsTargetDiscovered ip target ne) true ] /\
        outcome r = Done derr)
     \/
     (List.length fails = RetryCounts /\
      trace r = flat_map (failed_discovery ip target ne) fails /\
      outcome r = Done (last (map fst fails) None))).
Proof.
  intros r; subst r.
  destruct (StartScsi_discover_run h ip target ne RetryCounts w None)
    as [fails derr HL HT HO | fails HL HT HO]; exists fails; split.
  - rewrite HT, answers_app, cleanups_failed_discovery. cbn. apply app_nil_r.
  - left. split; [assumption |]. exists derr. split; assumption.
  - rewrite HT. apply cleanups_failed_discovery.
  - right. repeat split; assumption.
Qed.

(** Discovery that takes on the third attempt: two cleanup passes, none
    after the attempt that confirmed the target, and [StartScsi] succeeds. *)
Example StartScsi_flaky_discovery :
  let dev := fst (NewScsiDevice "data_01" "/var/lib/longhorn/data01.img" "file" "") in
  let w := SimHost.mkHost [] O None [] 2 [] [] [] None O false in
  let r := run SimHost.handle (StartScsi dev) w in
  answers sel_IsTargetDiscovered (trace r) = [false; false; true]
  /\ answers sel_CleanupScsiNodes (trace r) = [None; None]
  /\ outcome r = Done (set_Device "/dev/sdb" (set_TargetID 1 dev), None).
Proof. vm_compute. repeat split. Qed.



(** ** [LogoutTarget] *)

Section Session.

Context {W : Type}.
Variable h : Handler W.
Variables (ip target : string) (ne : NamespaceExecutor).




End Session.


(** On the simulated host: a logout command that times out while the
    session goes away two polls later, and one whose session never goes. *)
Example LogoutTarget_timeout_example :
  let t := GetTargetName "vol_a" in
  let w k := SimHost.mkHost [] O None [t] O [] [t] [SimHost.LogoutTimeout k] None O false in
  let r2 := run SimHost.handle (LogoutTarget t) (w 2%nat) in
  let r9 := run SimHost.handle (LogoutTarget t) (w 9%nat) in
  answers sel_LogoutTarget (trace r2) = [Some "Timeout executing: iscsiadm -m node --logout"]
  /\ answers sel_IsTargetLoggedIn (trace r2) = [true; true; true; false]
  /\ outcome r2 = Done None
  /\ answers sel_LogoutTarget (trace r9) = [Some "Timeout executing: iscsiadm -m node --logout"]
  /\ answers sel_IsTargetLoggedIn (trace r9) = [true; true; true; true; true; true]
  /\ outcome r9 = Done (Some "Failed to logout target: Timeout executing: iscsiadm -m node --logout").
Proof. vm_compute. repeat split. Qed.




(** A deletion that fails once with a generic error and then succeeds;
    and [StopScsi] after [StartScsi], which leaves no target, no discovery
    record and no session behind. *)
Example LogoutTarget_record_retry :
  let t := GetTargetName "vol_a" in
  let w := SimHost.mkHost [] O None [t] O ["iscsiadm: iSCSI database failure"]
             [t] [] None O false in
  let r := run SimHost.handle (LogoutTarget t) w in
  answers sel_DeleteDiscoveredTarget (trace r)
  = [Some "iscsiadm: iSCSI database failure"; None]
  /\ answers sel_Sleep (trace r) = [RetryIntervalSCSI]
  /\ outcome r = Done None
  /\ SimHost.discovered (final r) = [].
Proof. vm_compute. repeat split. Qed.

Example StopScsi_after_StartScsi :
  let dev := fst (NewScsiDevice "vol_a" "/var/lib/longhorn/a.img" "file" "") in
  let r := run SimHost.handle
             (d <- StartScsi dev ;; StopScsi "vol_a" (TargetID (fst d)))%prog
             SimHost.idle in
  outcome r = Done None /\ final r = SimHost.idle.
Proof. vm_compute. repeat split. Qed.

(** ** [DeleteTarget] and [StopScsi] *)

(** C4: when the lookup finds a live target whose ID differs from the
    expected one, [DeleteTarget] logs at fatal level and the process exits
    with status 1; the lookup and the log line are its only calls, so no
    unbind, LUN delete, connection close or target delete is made. *)
Theorem DeleteTarget_mismatch_is_fatal
    {W : Type} (h : Handler W) (w : W) (target : string) (targetID tid : Z) :
  fst (h _ (iscsi_GetTargetTid target) w) = (tid, None) ->
  tid <> -1 ->
  tid <> targetID ->
  let r := run h (DeleteTarget target targetID) w in
  outcome r = Exited 1
  /\ trace r = [ entry (iscsi_GetTargetTid target) (tid, None);
                 entry (logrus_Log FatalLevel "BUG: Invalid TID %v found for %v"
                          [AInt tid; AStr target]) tt ]
  /\ existsb is_teardown (trace r) = false.
Proof.
  intros HT Habsent Hdiff r; subst r.
  unfold DeleteTarget; simpl.
  destruct (h _ (iscsi_GetTargetTid target) w) as [a w1]; simpl in HT; subst a; simpl.
  apply Z.eqb_neq in Habsent, Hdiff; rewrite Habsent, Hdiff; simpl.
  destruct (h _ (logrus_Log FatalLevel "BUG: Invalid TID %v found for %v"
                   [AInt tid; AStr target]) w1) as [[] w2]; simpl.
  repeat split.
Qed.

Lemma DeleteTarget_mismatch_is_fatal_witness :
  let w := SimHost.with_targets SimHost.idle [(2, GetTargetName "vol_a")] O in
  let r := run SimHost.handle (DeleteTarget (GetTargetName "vol_a") 1) w in
  outcome r = Exited 1 /\ existsb is_teardown (trace r) = false
  /\ SimHost.targets (final r) = [(2, GetTargetName "vol_a")].
Proof.
  intros w r.
  destruct (DeleteTarget_mismatch_is_fatal SimHost.handle w (GetTargetName "vol_a") 1 2)
    as (HO & _ & HT); [reflexivity | lia | lia |].
  split; [exact HO | split; [exact HT | reflexivity]].
Defined.

(** C6: when the lookup answers the [-1] sentinel without error,
    [DeleteTarget] returns [nil] and the lookup is its only call; and on a
    healthy host where the target is absent, [StopScsi] called twice in a
    row returns [nil] both times without any teardown step. *)
Theorem DeleteTarget_absent_is_noop
    {W : Type} (h : Handler W) (w : W) :
  (forall (target : string) (targetID : Z),
      fst (h _ (iscsi_GetTargetTid target) w) = (-1, None) ->
      let r := run h (DeleteTarget target targetID) w in
      outcome r = Done None
      /\ trace r = [entry (iscsi_GetTargetTid target) (-1, None)]
      /\ existsb is_teardown (trace r) = false)
  /\ (forall (volumeName : string) (targetID : Z),
         let r := run h (StopScsi_twice volumeName targetID) w in
         forallb host_ok_target_absent (trace r) = true ->
         outcome r = Done (None, None)
         /\ existsb is_teardown (trace r) = false).
Proof.
  split.
  - intros target targetID HT r; subst r.
    unfold DeleteTarget; simpl.
    destruct (h _ (iscsi_GetTargetTid target) w) as [a w1]; simpl in HT; subst a; simpl.
    repeat split.
  - intros volumeName targetID r H; subst r.
    unfold StopScsi_twice, StopScsi, LogoutTarget, DeleteTarget in *; simpl in H |- *.
    do 2 (step_in H h;                                   (* GetHostNamespacePath *)
          step_in H h; destruct o; [discriminate |]; simpl in H |- *;
          step_in H h;                                   (* GetHostNamespacePath *)
          step_in H h; destruct p as [? []]; [discriminate |]; simpl in H |- *;
          step_in H h; destruct p as [? []]; [discriminate |]; simpl in H |- *;
          step_in H h; destruct o; [discriminate |]; simpl in H |- *;
          step_in H h; destruct b; [discriminate |]; simpl in H |- *;
          step_in H h; destruct p as [? []]; simpl in H |- *;
          [match type of H with context [?t =? -1] => destruct (t =? -1) end;
           discriminate |];
          match type of H with context [?t =? -1] => destruct (t =? -1) end;
          [| discriminate]; simpl in H |- *;
          try step_in H h).                              (* Unlock *)
    split; reflexivity.
Qed.

Lemma DeleteTarget_absent_is_noop_witness :
  outcome (run SimHost.handle (DeleteTarget (GetTargetName "vol_a") 1) SimHost.idle)
  = Done None
  /\ outcome (run SimHost.handle (StopScsi_twice "vol_a" 1) SimHost.idle)
     = Done (None, None).
Proof.
  split.
  - apply (proj1 (DeleteTarget_absent_is_noop SimHost.handle SimHost.idle)
             (GetTargetName "vol_a") 1).
    reflexivity.
  - apply (proj2 (DeleteTarget_absent_is_noop SimHost.handle SimHost.idle) "vol_a" 1).
    reflexivity.
Defined.

(** C10: when the lookup of the target ID itself fails, [DeleteTarget]
    returns [nil] and the lookup is its only call; a run of [StopScsi]
    whose lookup failed returns [nil] without any teardown step. *)
Theorem DeleteTarget_lookup_error_is_success
    {W : Type} (h : Handler W) (w : W) :
  (forall (target : string) (targetID tid : Z) (e : error),
      fst (h _ (iscsi_GetTargetTid target) w) = (tid, Some e) ->
      let r := run h (DeleteTarget target targetID) w in
      outcome r = Done None
      /\ trace r = [entry (iscsi_GetTargetTid target) (tid, Some e)])
  /\ (forall (volumeName : string) (targetID tid : Z) (e : error),
         let r := run h (StopScsi volumeName targetID) w in
         answers sel_GetTargetTid (trace r) = [(tid, Some e)] ->
         outcome r = Done None
         /\ existsb is_teardown (trace r) = false).
Proof.
  split.
  - intros target targetID tid e HT r; subst r.
    unfold DeleteTarget; simpl.
    destruct (h _ (iscsi_GetTargetTid target) w) as [a w1]; simpl in HT; subst a; simpl.
    split; reflexivity.
  - intros volumeName targetID tid e r H; subst r.
    unfold StopScsi in *; run_cbn_in H.
    answer_in H h. answer_in H h.
    destruct o as [le |]; run_cbn_in H; [discriminate |].
    rewrite !run_bind_assoc in H |- *.
    rewrite run_bind in H |- *.
    destruct (LogoutTarget_initiator_side (GetTargetName volumeName)) as [HQ HR].
    pose proof (quiet_trace h _ _ HQ w1) as HF.
    destruct (returns_outcome h _ HR w1) as [a Ha].
    pose proof (forallb_answers_nil _ sel_GetTargetTid _ initiator_side_no_lookup HF) as HN.
    pose proof (forallb_existsb_false _ is_teardown _ initiator_side_no_teardown HF) as HE.
    destruct (run h (LogoutTarget (GetTargetName volumeName)) w1) as [trl ol wl].
    cbn [trace outcome final] in *; subst ol.
    destruct a as [e' |]; run_cbn_in H.
    + repeat rewrite ?answers_cons, ?answers_app in H.
      rewrite HN in H; simpl in H; discriminate.
    + unfold DeleteTarget in H |- *.
      rewrite !run_bind_assoc in H |- *; run_cbn_in H.
      answer_in H h. destruct p as [t o]; run_cbn_in H.
      repeat rewrite ?answers_cons, ?answers_app in H.
      rewrite HN in H.
      destruct o as [e'' |]; run_cbn_in H; simpl in H.
      * split; [reflexivity |].
        cbn [existsb is_teardown orb]; rewrite !existsb_app, HE; reflexivity.
      * injection H as _ H; discriminate.
Qed.

(** On the simulated host: the target stays live after a [StopScsi] that
    reported success. *)
Lemma DeleteTarget_lookup_error_is_success_witness :
  let w := SimHost.mkHost [(1, GetTargetName "vol_a")] O (Some "tgtadm: connection refused")
             [] O [] [] [] None O false in
  outcome (run SimHost.handle (DeleteTarget (GetTargetName "vol_a") 1) w) = Done None
  /\ outcome (run SimHost.handle (StopScsi "vol_a" 1) w) = Done None
  /\ SimHost.live 1 (final (run SimHost.handle (StopScsi "vol_a" 1) w)) = true.
Proof.
  intros w; split; [| split].
  - apply (proj1 (DeleteTarget_lookup_error_is_success SimHost.handle w)
             (GetTargetName "vol_a") 1 (-1) "tgtadm: connection refused").
    reflexivity.
  - apply (proj2 (DeleteTarget_lookup_error_is_success SimHost.handle w)
             "vol_a" 1 (-1) "tgtadm: connection refused").
    reflexivity.
  - reflexivity.
Defined.

(** * Further properties *)

(** ** What every run of a program satisfies *)

Section Always.

Context {W : Type}.
Variable h : Handler W.

Lemma always_run {R : Type} (p : Prog R) :
  forall (P : list Entry -> Outcome R -> Prop) (w : W),
    always P p -> P (trace (run h p w)) (outcome (run h p w)).
Proof.
  induction p as [a | c | X e k IH]; intros P w HA; cbn [always run trace outcome] in *;
    [exact HA | exact HA |].
  cbv zeta; cbn [trace outcome].
  apply (IH (fst (h X e w)) (fun tr o => P (entry e (fst (h X e w)) :: tr) o)), HA.
Qed.

End Always.

Lemma always_mono {R : Type} (p : Prog R) :
  forall P Q : list Entry -> Outcome R -> Prop,
    (forall tr o, P tr o -> Q tr o) -> always P p -> always Q p.
Proof.
  induction p as [a | c | X e k IH]; intros P Q HPQ HA; cbn [always] in *;
    [apply HPQ, HA | apply HPQ, HA |].
  intros x. eapply IH; [| apply HA]. intros tr o; apply HPQ.
Qed.

Lemma always_true {R : Type} (p : Prog R) :
  forall P : list Entry -> Outcome R -> Prop, (forall tr o, P tr o) -> always P p.
Proof.
  induction p as [a | c | X e k IH]; intros P HP; cbn [always]; [apply HP | apply HP |].
  intros x. apply IH. intros tr o; apply HP.
Qed.

Lemma always_and {R : Type} (p : Prog R) :
  forall P Q : list Entry -> Outcome R -> Prop,
    always P p -> always Q p -> always (fun tr o => P tr o /\ Q tr o) p.
Proof.
  induction p as [a | c | X e k IH]; intros P Q HP HQ; cbn [always] in *;
    [split; assumption | split; assumption |].
  intros x. apply (IH x (fun tr o => P (entry e x :: tr) o)
                        (fun tr o => Q (entry e x :: tr) o)); [apply HP | apply HQ].
Qed.

(** The rule for a composed program: what holds of the first part decides
    what is left to show of the second. *)
Lemma always_bind {A B : Type} (p : Prog A) (k : A -> Prog B) :
  forall (Q : list Entry -> Outcome A -> Prop) (P : list Entry -> Outcome B -> Prop),
    always Q p ->
    (forall tr a, Q tr (Done a) -> always (fun tr' o' => P (tr ++ tr') o') (k a)) ->
    (forall tr c, Q tr (Exited c) -> P tr (Exited c)) ->
    always P (bind p k).
Proof.
  induction p as [a | c | X e k' IH]; intros Q P HQ HD HE; cbn [always bind] in *.
  - exact (HD [] a HQ).
  - exact (HE [] c HQ).
  - intros x.
    apply (IH x (fun tr o => Q (entry e x :: tr) o) (fun tr o => P (entry e x :: tr) o));
      [apply HQ | intros tr a Ha; exact (HD _ a Ha) | intros tr c Hc; exact (HE _ c Hc)].
Qed.

Lemma quiet_always {R : Type} (Q : Entry -> bool) (p : Prog R) :
  quiet Q p -> always (fun tr _ => forallb Q tr = true) p.
Proof.
  induction p as [a | c | X e k IH]; intros Hq; cbn [always quiet] in *;
    [reflexivity | reflexivity |].
  intros x. destruct (Hq x) as [HQ Hk].
  eapply always_mono; [| apply IH, Hk].
  intros tr o HF. cbn [forallb]. rewrite HQ, HF. reflexivity.
Qed.

Lemma returns_always {R : Type} (p : Prog R) :
  returns p -> always (fun _ o => exists a, o = Done a) p.
Proof.
  induction p as [a | c | X e k IH]; intros Hr; cbn [always returns] in *;
    [exists a; reflexivity | contradiction |].
  intros x. apply IH, Hr.
Qed.

Lemma quiet_mono {R : Type} (Q Q' : Entry -> bool) (p : Prog R) :
  (forall en, Q en = true -> Q' en = true) -> quiet Q p -> quiet Q' p.
Proof.
  intros HQ; induction p as [a | c | X e k IH]; intros Hq; cbn [quiet] in *;
    [exact I | exact I |].
  intros x. destruct (Hq x) as [H1 H2]. split; [apply HQ, H1 | apply IH, H2].
Qed.

Lemma always_bind_assoc {A B C : Type} (p : Prog A) (f : A -> Prog B) (g : B -> Prog C) :
  forall P : list Entry -> Outcome C -> Prop,
    always P (bind p (fun a => bind (f a) g)) -> always P (bind (bind p f) g).
Proof.
  induction p as [a | c | X e k IH]; intros P HA; cbn [always bind] in *;
    [exact HA | exact HA |].
  intros x. apply IH, HA.
Qed.

(** One call of a program under [always]. *)
Ltac always_case x :=
  first [ is_var x; destruct x | destruct x eqn:? ].

Ltac always_step :=
  lazymatch goal with
  | |- forall _ : unit, _ => intros []
  | |- forall _, _ => intros ?
  | |- always _ (Ret _) => cbn [always]
  | |- always _ (Exit _) => cbn [always]
  | |- always _ (Vis _ _) => cbn [always]
  | |- always _ (match ?x with _ => _ end) => always_case x
  | |- always _ (bind (match ?x with _ => _ end) _) => always_case x
  | |- always _ (bind (bind _ _) _) => apply always_bind_assoc
  | |- always _ _ => progress cbn [bind call Infof Warnf Sleep Fatalf]
  end.

(** All calls up to the next loop or function. *)
Ltac always_steps := repeat always_step.

(** ** The calls of each function *)

Lemma SetupTarget_calls (dev : ScsiDevice) :
  quiet calls_SetupTarget (SetupTarget dev) /\ returns (SetupTarget dev).
Proof.
  assert (HA : forall n d,
             quiet calls_SetupTarget (SetupTarget_allocate n d)
             /\ returns (SetupTarget_allocate n d)).
  { induction n as [| n IH]; intros d; [split; exact I |].
    split; cbn [SetupTarget_allocate]; quiet_tac; apply IH. }
  split; unfold SetupTarget; quiet_tac; apply HA.
Qed.

Lemma DeleteTarget_closeAll_calls (tid : Z) (m : list (SessionID * list ConnectionID)) :
  quiet is_teardown (DeleteTarget_closeAll tid m) /\ returns (DeleteTarget_closeAll tid m).
Proof.
  assert (HS : forall sid l,
             quiet is_teardown (DeleteTarget_closeSession tid sid l)
             /\ returns (DeleteTarget_closeSession tid sid l)).
  { induction l as [| cid l IH]; [split; exact I |].
    split; cbn [DeleteTarget_closeSession]; quiet_tac; apply IH. }
  induction m as [| [sid l] m IH]; [split; exact I |].
  split; cbn [DeleteTarget_closeAll]; quiet_tac; try apply HS; apply IH.
Qed.

Lemma is_teardown_calls (en : Entry) : is_teardown en = true -> calls_DeleteTarget en = true.
Proof. unfold calls_DeleteTarget; intros ->; reflexivity. Qed.

Lemma DeleteTarget_calls (target : string) (targetID : Z) :
  quiet calls_DeleteTarget (DeleteTarget target targetID).
Proof.
  pose proof (fun tid m => quiet_mono _ _ _ is_teardown_calls
                             (proj1 (DeleteTarget_closeAll_calls tid m))) as HC.
  unfold DeleteTarget, Fatalf; quiet_tac; try exact I; apply HC.
Qed.

Lemma LogoutTarget_calls (target : string) :
  quiet calls_LogoutTarget (LogoutTarget target).
Proof.
  assert (HL : forall n ip ne err,
             quiet calls_LogoutTarget (LogoutTarget_logout n ip target ne err)).
  { induction n as [| n IH]; intros ip ne err; [exact I |].
    cbn [LogoutTarget_logout]; quiet_tac; apply IH. }
  assert (HW : forall n ip ne err,
             quiet calls_LogoutTarget (LogoutTarget_wait n ip target ne err)).
  { induction n as [| n IH]; intros ip ne err; [exact I |].
    cbn [LogoutTarget_wait]; quiet_tac; apply IH. }
  assert (HD : forall n ip ne err,
             quiet calls_LogoutTarget (LogoutTarget_delete n ip target ne err)).
  { induction n as [| n IH]; intros ip ne err; [exact I |].
    cbn [LogoutTarget_delete]; quiet_tac; apply IH. }
  unfold LogoutTarget, LogoutTarget_session; quiet_tac;
    try apply HL; try apply HW; try apply HD.
Qed.

(** ** The functions that take the lock *)

Lemma StartScsi_with_lock (dev : ScsiDevice) :
  StartScsi dev = with_lock (fun e => (dev, Some e)) (StartScsi_locked dev).
Proof. reflexivity. Qed.

Lemma StopScsi_with_lock (volumeName : string) (targetID : Z) :
  StopScsi volumeName targetID = with_lock Some (StopScsi_locked volumeName targetID).
Proof. reflexivity. Qed.

Lemma UpdateScsi_with_lock (dev : ScsiDevice) :
  UpdateScsi dev = with_lock (fun e => (dev, Some e)) (UpdateScsi_locked dev).
Proof. reflexivity. Qed.

Lemma with_lock_calls {R : Type} (Q : Entry -> bool) (refused : error -> R) (body : Prog R) :
  (forall en, is_lock en = true \/ is_check en = true -> Q en = true) ->
  quiet Q body -> quiet Q (with_lock refused body).
Proof.
  intros HL HB. unfold with_lock, call. cbn [bind quiet].
  intros ns; split; [apply HL; right; reflexivity |].
  intros [e |]; (split; [apply HL; left; reflexivity |]); [exact I |].
  apply quiet_bind; [exact HB |].
  intros a; cbn [bind quiet]. intros []; split; [apply HL; left; reflexivity | exact I].
Qed.

Lemma with_lock_use {R : Type} (refused : error -> R) (body : Prog R) :
  quiet not_lock body -> always (lock_use refused) (with_lock refused body).
Proof.
  intros HB. unfold with_lock, call. cbn [bind always].
  intros ns [e |].
  - eapply lock_refused; reflexivity.
  - apply always_bind with (Q := fun tr _ => forallb not_lock tr = true);
      [apply quiet_always, HB | |].
    + intros tr a HF. cbn [bind always]. intros [].
      apply lock_released with (ns := ns) (body := tr) (a := a);
        [exact HF | reflexivity | reflexivity].
    + intros tr c HF.
      apply lock_held_at_exit with (ns := ns) (body := tr) (c := c);
        [exact HF | reflexivity | reflexivity].
Qed.

(** A footprint that is part of another. *)
Ltac calls_incl :=
  let H := fresh in
  intros [? [] ?]; cbn; intros H; first [discriminate H | reflexivity].

Lemma StartScsi_locked_calls (dev : ScsiDevice) :
  quiet (fun en => not_lock en && calls_StartScsi en) (StartScsi_locked dev)
  /\ returns (StartScsi_locked dev).
Proof.
  assert (HD : forall n ip target ne err,
             quiet (fun en => not_lock en && calls_StartScsi en)
                   (StartScsi_discover n ip target ne err)
             /\ returns (StartScsi_discover n ip target ne err)).
  { induction n as [| n IH]; intros ip target ne err; [split; exact I |].
    split; cbn [StartScsi_discover]; quiet_tac; apply IH. }
  assert (HW : forall n path,
             quiet (fun en => not_lock en && calls_StartScsi en)
                   (StartScsi_waitDevice n path)
             /\ returns (StartScsi_waitDevice n path)).
  { induction n as [| n IH]; intros path; [split; exact I |].
    split; cbn [StartScsi_waitDevice]; quiet_tac; apply IH. }
  assert (HS : forall d,
             quiet (fun en => not_lock en && calls_StartScsi en) (SetupTarget d)).
  { intros d. apply quiet_mono with (Q := calls_SetupTarget);
      [calls_incl | apply SetupTarget_calls]. }
  split; unfold StartScsi_locked; quiet_tac;
    try apply HS; try apply SetupTarget_calls; try apply HD; try apply HW.
Qed.

Lemma StopScsi_locked_calls (volumeName : string) (targetID : Z) :
  quiet (fun en => not_lock en && calls_StopScsi en) (StopScsi_locked volumeName targetID).
Proof.
  unfold StopScsi_locked; quiet_tac.
  - apply quiet_mono with (Q := calls_LogoutTarget); [calls_incl | apply LogoutTarget_calls].
  - apply quiet_mono with (Q := calls_DeleteTarget); [calls_incl | apply DeleteTarget_calls].
Qed.

Lemma UpdateTarget_calls (dev : ScsiDevice) :
  quiet (fun en => calls_DeleteTarget en || calls_SetupTarget en) (UpdateTarget dev).
Proof.
  unfold UpdateTarget; quiet_tac.
  - apply quiet_mono with (Q := calls_DeleteTarget); [calls_incl | apply DeleteTarget_calls].
  - apply quiet_mono with (Q := calls_SetupTarget); [calls_incl | apply SetupTarget_calls].
Qed.

Lemma UpdateScsi_locked_calls (dev : ScsiDevice) :
  quiet (fun en => not_lock en && calls_UpdateScsi en) (UpdateScsi_locked dev).
Proof.
  unfold UpdateScsi_locked; quiet_tac.
  apply quiet_mono with (Q := fun en => calls_DeleteTarget en || calls_SetupTarget en);
    [calls_incl | apply UpdateTarget_calls].
Qed.

Lemma unlocked_not_lock (Q : Entry -> bool) (en : Entry) :
  not_lock en && Q en = true -> not_lock en = true.
Proof. intros H; apply andb_true_iff in H; apply H. Qed.

Lemma unlocked_calls (Q : Entry -> bool) (en : Entry) :
  not_lock en && Q en = true -> Q en = true.
Proof. intros H; apply andb_true_iff in H; apply H. Qed.

(** X1: the lock.  [StartScsi], [StopScsi] and [UpdateScsi] ask for the
    namespace path and take the lock before anything else.  When the lock
    is refused they return "Fail to lock: ..." and make no other call.
    When it is granted, no other lock call is made until the function
    ends; a function that returns has released the lock as its last call,
    and a function that ends the process has not released it. *)
Theorem lock_discipline
    {W : Type} (h : Handler W) (w : W) (dev : ScsiDevice) (volumeName : string)
    (targetID : Z) :
  let start := run h (StartScsi dev) w in
  let stop := run h (StopScsi volumeName targetID) w in
  let update := run h (UpdateScsi dev) w in
  lock_use (fun e => (dev, Some e)) (trace start) (outcome start)
  /\ lock_use Some (trace stop) (outcome stop)
  /\ lock_use (fun e => (dev, Some e)) (trace update) (outcome update).
Proof.
  cbv zeta. split; [| split]; apply always_run.
  - rewrite StartScsi_with_lock. apply with_lock_use.
    eapply quiet_mono; [apply unlocked_not_lock | apply StartScsi_locked_calls].
  - rewrite StopScsi_with_lock. apply with_lock_use.
    eapply quiet_mono; [apply unlocked_not_lock | apply StopScsi_locked_calls].
  - rewrite UpdateScsi_with_lock. apply with_lock_use.
    eapply quiet_mono; [apply unlocked_not_lock | apply UpdateScsi_locked_calls].
Qed.

(** X2: the calls of each function.  Whatever the environment answers,
    [SetupTarget] calls only the daemon start, the ID allocation, target
    creation, LUN attachment and initiator binding; [DeleteTarget] only the
    ID lookup and the teardown steps; [LogoutTarget] only the checks, the
    session query, the logout command and the discovery record;
    [StartScsi] only the lock, the checks, the calls of [SetupTarget] and
    discovery, login, device lookup and [os.Stat]; [StopScsi] only the lock
    and the calls of [LogoutTarget] and [DeleteTarget]; [UpdateScsi] only
    the lock, the checks, the calls of [DeleteTarget] and [SetupTarget]
    and the rescan.  Logging and sleeping apart, nothing else is called. *)
Theorem call_footprints
    {W : Type} (h : Handler W) (w : W) (dev : ScsiDevice) (target volumeName : string)
    (targetID : Z) :
  forallb calls_SetupTarget (trace (run h (SetupTarget dev) w)) = true
  /\ forallb calls_DeleteTarget (trace (run h (DeleteTarget target targetID) w)) = true
  /\ forallb calls_LogoutTarget (trace (run h (LogoutTarget target) w)) = true
  /\ forallb calls_StartScsi (trace (run h (StartScsi dev) w)) = true
  /\ forallb calls_StopScsi (trace (run h (StopScsi volumeName targetID) w)) = true
  /\ forallb calls_UpdateScsi (trace (run h (UpdateScsi dev) w)) = true.
Proof.
  repeat split; apply quiet_trace.
  - apply SetupTarget_calls.
  - apply DeleteTarget_calls.
  - apply LogoutTarget_calls.
  - rewrite StartScsi_with_lock. apply with_lock_calls;
      [intros [? [] ?] [H | H]; cbn in *; first [discriminate H | reflexivity] |].
    eapply quiet_mono; [apply unlocked_calls | apply StartScsi_locked_calls].
  - rewrite StopScsi_with_lock. apply with_lock_calls;
      [intros [? [] ?] [H | H]; cbn in *; first [discriminate H | reflexivity] |].
    eapply quiet_mono; [apply unlocked_calls | apply StopScsi_locked_calls].
  - rewrite UpdateScsi_with_lock. apply with_lock_calls;
      [intros [? [] ?] [H | H]; cbn in *; first [discriminate H | reflexivity] |].
    eapply quiet_mono; [apply unlocked_calls | apply UpdateScsi_locked_calls].
Qed.

(** X3: the checks come first.  [StartScsi] and [UpdateScsi] touch the
    target only after the lock was granted and the namespace executor, the
    initiator check and the host address were obtained, in this order:
    either the run consists of lock and check calls only and returns an
    error with the device as it was, or these calls all succeeded and the
    next call is the daemon start of [SetupTarget] (for [StartScsi]) or the
    ID lookup of [DeleteTarget] (for [UpdateScsi]). *)
Theorem checks_before_target
    {W : Type} (h : Handler W) (w : W) (dev : ScsiDevice) :
  let start := run h (StartScsi dev) w in
  let update := run h (UpdateScsi dev) w in
  preflight_run dev (iscsi_StartDaemon false) (trace start) (outcome start)
  /\ preflight_run dev (iscsi_GetTargetTid (Target dev)) (trace update) (outcome update).
Proof.
  cbv zeta. split; apply always_run.
  - unfold StartScsi, StartScsi_locked, SetupTarget.
    always_steps;
      first [ eapply preflight_failed; reflexivity
            | eapply preflight_passed; reflexivity
            | apply always_true; intros tr o'; eapply preflight_passed; reflexivity ].
  - unfold UpdateScsi, UpdateTarget, DeleteTarget.
    always_steps;
      first [ eapply preflight_failed; reflexivity
            | eapply preflight_passed; reflexivity
            | apply always_true; intros tr o'; eapply preflight_passed; reflexivity ].
Qed.

(** ** The device record *)

Ltac same_fields :=
  repeat match goal with
         | d : ScsiDevice |- _ =>
             let t := fresh "t" in let i := fresh "i" in let p := fresh "p" in
             let b := fresh "b" in let ty := fresh "ty" in let op := fresh "op" in
             destruct d as [t i p b ty op]
         end;
  unfold set_TargetID, set_Device in *;
  cbn [Target TargetID Device BackingFile BSType BSOpts] in *;
  congruence.

Lemma SetupTarget_allocate_record (n : nat) (dev : ScsiDevice) :
  always (fun _ o => match o with
                     | Done (inl d) => d = set_TargetID (TargetID d) dev
                     | Done (inr _) => True
                     | Exited _ => False
                     end)
         (SetupTarget_allocate n dev).
Proof.
  induction n as [| n IH]; cbn [SetupTarget_allocate]; always_steps;
    try exact I; try apply IH; same_fields.
Qed.

Lemma SetupTarget_record (dev : ScsiDevice) :
  always (fun _ o => match o with
                     | Done (d, _) => d = set_TargetID (TargetID d) dev
                     | Exited _ => False
                     end)
         (SetupTarget dev).
Proof.
  unfold SetupTarget; always_steps; [same_fields |].
  eapply always_bind; [apply SetupTarget_allocate_record | | intros tr c []].
  intros tr [d | e] H; cbn beta iota; always_steps; try assumption; same_fields.
Qed.

Lemma UpdateTarget_record (dev : ScsiDevice) :
  always (fun _ o => match o with
                     | Done (d, _) => d = set_TargetID (TargetID d) dev
                     | Exited _ => True
                     end)
         (UpdateTarget dev).
Proof.
  unfold UpdateTarget.
  eapply always_bind; [apply always_true with (P := fun _ _ => True); intros; exact I | |].
  - intros tr [e |] _; always_steps; [same_fields |].
    eapply always_mono; [| apply SetupTarget_record].
    intros tr' [[d err] | c] H; [exact H | exact I].
  - intros; exact I.
Qed.

Lemma with_lock_always {R : Type} (refused : error -> R) (body : Prog R)
      (Q P : list Entry -> Outcome R -> Prop) :
  always Q body ->
  (forall ns e,
      P [ entry (util_GetHostNamespacePath HostProc) ns;
          entry (lock_Lock (the_lock ns)) (Some e) ]
        (Done (refused (Errorf "Fail to lock: " e "")))) ->
  (forall ns tr a,
      Q tr (Done a) ->
      P (entry (util_GetHostNamespacePath HostProc) ns
         :: entry (lock_Lock (the_lock ns)) None
         :: tr ++ [entry (lock_Unlock (the_lock ns)) tt])
        (Done a)) ->
  (forall ns tr c,
      Q tr (Exited c) ->
      P (entry (util_GetHostNamespacePath HostProc) ns
         :: entry (lock_Lock (the_lock ns)) None :: tr)
        (Exited c)) ->
  always P (with_lock refused body).
Proof.
  intros HB HR HD HE. unfold with_lock, call. cbn [bind always].
  intros ns [e |]; [apply HR |].
  eapply always_bind; [exact HB | |].
  - intros tr a Ha. cbn [bind always]. intros []. apply HD, Ha.
  - intros tr c Hc. apply HE, Hc.
Qed.

Lemma UpdateScsi_locked_record (dev : ScsiDevice) :
  always (fun _ o => match o with
                     | Done (d, _) => d = set_TargetID (TargetID d) dev
                     | Exited _ => True
                     end)
         (UpdateScsi_locked dev).
Proof.
  unfold UpdateScsi_locked; always_steps; try same_fields.
  eapply always_bind; [apply UpdateTarget_record | | intros; exact I].
  intros tr [d [e |]] H; cbn beta iota; always_steps; assumption.
Qed.

Lemma StartScsi_locked_record (dev : ScsiDevice) :
  always (fun _ o => match o with
                     | Done (d, _) => d = set_Device (Device d) (set_TargetID (TargetID d) dev)
                     | Exited _ => True
                     end)
         (StartScsi_locked dev).
Proof.
  unfold StartScsi_locked; always_steps; try same_fields.
  eapply always_bind; [apply SetupTarget_record | | intros; exact I].
  intros tr [d [e |]] H; cbn beta iota; always_steps; [same_fields |].
  eapply always_bind;
    [apply always_true with (P := fun _ _ => True); intros; exact I | | intros; exact I].
  intros tr1 a _; always_steps; try same_fields.
  eapply always_bind;
    [apply always_true with (P := fun _ _ => True); intros; exact I | | intros; exact I].
  intros tr2 [|] _; always_steps; same_fields.
Qed.

(** X4: what the functions change in the device record.  [SetupTarget],
    [UpdateTarget] and [UpdateScsi] change nothing but [TargetID];
    [StartScsi] changes nothing but [TargetID] and [Device].  The target
    name, the backing file and the backing-store type and options are the
    same when the function returns, with or without an error. *)
Theorem device_record_preserved
    {W : Type} (h : Handler W) (w : W) (dev dev' : ScsiDevice) (err : option error) :
  (outcome (run h (SetupTarget dev) w) = Done (dev', err) ->
   dev' = set_TargetID (TargetID dev') dev)
  /\ (outcome (run h (UpdateTarget dev) w) = Done (dev', err) ->
      dev' = set_TargetID (TargetID dev') dev)
  /\ (outcome (run h (UpdateScsi dev) w) = Done (dev', err) ->
      dev' = set_TargetID (TargetID dev') dev)
  /\ (outcome (run h (StartScsi dev) w) = Done (dev', err) ->
      dev' = set_Device (Device dev') (set_TargetID (TargetID dev') dev)).
Proof.
  split; [| split; [| split]]; intros HO.
  - pose proof (always_run h _ _ w (SetupTarget_record dev)) as H.
    cbv beta in H. rewrite HO in H. exact H.
  - pose proof (always_run h _ _ w (UpdateTarget_record dev)) as H.
    cbv beta in H. rewrite HO in H. exact H.
  - assert (HA : always (fun _ o => match o with
                                    | Done (d, _) => d = set_TargetID (TargetID d) dev
                                    | Exited _ => True
                                    end) (UpdateScsi dev)).
    { rewrite UpdateScsi_with_lock.
      eapply with_lock_always; [apply UpdateScsi_locked_record | | |]; cbv beta;
        intros; try assumption; try exact I; same_fields. }
    pose proof (always_run h _ _ w HA) as H. cbv beta in H. rewrite HO in H. exact H.
  - assert (HA : always (fun _ o => match o with
                                    | Done (d, _) =>
                                        d = set_Device (Device d) (set_TargetID (TargetID d) dev)
                                    | Exited _ => True
                                    end) (StartScsi dev)).
    { rewrite StartScsi_with_lock.
      eapply with_lock_always; [apply StartScsi_locked_record | | |]; cbv beta;
        intros; try assumption; try exact I; same_fields. }
    pose proof (always_run h _ _ w HA) as H. cbv beta in H. rewrite HO in H. exact H.
Qed.

Lemma device_record_preserved_witness :
  let dev := fst (NewScsiDevice "vol_a" "/var/lib/longhorn/a.img" "file" "") in
  let dev1 := set_TargetID 1 dev in
  let dev2 := set_Device "/dev/sdb" dev1 in
  dev1 = set_TargetID (TargetID dev1) dev
  /\ dev2 = set_Device (Device dev2) (set_TargetID (TargetID dev2) dev).
Proof.
  intros dev dev1 dev2.
  pose proof (device_record_preserved SimHost.handle SimHost.idle dev dev1 None)
    as (H1 & H2 & H3 & _).
  pose proof (device_record_preserved SimHost.handle SimHost.idle dev dev2 None)
    as (_ & _ & _ & H4).
  pose proof (H2 eq_refl) as _. pose proof (H3 eq_refl) as _.
  split; [exact (H1 eq_refl) | exact (H4 eq_refl)].
Defined.

(** ** Errors *)

Lemma last_failure_cons (en : Entry) (tr : list Entry) (e : error) :
  last_failure tr = Some e -> last_failure (en :: tr) = Some e.
Proof.
  unfold last_failure. destruct tr as [| en' tr]; [discriminate |].
  cbn [map]. rewrite !last_cons. intros H; exact H.
Qed.

Lemma last_failure_app (tr tr' : list Entry) (e : error) :
  last_failure tr' = Some e -> last_failure (tr ++ tr') = Some e.
Proof.
  intros H; induction tr as [| en tr IH]; [exact H |].
  cbn [app]. apply last_failure_cons, IH.
Qed.

Ltac last_failure_shift :=
  rewrite ?app_nil_r;
  repeat match goal with
         | |- last_failure (_ :: ?t) = _ =>
             lazymatch t with
             | [] => fail
             | _ => apply last_failure_cons
             end
         | |- last_failure (_ ++ _) = _ => apply last_failure_app
         end.

(** ** [DeleteTarget] *)

Lemma DeleteTarget_closeSession_post (tid : Z) (sid : SessionID) (l : list ConnectionID) :
  always (fun tr o => match o with
                      | Done None => tr = map (closed tid) (map (pair sid) l)
                      | Done (Some e) => last_failure tr = Some e
                      | Exited _ => False
                      end)
         (DeleteTarget_closeSession tid sid l).
Proof.
  induction l as [| cid l IH]; cbn [DeleteTarget_closeSession]; always_steps;
    [reflexivity | reflexivity |].
  eapply always_mono; [| apply IH].
  intros tr [[e |] | c] H; [last_failure_shift; exact H | | exact H].
  cbn [map closed fst snd]. rewrite H. reflexivity.
Qed.

Lemma DeleteTarget_closeAll_post (tid : Z) (m : list (SessionID * list ConnectionID)) :
  always (fun tr o => match o with
                      | Done None => tr = map (closed tid) (connections m)
                      | Done (Some e) => last_failure tr = Some e
                      | Exited _ => False
                      end)
         (DeleteTarget_closeAll tid m).
Proof.
  induction m as [| [sid l] m IH]; cbn [DeleteTarget_closeAll]; [reflexivity |].
  eapply always_bind; [apply DeleteTarget_closeSession_post | | intros tr c []].
  intros tr [e |] H; cbn beta iota.
  - cbn [always]. rewrite app_nil_r. exact H.
  - eapply always_mono; [| apply IH].
    intros tr' [[e |] | c] H'; [last_failure_shift; exact H' | | exact H'].
    unfold connections in *. cbn [flat_map fst snd]. rewrite map_app, H, H'. reflexivity.
Qed.

Ltac eqb_facts :=
  repeat match goal with
         | H : negb _ = true |- _ => apply negb_true_iff in H
         | H : negb _ = false |- _ => apply negb_false_iff in H
         | H : (_ =? _) = true |- _ => apply Z.eqb_eq in H
         | H : (_ =? _) = false |- _ => apply Z.eqb_neq in H
         end.

Lemma DeleteTarget_always (target : string) (targetID : Z) :
  always (DeleteTarget_post target targetID) (DeleteTarget target targetID).
Proof.
  unfold DeleteTarget; always_steps; eqb_facts; subst; unfold DeleteTarget_post;
    try reflexivity.
  - eapply lookup_failed; reflexivity.
  - apply target_absent; reflexivity.
  - split; [reflexivity |]. exists [], z. repeat split; assumption.
  - eapply always_bind; [apply DeleteTarget_closeAll_post | | intros tr c []].
    intros tr [e |] H; cbn beta iota; always_steps.
    + last_failure_shift. exact H.
    + last_failure_shift. reflexivity.
    + apply torn_down with (m := l); [assumption |].
      unfold teardown. rewrite H. reflexivity.
Qed.

(** X5: [DeleteTarget] returns [nil] in three cases only: the ID lookup
    failed, the lookup answered the [-1] sentinel, or the lookup answered
    the expected ID and the complete teardown went through without an
    error, in this order: unbind all initiators, delete the LUN, list the
    connections, close every connection of every session, delete the
    target.  In the first two cases the lookup is the only call. *)
Theorem DeleteTarget_nil_means
    {W : Type} (h : Handler W) (w : W) (target : string) (targetID : Z) :
  let r := run h (DeleteTarget target targetID) w in
  outcome r = Done None -> deleted_run target targetID (trace r).
Proof.
  cbv zeta. intros HO.
  pose proof (always_run h _ _ w (DeleteTarget_always target targetID)) as H.
  unfold DeleteTarget_post in H. rewrite HO in H. exact H.
Qed.

(** On the simulated host with two sessions connected: the three
    connections are closed, session by session, before the target goes. *)
Lemma DeleteTarget_nil_means_witness :
  let t := GetTargetName "vol_a" in
  let m := [(1, [10; 11]); (2, [20])] in
  let w := SimHost.with_targets SimHost.idle [(1, t)] O in
  let r := run (connected m) (DeleteTarget t 1) w in
  deleted_run t 1 (trace r)
  /\ trace r = teardown t 1 m
  /\ connections m = [(1, 10); (1, 11); (2, 20)]
  /\ SimHost.targets (final r) = [].
Proof.
  intros t m w r. split; [| repeat split].
  apply (DeleteTarget_nil_means (connected m) w t 1). reflexivity.
Defined.

(** ** Errors and exits of the target side *)

Lemma fatal_mismatch_cons (target : string) (targetID : Z) (en : Entry) (tr : list Entry)
      (c : Z) :
  fatal_mismatch target targetID tr c -> fatal_mismatch target targetID (en :: tr) c.
Proof.
  intros (HC & pre & tid & H1 & H2 & HT). split; [exact HC |].
  exists (en :: pre), tid. rewrite HT. repeat split; assumption.
Qed.

Lemma fatal_mismatch_app (target : string) (targetID : Z) (tr tr' : list Entry) (c : Z) :
  fatal_mismatch target targetID tr' c -> fatal_mismatch target targetID (tr ++ tr') c.
Proof.
  intros H; induction tr as [| en tr IH]; [exact H |].
  cbn [app]. apply fatal_mismatch_cons, IH.
Qed.

Ltac fatal_shift :=
  repeat first [ apply fatal_mismatch_cons | apply fatal_mismatch_app ].

Lemma SetupTarget_allocate_failure (n : nat) (dev : ScsiDevice) :
  always (fun tr o => match o with
                      | Done (inr e) => last_failure tr = Some e
                      | Done (inl _) => True
                      | Exited _ => False
                      end)
         (SetupTarget_allocate n dev).
Proof.
  induction n as [| n IH]; cbn [SetupTarget_allocate]; always_steps;
    [exact I | reflexivity | | exact I].
  eapply always_mono; [| apply IH].
  intros tr [[d | e'] | c] H; [exact I | last_failure_shift; exact H | exact H].
Qed.

(** What holds of every run of [SetupTarget] and of [UpdateTarget]. *)
Lemma SetupTarget_failure (dev : ScsiDevice) :
  always (fun tr o => match o with
                      | Done (_, Some e) => last_failure tr = Some e
                      | Done (_, None) => True
                      | Exited _ => False
                      end)
         (SetupTarget dev).
Proof.
  unfold SetupTarget; always_steps; [reflexivity |].
  eapply always_bind; [apply SetupTarget_allocate_failure | | intros tr c []].
  intros tr [d | e] H; cbn beta iota; always_steps;
    try exact I; last_failure_shift; try reflexivity.
  exact H.
Qed.

Lemma UpdateTarget_failure (dev : ScsiDevice) :
  always (fun tr o => match o with
                      | Done (_, Some e) => last_failure tr = Some e
                      | Done (_, None) => True
                      | Exited c => fatal_mismatch (Target dev) (TargetID dev) tr c
                      end)
         (UpdateTarget dev).
Proof.
  unfold UpdateTarget.
  eapply always_bind; [apply DeleteTarget_always | | intros tr c H; exact H].
  intros tr [e |] H; unfold DeleteTarget_post in H; always_steps.
  - rewrite app_nil_r. exact H.
  - eapply always_mono; [| apply SetupTarget_failure].
    intros tr' [[d [e |]] | c] H'; [last_failure_shift; exact H' | exact I | destruct H'].
Qed.

(** X6: the failing step is the last one.  When [SetupTarget],
    [DeleteTarget] or [UpdateTarget] returns an error, that error is the
    answer of the last call the function made: the function stops at the
    first step that fails (a creation that collides apart, which is
    retried) and calls nothing afterwards, so what the earlier steps set
    up or tore down stays as it is. *)
Theorem failing_step_is_last
    {W : Type} (h : Handler W) (w : W) (dev dev' : ScsiDevice) (target : string)
    (targetID : Z) (e : error) :
  (outcome (run h (SetupTarget dev) w) = Done (dev', Some e) ->
   last_failure (trace (run h (SetupTarget dev) w)) = Some e)
  /\ (outcome (run h (DeleteTarget target targetID) w) = Done (Some e) ->
      last_failure (trace (run h (DeleteTarget target targetID) w)) = Some e)
  /\ (outcome (run h (UpdateTarget dev) w) = Done (dev', Some e) ->
      last_failure (trace (run h (UpdateTarget dev) w)) = Some e).
Proof.
  split; [| split]; intros HO.
  - pose proof (always_run h _ _ w (SetupTarget_failure dev)) as H.
    cbv beta in H. rewrite HO in H. exact H.
  - pose proof (always_run h _ _ w (DeleteTarget_always target targetID)) as H.
    unfold DeleteTarget_post in H. rewrite HO in H. exact H.
  - pose proof (always_run h _ _ w (UpdateTarget_failure dev)) as H.
    cbv beta in H. rewrite HO in H. exact H.
Qed.

(** On the simulated host.  With every candidate ID taken by another
    allocator, [SetupTarget] and [UpdateTarget] end on the failed
    [AddLun]; with a busy LUN, [DeleteTarget] ends on the failed
    [DeleteLun], after the initiators were unbound and with the target
    still live. *)
Lemma failing_step_is_last_witness :
  let dev := fst (NewScsiDevice "vol_a" "/var/lib/longhorn/a.img" "file" "") in
  let t := Target dev in
  let racing := SimHost.with_targets SimHost.idle [] 5 in
  let live := SimHost.with_targets SimHost.idle [(1, t)] O in
  last_failure (trace (run SimHost.handle (SetupTarget dev) racing))
  = Some "tgtadm: can't find the target"
  /\ last_failure (trace (run busy_lun (DeleteTarget t 1) live))
     = Some "tgtadm: this logical unit is busy"
  /\ last_failure (trace (run SimHost.handle (UpdateTarget dev) racing))
     = Some "tgtadm: can't find the target"
  /\ SimHost.live 1 (final (run busy_lun (DeleteTarget t 1) live)) = true.
Proof.
  intros dev t racing live.
  split; [| split; [| split]].
  - apply (proj1 (failing_step_is_last SimHost.handle racing dev dev t 1
                    "tgtadm: can't find the target")).
    reflexivity.
  - apply (proj1 (proj2 (failing_step_is_last busy_lun live dev dev t 1
                           "tgtadm: this logical unit is busy"))).
    reflexivity.
  - apply (proj2 (proj2 (failing_step_is_last SimHost.handle racing dev dev t 1
                           "tgtadm: can't find the target"))).
    reflexivity.
  - reflexivity.
Defined.

(** ** [StopScsi] *)

Lemma LogoutTarget_always (target : string) :
  always (fun tr o => forallb initiator_side tr = true
                      /\ forallb calls_LogoutTarget tr = true
                      /\ exists a, o = Done a)
         (LogoutTarget target).
Proof.
  destruct (LogoutTarget_initiator_side target) as [HQ HR].
  apply always_and; [apply quiet_always, HQ |].
  apply always_and; [apply quiet_always, LogoutTarget_calls | apply returns_always, HR].
Qed.

Lemma StopScsi_locked_run (volumeName : string) (targetID : Z) :
  always (stop_run (GetTargetName volumeName) targetID) (StopScsi_locked volumeName targetID).
Proof.
  unfold StopScsi_locked; cbv zeta.
  eapply always_bind;
    [apply LogoutTarget_always | | intros tr c (_ & _ & a & Ha); discriminate Ha].
  intros tr [e |] (HI & HC & _); always_steps.
  - rewrite app_nil_r. eapply stop_logout_failed; [exact HI | reflexivity].
  - eapply always_bind; [apply DeleteTarget_always | |].
    + intros tr' [e |] HD; unfold DeleteTarget_post in HD; always_steps; rewrite app_nil_r.
      * eapply stop_delete_failed; [exact HC | exact HD | reflexivity | reflexivity].
      * eapply stop_done; [exact HC | exact HD | reflexivity | reflexivity].
    + intros tr' c HD. eapply stop_fatal; [| reflexivity].
      apply fatal_mismatch_app, HD.
Qed.

Ltac other_message H :=
  injection H as H; unfold Errorf in H; cbn [append] in H; discriminate H.

Lemma StopScsi_always (volumeName : string) (targetID : Z) :
  always (stop_outcomes (GetTargetName volumeName) targetID) (StopScsi volumeName targetID).
Proof.
  rewrite StopScsi_with_lock.
  eapply with_lock_always; [apply StopScsi_locked_run | | |]; unfold stop_outcomes.
  - intros ns e. split; [| split].
    + intros e' H. other_message H.
    + intros H; discriminate H.
    + intros msg H. injection H as <-. exists e. left; reflexivity.
  - intros ns tr a [e HI HO | out del e HC HD HT HO | out del HC HD HT HO | c HF HO];
      try discriminate HO; injection HO as HO; subst a; (split; [| split]).
    + intros e' _. split.
      * rewrite !answers_cons; cbn [sel_GetTargetTid]. rewrite answers_app.
        rewrite (forallb_answers_nil _ sel_GetTargetTid _ initiator_side_no_lookup HI).
        reflexivity.
      * cbn [existsb is_teardown orb]. rewrite existsb_app.
        rewrite (forallb_existsb_false _ is_teardown _ initiator_side_no_teardown HI).
        reflexivity.
    + intros H; discriminate H.
    + intros msg H. injection H as <-. exists e. right; left; reflexivity.
    + intros e' H. other_message H.
    + intros H; discriminate H.
    + intros msg H. injection H as <-. exists e. right; right; reflexivity.
    + intros e' H; discriminate H.
    + intros _. exists ns, out, del. subst tr. rewrite <- app_assoc.
      repeat split; assumption.
    + intros msg H; discriminate H.
  - intros ns tr c _. split; [| split]; intros; discriminate.
Qed.

(** X7: the ways [StopScsi] ends.  An error it returns is one of "Fail to
    lock: ...", "Fail to logout target: ..." and "Fail to delete target:
    ...".  When the logout failed, the target was not looked up and no
    teardown step was made: the target stays as it is.  When [StopScsi]
    returns [nil], the calls between taking and releasing the lock are
    those of [LogoutTarget] followed by a run of [DeleteTarget] in which
    the lookup failed, the target was absent, or the complete teardown
    went through. *)
Theorem StopScsi_outcomes
    {W : Type} (h : Handler W) (w : W) (volumeName : string) (targetID : Z) :
  let r := run h (StopScsi volumeName targetID) w in
  let target := GetTargetName volumeName in
  (forall e : error,
      outcome r = Done (Some (Errorf "Fail to logout target: " e "")) ->
      answers sel_GetTargetTid (trace r) = [] /\ existsb is_teardown (trace r) = false)
  /\ (outcome r = Done None ->
      exists (ns : string) (out del : list Entry),
        trace r = entry (util_GetHostNamespacePath HostProc) ns
                  :: entry (lock_Lock (the_lock ns)) None
                  :: out ++ del ++ [entry (lock_Unlock (the_lock ns)) tt]
        /\ forallb calls_LogoutTarget out = true
        /\ deleted_run target targetID del)
  /\ (forall msg : error,
         outcome r = Done (Some msg) ->
         exists e : error,
           msg = Errorf "Fail to lock: " e ""
           \/ msg = Errorf "Fail to logout target: " e ""
           \/ msg = Errorf "Fail to delete target: " e "").
Proof.
  cbv zeta. exact (always_run h _ _ w (StopScsi_always volumeName targetID)).
Qed.

(** On the simulated host: a logout command that keeps failing, and a
    target without a session. *)
Lemma StopScsi_outcomes_witness :
  let t := GetTargetName "vol_a" in
  let e := "iscsiadm: Could not logout of all requested sessions" in
  let stuck := SimHost.mkHost [(1, t)] O None [t] O [] [t]
                 (repeat (SimHost.LogoutError e) 5) None O false in
  let live := SimHost.with_targets SimHost.idle [(1, t)] O in
  let r1 := run SimHost.handle (StopScsi "vol_a" 1) stuck in
  let r2 := run SimHost.handle (StopScsi "vol_a" 1) live in
  (answers sel_GetTargetTid (trace r1) = [] /\ existsb is_teardown (trace r1) = false)
  /\ SimHost.live 1 (final r1) = true
  /\ (exists (ns : string) (out del : list Entry),
         trace r2 = entry (util_GetHostNamespacePath HostProc) ns
                    :: entry (lock_Lock (the_lock ns)) None
                    :: out ++ del ++ [entry (lock_Unlock (the_lock ns)) tt]
         /\ forallb calls_LogoutTarget out = true
         /\ deleted_run t 1 del)
  /\ SimHost.live 1 (final r2) = false
  /\ (exists e' : error,
         Errorf "Fail to logout target: " (Errorf "Failed to logout target: " e "") ""
         = Errorf "Fail to lock: " e' ""
         \/ Errorf "Fail to logout target: " (Errorf "Failed to logout target: " e "") ""
            = Errorf "Fail to logout target: " e' ""
         \/ Errorf "Fail to logout target: " (Errorf "Failed to logout target: " e "") ""
            = Errorf "Fail to delete target: " e' "").
Proof.
  intros t e stuck live r1 r2.
  destruct (StopScsi_outcomes SimHost.handle stuck "vol_a" 1) as (H1 & _ & H3).
  destruct (StopScsi_outcomes SimHost.handle live "vol_a" 1) as (_ & H2 & _).
  split; [apply (H1 (Errorf "Failed to logout target: " e "")); reflexivity |].
  split; [reflexivity |].
  split; [apply H2; reflexivity |].
  split; [reflexivity |].
  apply H3. reflexivity.
Defined.

(** ** Ending the process *)

Lemma UpdateScsi_locked_exit (dev : ScsiDevice) :
  always (fun tr o => match o with
                      | Done _ => True
                      | Exited c => fatal_mismatch (Target dev) (TargetID dev) tr c
                      end)
         (UpdateScsi_locked dev).
Proof.
  unfold UpdateScsi_locked; always_steps; try exact I.
  eapply always_bind; [apply UpdateTarget_failure | |].
  - intros tr [d [e |]] _; cbn beta iota; always_steps; exact I.
  - intros tr c H. fatal_shift. exact H.
Qed.

Lemma with_lock_returns {R : Type} (refused : error -> R) (body : Prog R) :
  returns body -> always (fun _ o => exists a, o = Done a) (with_lock refused body).
Proof.
  intros HR.
  eapply with_lock_always; [apply returns_always, HR | | |]; cbv beta.
  - intros; eexists; reflexivity.
  - intros; eexists; reflexivity.
  - intros ns tr c [a Ha]; discriminate Ha.
Qed.

(** X8: the process is ended in one case only.  [DeleteTarget], and with
    it [UpdateTarget], [StopScsi] and [UpdateScsi], end the process only
    with status 1, and only right after a fatal log line that follows a
    lookup which found the target under an ID that is neither [-1] nor the
    expected one.  [SetupTarget], [LogoutTarget] and [StartScsi] never end
    the process. *)
Theorem exits_only_on_mismatch
    {W : Type} (h : Handler W) (w : W) (dev : ScsiDevice) (target volumeName : string)
    (targetID c : Z) :
  (outcome (run h (DeleteTarget target targetID) w) = Exited c ->
   fatal_mismatch target targetID (trace (run h (DeleteTarget target targetID) w)) c)
  /\ (outcome (run h (UpdateTarget dev) w) = Exited c ->
      fatal_mismatch (Target dev) (TargetID dev) (trace (run h (UpdateTarget dev) w)) c)
  /\ (outcome (run h (StopScsi volumeName targetID) w) = Exited c ->
      fatal_mismatch (GetTargetName volumeName) targetID
                     (trace (run h (StopScsi volumeName targetID) w)) c)
  /\ (outcome (run h (UpdateScsi dev) w) = Exited c ->
      fatal_mismatch (Target dev) (TargetID dev) (trace (run h (UpdateScsi dev) w)) c)
  /\ outcome (run h (SetupTarget dev) w) <> Exited c
  /\ outcome (run h (LogoutTarget target) w) <> Exited c
  /\ outcome (run h (StartScsi dev) w) <> Exited c.
Proof.
  split; [| split; [| split; [| split; [| split; [| split]]]]].
  - intros HO.
    pose proof (always_run h _ _ w (DeleteTarget_always target targetID)) as H.
    unfold DeleteTarget_post in H. rewrite HO in H. exact H.
  - intros HO.
    pose proof (always_run h _ _ w (UpdateTarget_failure dev)) as H.
    cbv beta in H. rewrite HO in H. exact H.
  - intros HO.
    assert (HA : always (fun tr o => match o with
                                     | Done _ => True
                                     | Exited c =>
                                         fatal_mismatch (GetTargetName volumeName) targetID tr c
                                     end) (StopScsi volumeName targetID)).
    { rewrite StopScsi_with_lock.
      eapply with_lock_always; [apply StopScsi_locked_run | | |]; cbv beta;
        [intros; exact I | intros; exact I |].
      intros ns tr c' [e HI H | out del e HC HD HT H | out del HC HD HT H | c'' HF H];
        try discriminate H.
      injection H as <-. fatal_shift. exact HF. }
    pose proof (always_run h _ _ w HA) as H. cbv beta in H. rewrite HO in H. exact H.
  - intros HO.
    assert (HA : always (fun tr o => match o with
                                     | Done _ => True
                                     | Exited c =>
                                         fatal_mismatch (Target dev) (TargetID dev) tr c
                                     end) (UpdateScsi dev)).
    { rewrite UpdateScsi_with_lock.
      eapply with_lock_always; [apply UpdateScsi_locked_exit | | |]; cbv beta;
        [intros; exact I | intros; exact I |].
      intros ns tr c' H. fatal_shift. exact H. }
    pose proof (always_run h _ _ w HA) as H. cbv beta in H. rewrite HO in H. exact H.
  - intros HO.
    pose proof (always_run h _ _ w (SetupTarget_failure dev)) as H.
    cbv beta in H. rewrite HO in H. exact H.
  - intros HO.
    pose proof (always_run h _ _ w (LogoutTarget_always target)) as (_ & _ & a & H).
    rewrite HO in H. discriminate H.
  - intros HO.
    assert (HA : always (fun _ o => exists a, o = Done a) (StartScsi dev)).
    { rewrite StartScsi_with_lock. apply with_lock_returns, StartScsi_locked_calls. }
    pose proof (always_run h _ _ w HA) as [a H]. rewrite HO in H. discriminate H.
Qed.

(** On the simulated host, where the target is live under ID 2 and ID 1
    is expected. *)
Lemma exits_only_on_mismatch_witness :
  let dev := set_TargetID 1 (fst (NewScsiDevice "vol_a" "/var/lib/longhorn/a.img" "file" "")) in
  let t := Target dev in
  let w := SimHost.with_targets SimHost.idle [(2, t)] O in
  fatal_mismatch t 1 (trace (run SimHost.handle (DeleteTarget t 1) w)) 1
  /\ fatal_mismatch t 1 (trace (run SimHost.handle (UpdateTarget dev) w)) 1
  /\ fatal_mismatch t 1 (trace (run SimHost.handle (StopScsi "vol_a" 1) w)) 1
  /\ fatal_mismatch t 1 (trace (run SimHost.handle (UpdateScsi dev) w)) 1.
Proof.
  intros dev t w.
  destruct (exits_only_on_mismatch SimHost.handle w dev t "vol_a" 1 1)
    as (H1 & H2 & H3 & H4 & _).
  split; [apply H1; reflexivity |].
  split; [apply H2; reflexivity |].
  split; [apply H3; reflexivity | apply H4; reflexivity].
Defined.

(** ** [UpdateTarget] and [UpdateScsi] *)

Lemma UpdateTarget_halves (dev : ScsiDevice) :
  always (fun tr _ => teardown_then_setup dev tr) (UpdateTarget dev).
Proof.
  unfold UpdateTarget.
  eapply always_bind;
    [apply always_and;
     [apply DeleteTarget_always | apply quiet_always, DeleteTarget_calls] | |].
  - intros tr [e |] [HD HC]; unfold DeleteTarget_post in HD; always_steps.
    + exists tr, []. repeat split; [exact HC | left; reflexivity].
    + eapply always_mono; [| apply quiet_always, SetupTarget_calls].
      intros tr' o HS. exists tr, tr'. repeat split; [exact HC | exact HS | right; exact HD].
  - intros tr c [_ HC]. exists tr, []. rewrite app_nil_r.
    repeat split; [exact HC | left; reflexivity].
Qed.

(** X9: [UpdateTarget] tears down, then sets up.  The calls of a run of
    [UpdateTarget] are calls of [DeleteTarget] followed by calls of
    [SetupTarget], and [SetupTarget] is entered only when [DeleteTarget]
    returned [nil], that is when the lookup failed, the target was absent
    or the complete teardown went through. *)
Theorem UpdateTarget_teardown_then_setup
    {W : Type} (h : Handler W) (w : W) (dev : ScsiDevice) :
  teardown_then_setup dev (trace (run h (UpdateTarget dev) w)).
Proof. exact (always_run h _ _ w (UpdateTarget_halves dev)). Qed.

Lemma no_rescan (Q : Entry -> bool) (tr : list Entry) :
  (forall en, Q en = true -> sel_RescanTarget en = None) ->
  forallb Q tr = true -> answers sel_RescanTarget tr = [].
Proof. apply forallb_answers_nil. Qed.

Lemma UpdateTarget_no_rescan (en : Entry) :
  calls_DeleteTarget en || calls_SetupTarget en = true -> sel_RescanTarget en = None.
Proof. destruct en as [X [] x]; cbn; intros H; first [discriminate H | reflexivity]. Qed.

Lemma UpdateScsi_locked_rescan (dev : ScsiDevice) :
  always (rescan_use_locked dev) (UpdateScsi_locked dev).
Proof.
  unfold UpdateScsi_locked; always_steps;
    try (apply rescan_not_reached_locked; [reflexivity | intros d H; discriminate H]).
  eapply always_bind;
    [apply always_and;
     [apply UpdateTarget_record | apply quiet_always, UpdateTarget_calls] | |].
  - intros tr [d [e |]] [HR HC]; cbn beta iota; always_steps;
      pose proof (no_rescan _ _ UpdateTarget_no_rescan HC) as HN.
    + apply rescan_not_reached_locked; [| intros d' H; discriminate H].
      rewrite !answers_cons; cbn [sel_RescanTarget]. rewrite answers_app, HN. reflexivity.
    + assert (HT : Target d = Target dev) by (rewrite HR; reflexivity).
      rewrite HT.
      eapply rescan_last_locked with
        (pre := entry (util_GetHostNamespacePath HostProc) x
                :: entry (util_NewNamespaceExecutor x) (n, None)
                :: entry (iscsi_CheckForInitiatorExistence n) None
                :: entry util_GetIPToHost (s, None) :: tr);
        [| reflexivity | reflexivity].
      rewrite !answers_cons; cbn [sel_RescanTarget]. exact HN.
    + assert (HT : Target d = Target dev) by (rewrite HR; reflexivity).
      rewrite HT.
      eapply rescan_last_locked with
        (pre := entry (util_GetHostNamespacePath HostProc) x
                :: entry (util_NewNamespaceExecutor x) (n, None)
                :: entry (iscsi_CheckForInitiatorExistence n) None
                :: entry util_GetIPToHost (s, None) :: tr);
        [| reflexivity | reflexivity].
      rewrite !answers_cons; cbn [sel_RescanTarget]. exact HN.
  - intros tr c [_ HC].
    pose proof (no_rescan _ _ UpdateTarget_no_rescan HC) as HN.
    apply rescan_not_reached_locked; [| intros d' H; discriminate H].
    rewrite !answers_cons; cbn [sel_RescanTarget]. exact HN.
Qed.

(** X10: the rescan of [UpdateScsi].  [UpdateScsi] asks the initiator to
    rescan at most once, for [dev.Target], and only as its last call before
    the lock is released; what the rescan answers is then what [UpdateScsi]
    returns.  When the rescan was not reached (the lock, a check or
    [UpdateTarget] failed, or the process was ended), [UpdateScsi] has not
    returned [nil]. *)
Theorem UpdateScsi_rescan
    {W : Type} (h : Handler W) (w : W) (dev : ScsiDevice) :
  let r := run h (UpdateScsi dev) w in
  rescan_use dev (trace r) (outcome r).
Proof.
  cbv zeta. apply always_run. rewrite UpdateScsi_with_lock.
  eapply with_lock_always; [apply UpdateScsi_locked_rescan | | |].
  - intros ns e. apply rescan_not_reached; [reflexivity | intros d H; discriminate H].
  - intros ns tr a [HN HO | dev' x pre ip ne HN HT HO].
    + apply rescan_not_reached; [| exact HO].
      rewrite !answers_cons; cbn [sel_RescanTarget]. rewrite answers_app, HN. reflexivity.
    + subst tr. eapply rescan_last with
        (pre := entry (util_GetHostNamespacePath HostProc) ns
                :: entry (lock_Lock (the_lock ns)) None :: pre);
        [| rewrite <- app_assoc; reflexivity | exact HO].
      rewrite !answers_cons; cbn [sel_RescanTarget]. exact HN.
  - intros ns tr c [HN HO | dev' x pre ip ne HN HT HO]; [| discriminate HO].
    apply rescan_not_reached; [| exact HO].
    rewrite !answers_cons; cbn [sel_RescanTarget]. exact HN.
Qed.

(** ** Names *)

Lemma each_underscore_to_colon_normal (s : string) :
  no_underscore (each_underscore_to_colon s) = true
  /\ String.length (each_underscore_to_colon s) = String.length s
  /\ (no_underscore s = true -> each_underscore_to_colon s = s).
Proof.
  induction s as [| c s (IH1 & IH2 & IH3)]; [repeat split |].
  cbn [each_underscore_to_colon no_underscore String.length]. unfold underscore_to_colon.
  destruct (Ascii.eqb c "_") eqn:E; cbn [negb andb].
  - repeat split; [exact IH1 | rewrite IH2; reflexivity | discriminate].
  - rewrite E. cbn [negb andb].
    repeat split; [exact IH1 | rewrite IH2; reflexivity |].
    intros H. rewrite (IH3 H). reflexivity.
Qed.

(** X11: the name that [Volume2ISCSIName] returns contains no ['_'] and is
    as long as the volume name; a name without ['_'] is returned as it is,
    and so converting twice is the same as converting once. *)
Theorem Volume2ISCSIName_normal_form (name : string) :
  no_underscore (Volume2ISCSIName name) = true
  /\ String.length (Volume2ISCSIName name) = String.length name
  /\ (no_underscore name = true -> Volume2ISCSIName name = name)
  /\ Volume2ISCSIName (Volume2ISCSIName name) = Volume2ISCSIName name.
Proof.
  rewrite !Volume2ISCSIName_each.
  destruct (each_underscore_to_colon_normal name) as (H1 & H2 & H3).
  repeat split; [exact H1 | exact H2 | exact H3 |].
  apply each_underscore_to_colon_normal, H1.
Qed.

Lemma Volume2ISCSIName_normal_form_witness :
  no_underscore (Volume2ISCSIName "pvc_data_01") = true
  /\ Volume2ISCSIName "pvc-data-01" = "pvc-data-01".
Proof.
  split.
  - exact (proj1 (Volume2ISCSIName_normal_form "pvc_data_01")).
  - apply (proj1 (proj2 (proj2 (Volume2ISCSIName_normal_form "pvc-data-01")))).
    reflexivity.
Defined.

(** ** The allocation of [SetupTarget] *)

Ltac answers_push :=
  repeat first [ rewrite answers_cons | rewrite answers_app | rewrite answers_nil ];
  cbn [sel_CreateTarget sel_Sleep sel_candidate sel_AddLun sel_RescanTarget
       sel_GetTargetTid fst snd];
  rewrite ?app_nil_r.

Lemma SetupTarget_allocate_paced (n : nat) (dev : ScsiDevice) :
  always (fun tr _ => paced tr) (SetupTarget_allocate n dev).
Proof.
  induction n as [| n IH]; cbn [SetupTarget_allocate]; always_steps;
    try (split; reflexivity).
  eapply always_mono; [| apply IH].
  intros tr o [H1 H2]. unfold paced. answers_push.
  cbn [map filter collided snd fst List.length repeat]. rewrite H1, H2. split; reflexivity.
Qed.

Lemma SetupTarget_paced (dev : ScsiDevice) :
  always (fun tr _ => paced tr) (SetupTarget dev).
Proof.
  unfold SetupTarget; always_steps; [split; reflexivity |].
  eapply always_bind; [apply SetupTarget_allocate_paced | | intros tr c H; exact H].
  intros tr [d | e] [H1 H2]; cbn beta iota; always_steps;
    unfold paced; answers_push; (split; [exact H1 | exact H2]).
Qed.

(** X12: the allocation of a target ID.  [SetupTarget] makes at most
    [RetryCounts] creation attempts; the IDs it tries are the candidates
    that [FindNextAvailableTargetID] answered, each tried once and in
    order; after every failed creation, and at no other point, it pauses
    for [RetryIntervalTargetID]; a creation that succeeds is the last
    attempt, every attempt before it failed, and the created ID is in
    [dev.TargetID] when the function returns. *)
Theorem SetupTarget_allocation_attempts
    {W : Type} (h : Handler W) (w : W) (dev : ScsiDevice) :
  let r := run h (SetupTarget dev) w in
  let creations := answers sel_CreateTarget (trace r) in
  (List.length creations <= RetryCounts)%nat
  /\ map fst creations = answers sel_candidate (trace r)
  /\ answers sel_Sleep (trace r)
     = repeat RetryIntervalTargetID (List.length (filter collided creations))
  /\ (forall (pre post : list (Z * option error)) (tid : Z),
         creations = pre ++ (tid, None) :: post ->
         post = [] /\ forallb collided pre = true
         /\ exists err, outcome r = Done (set_TargetID tid dev, err)).
Proof.
  cbv zeta.
  destruct (SetupTarget_allocation_outcomes h w dev) as (HL & HS & _).
  destruct (always_run h _ _ w (SetupTarget_paced dev)) as [H1 H2].
  split; [exact HL | split; [exact H1 | split; [exact H2 | exact HS]]].
Qed.

(** On the simulated host, two allocators taking the first two
    candidates. *)
Lemma SetupTarget_allocation_attempts_witness :
  let dev := fst (NewScsiDevice "vol_a" "/var/lib/longhorn/a.img" "file" "") in
  let r := run SimHost.handle (SetupTarget dev) (SimHost.with_targets SimHost.idle [] 2) in
  answers sel_candidate (trace r) = [1; 2; 3]
  /\ answers sel_Sleep (trace r) = [RetryIntervalTargetID; RetryIntervalTargetID]
  /\ exists err, outcome r = Done (set_TargetID 3 dev, err).
Proof.
  intros dev r. subst r.
  destruct (SetupTarget_allocation_attempts
              SimHost.handle (SimHost.with_targets SimHost.idle [] 2) dev)
    as (_ & H1 & H2 & H3).
  split; [rewrite <- H1; reflexivity |].
  split; [rewrite H2; reflexivity |].
  apply (H3 [(1, Some "tgtadm: this target already exists");
             (2, Some "tgtadm: this target already exists")] [] 3).
  reflexivity.
Defined.

(** ** Waiting *)

Lemma total_sleep_cons (en : Entry) (tr : list Entry) :
  total_sleep (en :: tr)
  = match sel_Sleep en with Some d => d | None => 0 end + total_sleep tr.
Proof.
  unfold total_sleep. rewrite answers_cons.
  destruct (sel_Sleep en); [reflexivity | symmetry; apply Z.add_0_l].
Qed.

Lemma total_sleep_app (tr tr' : list Entry) :
  total_sleep (tr ++ tr') = total_sleep tr + total_sleep tr'.
Proof.
  induction tr as [| en tr IH]; [symmetry; apply Z.add_0_l |].
  cbn [app]. rewrite !total_sleep_cons, IH. apply Z.add_assoc.
Qed.

Lemma total_sleep_nil : total_sleep [] = 0.
Proof. reflexivity. Qed.

Lemma total_sleep_none (Q : Entry -> bool) (tr : list Entry) :
  (forall en, Q en = true -> sel_Sleep en = None) ->
  forallb Q tr = true -> total_sleep tr = 0.
Proof.
  intros HQ HF. unfold total_sleep.
  rewrite (forallb_answers_nil Q sel_Sleep tr HQ HF). reflexivity.
Qed.

Lemma RetryIntervalSCSI_pos : 0 <= RetryIntervalSCSI.
Proof. unfold RetryIntervalSCSI, Second, Millisecond. lia. Qed.

Lemma RetryIntervalTargetID_pos : 0 <= RetryIntervalTargetID.
Proof. unfold RetryIntervalTargetID, Millisecond. lia. Qed.

(** The pauses of a trace, added up. *)
Ltac sleeps :=
  cbv beta in *;
  repeat first [ rewrite total_sleep_cons | rewrite total_sleep_app
               | rewrite total_sleep_nil ];
  cbn [sel_Sleep];
  pose proof RetryIntervalSCSI_pos; pose proof RetryIntervalTargetID_pos.

Lemma SetupTarget_allocate_sleeps (n : nat) (dev : ScsiDevice) :
  always (fun tr _ => total_sleep tr <= Z.of_nat n * RetryIntervalTargetID)
         (SetupTarget_allocate n dev).
Proof.
  induction n as [| n IH]; cbn [SetupTarget_allocate]; always_steps;
    try (sleeps; lia).
  eapply always_mono; [| apply IH].
  intros tr o H. sleeps. lia.
Qed.

Lemma SetupTarget_sleeps (dev : ScsiDevice) :
  always (fun tr _ => total_sleep tr <= Z.of_nat RetryCounts * RetryIntervalTargetID)
         (SetupTarget dev).
Proof.
  unfold SetupTarget; always_steps; [sleeps; unfold RetryCounts; lia |].
  eapply always_bind; [apply SetupTarget_allocate_sleeps | |].
  - intros tr [d | e] H; cbn beta iota; always_steps; sleeps; lia.
  - intros tr c H. sleeps. lia.
Qed.

Lemma StartScsi_discover_sleeps (n : nat) (ip target : string) (ne : NamespaceExecutor) :
  forall err,
    always (fun tr _ => total_sleep tr <= Z.of_nat n * RetryIntervalSCSI)
           (StartScsi_discover n ip target ne err).
Proof.
  induction n as [| n IH]; intros err; cbn [StartScsi_discover]; always_steps;
    try (sleeps; lia).
  all: eapply always_mono; [| apply IH]; intros tr o H; sleeps; lia.
Qed.

Lemma StartScsi_waitDevice_sleeps (n : nat) (path : string) :
  always (fun tr _ => total_sleep tr <= Z.of_nat n * RetryIntervalSCSI)
         (StartScsi_waitDevice n path).
Proof.
  induction n as [| n IH]; cbn [StartScsi_waitDevice]; always_steps;
    try (sleeps; lia).
  eapply always_mono; [| apply IH]. intros tr o H; sleeps; lia.
Qed.

(** The logout loop, with [n] attempts allowed: when it is left by an
    answer taken for success or by a timeout, one attempt at least was not
    followed by a pause. *)
Lemma LogoutTarget_logout_sleeps (n : nat) (ip target : string) (ne : NamespaceExecutor) :
  forall err,
    (n = O -> err <> None) ->
    always (fun tr o => match o with
                        | Done (Some _, false) =>
                            total_sleep tr <= Z.of_nat n * RetryIntervalSCSI
                        | Done (None, false) | Done (Some _, true) =>
                            total_sleep tr + RetryIntervalSCSI
                            <= Z.of_nat n * RetryIntervalSCSI
                        | Done (None, true) => False
                        | Exited _ => False
                        end)
           (LogoutTarget_logout n ip target ne err).
Proof.
  induction n as [| n IH]; intros err Herr; cbn [LogoutTarget_logout].
  - destruct err as [e |]; [cbn [always]; sleeps; lia | exfalso; apply Herr; reflexivity].
  - always_steps; try (sleeps; lia).
    eapply always_mono; [| apply IH; intros _; discriminate].
    intros tr [[[e' |] [|]] | c] H; sleeps; lia.
Qed.

Lemma LogoutTarget_wait_sleeps (n : nat) (ip target : string) (ne : NamespaceExecutor)
      (e : error) :
  always (fun tr o => match o with
                      | Done (Some _) => total_sleep tr <= Z.of_nat n * RetryIntervalSCSI
                      | Done None =>
                          total_sleep tr + RetryIntervalSCSI <= Z.of_nat n * RetryIntervalSCSI
                      | Exited _ => False
                      end)
         (LogoutTarget_wait n ip target ne (Some e)).
Proof.
  induction n as [| n IH]; cbn [LogoutTarget_wait]; always_steps; try (sleeps; lia).
  eapply always_mono; [| apply IH].
  intros tr [[e' |] | c] H; sleeps; lia.
Qed.

Lemma LogoutTarget_delete_sleeps (n : nat) (ip target : string) (ne : NamespaceExecutor) :
  forall err,
    always (fun tr _ => total_sleep tr <= Z.of_nat n * RetryIntervalSCSI)
           (LogoutTarget_delete n ip target ne err).
Proof.
  induction n as [| n IH]; intros err; cbn [LogoutTarget_delete]; always_steps;
    try (sleeps; lia).
  eapply always_mono; [| apply IH]. intros tr o H; sleeps; lia.
Qed.

Lemma LogoutTarget_session_sleeps (ip target : string) (ne : NamespaceExecutor) :
  always (fun tr _ => total_sleep tr <= (3 * Z.of_nat RetryCounts - 2) * RetryIntervalSCSI)
         (LogoutTarget_session ip target ne).
Proof.
  assert (HRC : Z.of_nat RetryCounts = 5) by reflexivity.
  unfold LogoutTarget_session; always_steps.
  eapply always_bind;
    [apply LogoutTarget_logout_sleeps; intros H; discriminate H | | intros tr c []].
  intros tr [[e |] [|]] HL; cbn beta iota; always_steps; try contradiction.
  - (* timed out: wait for the session to go *)
    eapply always_bind; [apply LogoutTarget_wait_sleeps | | intros tr' c []].
    intros tr' [e' |] HW; cbn beta iota; always_steps; [sleeps; lia |].
    eapply always_bind; [apply LogoutTarget_delete_sleeps | |].
    + intros tr'' [e'' |] HD; always_steps; sleeps; lia.
    + intros tr'' c HD; sleeps; lia.
  - (* every attempt failed *)
    sleeps; lia.
  - (* logged out *)
    eapply always_bind; [apply LogoutTarget_delete_sleeps | |].
    + intros tr'' [e'' |] HD; always_steps; sleeps; lia.
    + intros tr'' c HD; sleeps; lia.
Qed.

Lemma LogoutTarget_sleeps (target : string) :
  always (fun tr _ => total_sleep tr <= (3 * Z.of_nat RetryCounts - 2) * RetryIntervalSCSI)
         (LogoutTarget target).
Proof.
  assert (HRC : Z.of_nat RetryCounts = 5) by reflexivity.
  unfold LogoutTarget; always_steps; try (sleeps; lia).
  eapply always_mono; [| apply LogoutTarget_session_sleeps].
  intros tr o H; sleeps; lia.
Qed.

Lemma DeleteTarget_no_sleep (en : Entry) :
  calls_DeleteTarget en = true -> sel_Sleep en = None.
Proof. destruct en as [X [] x]; cbn; intros H; first [discriminate H | reflexivity]. Qed.

Lemma StopScsi_locked_sleeps (volumeName : string) (targetID : Z) :
  always (fun tr _ => total_sleep tr <= (3 * Z.of_nat RetryCounts - 2) * RetryIntervalSCSI)
         (StopScsi_locked volumeName targetID).
Proof.
  unfold StopScsi_locked; cbv zeta.
  eapply always_bind; [apply LogoutTarget_sleeps | | intros tr c H; exact H].
  intros tr [e |] HL; always_steps; [sleeps; lia |].
  eapply always_bind; [apply quiet_always, DeleteTarget_calls | |].
  - intros tr' [e |] HD; always_steps;
      pose proof (total_sleep_none _ _ DeleteTarget_no_sleep HD); sleeps; lia.
  - intros tr' c HD.
    pose proof (total_sleep_none _ _ DeleteTarget_no_sleep HD); sleeps; lia.
Qed.

Lemma UpdateTarget_sleeps (dev : ScsiDevice) :
  always (fun tr _ => total_sleep tr <= Z.of_nat RetryCounts * RetryIntervalTargetID)
         (UpdateTarget dev).
Proof.
  assert (HRC : Z.of_nat RetryCounts = 5) by reflexivity.
  unfold UpdateTarget.
  eapply always_bind; [apply quiet_always, DeleteTarget_calls | |].
  - intros tr [e |] HD; always_steps;
      pose proof (total_sleep_none _ _ DeleteTarget_no_sleep HD); [sleeps; lia |].
    eapply always_mono; [| apply SetupTarget_sleeps]. intros tr' o HS; sleeps; lia.
  - intros tr c HD.
    pose proof (total_sleep_none _ _ DeleteTarget_no_sleep HD); sleeps; lia.
Qed.

Lemma UpdateScsi_locked_sleeps (dev : ScsiDevice) :
  always (fun tr _ => total_sleep tr <= Z.of_nat RetryCounts * RetryIntervalTargetID)
         (UpdateScsi_locked dev).
Proof.
  assert (HRC : Z.of_nat RetryCounts = 5) by reflexivity.
  unfold UpdateScsi_locked; always_steps; try (sleeps; lia).
  eapply always_bind; [apply UpdateTarget_sleeps | |].
  - intros tr [d [e |]] H; cbn beta iota; always_steps; sleeps; lia.
  - intros tr c H; sleeps; lia.
Qed.

Lemma StartScsi_locked_sleeps (dev : ScsiDevice) :
  always (fun tr _ => total_sleep tr
                      <= Z.of_nat RetryCounts * RetryIntervalTargetID
                         + 2 * Z.of_nat RetryCounts * RetryIntervalSCSI)
         (StartScsi_locked dev).
Proof.
  assert (HRC : Z.of_nat RetryCounts = 5) by reflexivity.
  unfold StartScsi_locked; always_steps; try (sleeps; lia).
  eapply always_bind; [apply SetupTarget_sleeps | | intros tr c H; sleeps; lia].
  intros tr [d [e |]] HS; cbn beta iota; always_steps; [sleeps; lia |].
  eapply always_bind; [apply StartScsi_discover_sleeps | | intros tr' c H; sleeps; lia].
  intros tr' a HD; always_steps; try (sleeps; lia).
  eapply always_bind; [apply StartScsi_waitDevice_sleeps | | intros tr'' c H; sleeps; lia].
  intros tr'' [|] HW; always_steps; sleeps; lia.
Qed.

Lemma with_lock_sleeps {R : Type} (refused : error -> R) (body : Prog R) (b : Z) :
  0 <= b ->
  always (fun tr _ => total_sleep tr <= b) body ->
  always (fun tr _ => total_sleep tr <= b) (with_lock refused body).
Proof.
  intros Hb HB.
  eapply with_lock_always; [exact HB | | |]; intros; sleeps; lia.
Qed.

(** X13: waiting is bounded.  Whatever the environment answers, the time a
    call spends in [time.Sleep] is at most [RetryCounts] pauses of
    [RetryIntervalTargetID] and twice [RetryCounts] pauses of
    [RetryIntervalSCSI] for [StartScsi] (32.5 s), [3 * RetryCounts - 2]
    pauses of [RetryIntervalSCSI] for [StopScsi] (39 s), and [RetryCounts]
    pauses of [RetryIntervalTargetID] for [UpdateScsi] (2.5 s). *)
Theorem waiting_is_bounded
    {W : Type} (h : Handler W) (w : W) (dev : ScsiDevice) (volumeName : string)
    (targetID : Z) :
  total_sleep (trace (run h (StartScsi dev) w))
  <= Z.of_nat RetryCounts * RetryIntervalTargetID
     + 2 * Z.of_nat RetryCounts * RetryIntervalSCSI
  /\ total_sleep (trace (run h (StopScsi volumeName targetID) w))
     <= (3 * Z.of_nat RetryCounts - 2) * RetryIntervalSCSI
  /\ total_sleep (trace (run h (UpdateScsi dev) w))
     <= Z.of_nat RetryCounts * RetryIntervalTargetID.
Proof.
  assert (HRC : Z.of_nat RetryCounts = 5) by reflexivity.
  pose proof RetryIntervalSCSI_pos. pose proof RetryIntervalTargetID_pos.
  split; [| split].
  - apply (always_run h _ (fun tr _ => total_sleep tr <= _)).
    rewrite StartScsi_with_lock. apply with_lock_sleeps; [lia |].
    apply StartScsi_locked_sleeps.
  - apply (always_run h _ (fun tr _ => total_sleep tr <= _)).
    rewrite StopScsi_with_lock. apply with_lock_sleeps; [lia |].
    apply StopScsi_locked_sleeps.
  - apply (always_run h _ (fun tr _ => total_sleep tr <= _)).
    rewrite UpdateScsi_with_lock. apply with_lock_sleeps; [lia |].
    apply UpdateScsi_locked_sleeps.
Qed.

(** The bound of [StopScsi] is reached: four logout commands fail, the
    fifth times out, the session is gone on the fifth poll, and the
    deletion of the record fails five times.  Thirteen pauses of three
    seconds. *)
Example StopScsi_longest_wait :
  let t := GetTargetName "vol_a" in
  let e := "iscsiadm: iSCSI database failure" in
  let w := SimHost.mkHost [] O None [t] O (repeat e 5) [t]
             (repeat (SimHost.LogoutError e) 4 ++ [SimHost.LogoutTimeout 4]) None O false in
  let r := run SimHost.handle (StopScsi "vol_a" 1) w in
  total_sleep (trace r) = (3 * Z.of_nat RetryCounts - 2) * RetryIntervalSCSI
  /\ total_sleep (trace r) = 39 * Second.
Proof. vm_compute. split; reflexivity. Qed.

(** ** The steps of a successful [StartScsi] *)

Lemma filter_none (Q P : Entry -> bool) (tr : list Entry) :
  (forall en, Q en = true -> P en = false) ->
  forallb Q tr = true -> filter P tr = [].
Proof.
  intros HQ; induction tr as [| en tr IH]; cbn [forallb filter]; intros HF; [reflexivity |].
  apply andb_true_iff in HF; destruct HF as [H1 H2].
  rewrite (HQ en H1). apply IH, H2.
Qed.

Lemma not_step_false (en : Entry) : not_step en = true -> is_step en = false.
Proof. unfold not_step; destruct (is_step en); [discriminate | reflexivity]. Qed.

Lemma SetupTarget_allocate_no_step (n : nat) (dev : ScsiDevice) :
  quiet not_step (SetupTarget_allocate n dev).
Proof.
  induction n as [| n IH]; [exact I |].
  cbn [SetupTarget_allocate]; quiet_tac.
Qed.

Lemma StartScsi_discover_no_step (n : nat) (ip target : string) (ne : NamespaceExecutor) :
  forall err, quiet not_step (StartScsi_discover n ip target ne err).
Proof.
  induction n as [| n IH]; intros err; [exact I |].
  cbn [StartScsi_discover]; quiet_tac; apply IH.
Qed.

Lemma StartScsi_waitDevice_no_step (n : nat) (path : string) :
  quiet not_step (StartScsi_waitDevice n path).
Proof.
  induction n as [| n IH]; [exact I |].
  cbn [StartScsi_waitDevice]; quiet_tac.
Qed.

Ltac steps_push :=
  cbv beta in *;
  repeat first [ rewrite filter_app | progress cbn [filter is_step app] ].

Lemma SetupTarget_steps (dev : ScsiDevice) :
  always (fun tr o => match o with
                      | Done (d, None) => filter is_step tr = target_steps d
                      | Done (_, Some _) => True
                      | Exited _ => False
                      end)
         (SetupTarget dev).
Proof.
  unfold SetupTarget; always_steps; [exact I |].
  eapply always_bind;
    [apply always_and;
     [apply quiet_always, SetupTarget_allocate_no_step | apply SetupTarget_allocate_record]
    | | intros tr c [_ []]].
  intros tr [d | e] [HQ HR]; cbn beta iota; always_steps; try exact I.
  steps_push. rewrite (filter_none _ _ _ not_step_false HQ). reflexivity.
Qed.

Lemma StartScsi_locked_steps (dev : ScsiDevice) :
  always (fun tr o => match o with
                      | Done (d, None) =>
                          exists ip ne, filter is_step tr = start_steps d ip ne
                      | _ => True
                      end)
         (StartScsi_locked dev).
Proof.
  unfold StartScsi_locked; always_steps; try exact I.
  eapply always_bind; [apply SetupTarget_steps | | intros tr c []].
  intros tr [d [e |]] HS; cbn beta iota; always_steps; [exact I |].
  eapply always_bind;
    [apply quiet_always, StartScsi_discover_no_step | | intros; exact I].
  intros tr1 a HD; always_steps; try exact I.
  eapply always_bind;
    [apply quiet_always, StartScsi_waitDevice_no_step | | intros; exact I].
  intros tr2 [|] HW; always_steps; [| exact I].
  exists s, n. steps_push.
  rewrite HS, (filter_none _ _ _ not_step_false HD), (filter_none _ _ _ not_step_false HW).
  reflexivity.
Qed.

(** X14: what a [nil] of [StartScsi] means.  When [StartScsi] returns
    [nil], each of the five steps was made exactly once, in this order,
    and answered [nil]: the daemon start, the attachment of the backing
    file as LUN [TargetLunID] of target [dev.TargetID], the binding of all
    initiators to that target, the login to [dev.Target], and the lookup
    of the device of that LUN, whose path is [dev.Device]. *)
Theorem StartScsi_nil_means
    {W : Type} (h : Handler W) (w : W) (dev dev' : ScsiDevice) :
  let r := run h (StartScsi dev) w in
  outcome r = Done (dev', None) ->
  exists (ip : string) (ne : NamespaceExecutor),
    filter is_step (trace r) = start_steps dev' ip ne.
Proof.
  cbv zeta. intros HO.
  assert (HA : always (fun tr o => match o with
                                   | Done (d, None) =>
                                       exists ip ne, filter is_step tr = start_steps d ip ne
                                   | _ => True
                                   end) (StartScsi dev)).
  { rewrite StartScsi_with_lock.
    eapply with_lock_always; [apply StartScsi_locked_steps | | |]; cbv beta.
    - intros; exact I.
    - intros ns tr [d [e |]] H; [exact I |].
      destruct H as (ip & ne & H). exists ip, ne.
      steps_push. rewrite H, app_nil_r. reflexivity.
    - intros; exact I. }
  pose proof (always_run h _ _ w HA) as H. cbv beta in H. rewrite HO in H. exact H.
Qed.

Lemma StartScsi_nil_means_witness :
  let dev := fst (NewScsiDevice "vol_a" "/var/lib/longhorn/a.img" "file" "") in
  let dev' := set_Device "/dev/sdb" (set_TargetID 1 dev) in
  let r := run SimHost.handle (StartScsi dev) SimHost.idle in
  exists (ip : string) (ne : NamespaceExecutor),
    filter is_step (trace r) = start_steps dev' ip ne.
Proof.
  intros dev dev' r.
  apply (StartScsi_nil_means SimHost.handle SimHost.idle dev dev').
  reflexivity.
Defined.

(** ** The target that the calls address *)

Ltac addressed :=
  cbv beta in *;
  repeat first [ rewrite forallb_app
               | progress cbn [forallb addresses target_of andb]
               | rewrite String.eqb_refl ];
  repeat match goal with
         | H : forallb (addresses _) _ = true |- _ => rewrite H
         end;
  try reflexivity.

Lemma SetupTarget_addresses (dev : ScsiDevice) :
  always (fun tr _ => forallb (addresses (Target dev)) tr = true) (SetupTarget dev).
Proof.
  assert (HA : forall n,
             always (fun tr _ => forallb (addresses (Target dev)) tr = true)
                    (SetupTarget_allocate n dev)).
  { induction n as [| n IH]; cbn [SetupTarget_allocate]; always_steps; addressed.
    eapply always_mono; [| apply IH]. intros tr o H; addressed. }
  unfold SetupTarget; always_steps; addressed.
  eapply always_bind; [apply HA | | intros tr c H; addressed].
  intros tr [d | e] H; cbn beta iota; always_steps; addressed.
Qed.

Lemma DeleteTarget_addresses (target : string) (targetID : Z) :
  always (fun tr _ => forallb (addresses target) tr = true) (DeleteTarget target targetID).
Proof.
  assert (HT : forall en, is_teardown en = true -> addresses target en = true).
  { intros [X [] x]; cbn; intros H; first [discriminate H | reflexivity]. }
  pose proof (fun tid m => quiet_always _ _ (quiet_mono _ _ _ HT
                             (proj1 (DeleteTarget_closeAll_calls tid m)))) as HC.
  unfold DeleteTarget; always_steps; addressed.
  eapply always_bind; [apply HC | | intros tr c H; addressed].
  intros tr [e |] H; cbn beta iota; always_steps; addressed.
Qed.

Lemma LogoutTarget_addresses (target : string) :
  always (fun tr _ => forallb (addresses target) tr = true) (LogoutTarget target).
Proof.
  assert (HL : forall n ip ne err,
             always (fun tr _ => forallb (addresses target) tr = true)
                    (LogoutTarget_logout n ip target ne err)).
  { induction n as [| n IH]; intros ip ne err; cbn [LogoutTarget_logout];
      always_steps; addressed.
    eapply always_mono; [| apply IH]. intros tr o H; addressed. }
  assert (HW : forall n ip ne err,
             always (fun tr _ => forallb (addresses target) tr = true)
                    (LogoutTarget_wait n ip target ne err)).
  { induction n as [| n IH]; intros ip ne err; cbn [LogoutTarget_wait];
      always_steps; addressed.
    eapply always_mono; [| apply IH]. intros tr o H; addressed. }
  assert (HD : forall n ip ne err,
             always (fun tr _ => forallb (addresses target) tr = true)
                    (LogoutTarget_delete n ip target ne err)).
  { induction n as [| n IH]; intros ip ne err; cbn [LogoutTarget_delete];
      always_steps; addressed.
    eapply always_mono; [| apply IH]. intros tr o H; addressed. }
  unfold LogoutTarget, LogoutTarget_session; always_steps; addressed.
  eapply always_bind; [apply HL | | intros tr c H; addressed].
  intros tr [err [|]] H; cbn beta iota; always_steps.
  - eapply always_bind; [apply HW | | intros tr' c H'; addressed].
    intros tr' [e |] H'; cbn beta iota; always_steps; addressed.
    eapply always_bind; [apply HD | | intros tr'' c H''; addressed].
    intros tr'' [e |] H''; always_steps; addressed.
  - addressed.
  - eapply always_bind; [apply HD | | intros tr'' c H''; addressed].
    intros tr'' [e |] H''; always_steps; addressed.
Qed.

Lemma StartScsi_locked_addresses (dev : ScsiDevice) :
  always (fun tr _ => forallb (addresses (Target dev)) tr = true) (StartScsi_locked dev).
Proof.
  assert (HD : forall n ip ne err,
             always (fun tr _ => forallb (addresses (Target dev)) tr = true)
                    (StartScsi_discover n ip (Target dev) ne err)).
  { induction n as [| n IH]; intros ip ne err; cbn [StartScsi_discover];
      always_steps; addressed.
    all: eapply always_mono; [| apply IH]; intros tr o H; addressed. }
  assert (HW : forall n path,
             always (fun tr _ => forallb (addresses (Target dev)) tr = true)
                    (StartScsi_waitDevice n path)).
  { induction n as [| n IH]; intros path; cbn [StartScsi_waitDevice];
      always_steps; addressed.
    eapply always_mono; [| apply IH]. intros tr o H; addressed. }
  unfold StartScsi_locked; always_steps; addressed.
  eapply always_bind;
    [apply always_and; [apply SetupTarget_addresses | apply SetupTarget_record]
    | | intros tr c [H _]; addressed].
  intros tr [d [e |]] [H HR]; cbn beta iota; always_steps; addressed.
  assert (HT : Target d = Target dev) by (rewrite HR; reflexivity).
  rewrite HT.
  eapply always_bind; [apply HD | | intros tr' c H'; addressed].
  intros tr' a H'; always_steps; addressed.
  eapply always_bind; [apply HW | | intros tr'' c H''; addressed].
  intros tr'' [|] H''; always_steps; addressed.
Qed.

Lemma StopScsi_locked_addresses (volumeName : string) (targetID : Z) :
  always (fun tr _ => forallb (addresses (GetTargetName volumeName)) tr = true)
         (StopScsi_locked volumeName targetID).
Proof.
  unfold StopScsi_locked; cbv zeta.
  eapply always_bind; [apply LogoutTarget_addresses | | intros tr c H; addressed].
  intros tr [e |] H; always_steps; addressed.
  eapply always_bind; [apply DeleteTarget_addresses | | intros tr' c H'; addressed].
  intros tr' [e |] H'; always_steps; addressed.
Qed.

Lemma UpdateScsi_locked_addresses (dev : ScsiDevice) :
  always (fun tr _ => forallb (addresses (Target dev)) tr = true) (UpdateScsi_locked dev).
Proof.
  unfold UpdateScsi_locked, UpdateTarget; always_steps; addressed.
  eapply always_bind; [apply DeleteTarget_addresses | | intros tr c H; addressed].
  intros tr [e |] H; always_steps; addressed.
  eapply always_bind;
    [apply always_and; [apply SetupTarget_addresses | apply SetupTarget_record]
    | | intros tr' c [H' _]; addressed].
  intros tr' [d [e |]] [H' HR]; cbn beta iota; always_steps; addressed.
  all: assert (HT : Target d = Target dev) by (rewrite HR; reflexivity).
  all: rewrite HT; addressed.
Qed.

Lemma with_lock_addresses {R : Type} (refused : error -> R) (body : Prog R)
      (target : string) :
  always (fun tr _ => forallb (addresses target) tr = true) body ->
  always (fun tr _ => forallb (addresses target) tr = true) (with_lock refused body).
Proof.
  intros HB. eapply with_lock_always; [exact HB | | |]; intros; addressed.
Qed.

(** X15: one target per call.  Every call that [StartScsi] or
    [UpdateScsi] makes with a target name carries [dev.Target], and every
    such call of [StopScsi] carries the target name of its volume: the
    target that is created, discovered, logged in to, looked up, logged
    out of and rescanned is the same one.  For a device made by
    [NewScsiDevice] from a volume name this is the name [StopScsi] derives
    from the same volume name. *)
Theorem one_target_per_call
    {W : Type} (h : Handler W) (w : W) (dev : ScsiDevice)
    (volumeName backingFile bsType bsOpts : string) (targetID : Z) :
  let new := fst (NewScsiDevice volumeName backingFile bsType bsOpts) in
  forallb (addresses (Target dev)) (trace (run h (StartScsi dev) w)) = true
  /\ forallb (addresses (Target dev)) (trace (run h (UpdateScsi dev) w)) = true
  /\ forallb (addresses (GetTargetName volumeName))
             (trace (run h (StopScsi volumeName targetID) w)) = true
  /\ forallb (addresses (GetTargetName volumeName)) (trace (run h (StartScsi new) w)) = true.
Proof.
  cbv zeta. split; [| split; [| split]].
  - apply (always_run h _ (fun tr _ => forallb (addresses (Target dev)) tr = true)).
    rewrite StartScsi_with_lock. apply with_lock_addresses, StartScsi_locked_addresses.
  - apply (always_run h _ (fun tr _ => forallb (addresses (Target dev)) tr = true)).
    rewrite UpdateScsi_with_lock. apply with_lock_addresses, UpdateScsi_locked_addresses.
  - apply (always_run h _ (fun tr _ => forallb (addresses (GetTargetName volumeName)) tr = true)).
    rewrite StopScsi_with_lock. apply with_lock_addresses, StopScsi_locked_addresses.
  - apply (always_run h _ (fun tr _ => forallb (addresses (GetTargetName volumeName)) tr = true)).
    rewrite StartScsi_with_lock.
    apply with_lock_addresses.
    exact (StartScsi_locked_addresses (fst (NewScsiDevice volumeName backingFile bsType bsOpts))).
Qed.

(** ** The errors of [StartScsi] and [UpdateScsi] *)

Lemma StartScsi_locked_failure (dev : ScsiDevice) :
  always (fun tr o => match o with
                      | Done (d, Some e) => last_failure tr = Some e \/ e = wait_failure d
                      | _ => True
                      end)
         (StartScsi_locked dev).
Proof.
  unfold StartScsi_locked; always_steps; try (left; reflexivity).
  eapply always_bind; [apply SetupTarget_failure | | intros; exact I].
  intros tr [d [e |]] HS; cbn beta iota; always_steps;
    [left; last_failure_shift; exact HS |].
  eapply always_bind;
    [apply always_true with (P := fun _ _ => True); intros; exact I | | intros; exact I].
  intros tr1 a _; always_steps; try (left; last_failure_shift; reflexivity).
  eapply always_bind;
    [apply always_true with (P := fun _ _ => True); intros; exact I | | intros; exact I].
  intros tr2 [|] _; always_steps; [exact I | right; reflexivity].
Qed.

Lemma UpdateScsi_locked_failure (dev : ScsiDevice) :
  always (fun tr o => match o with
                      | Done (_, Some e) => last_failure tr = Some e
                      | _ => True
                      end)
         (UpdateScsi_locked dev).
Proof.
  unfold UpdateScsi_locked; always_steps; try reflexivity.
  eapply always_bind; [apply UpdateTarget_failure | | intros; exact I].
  intros tr [d [e |]] HS; cbn beta iota; always_steps;
    try exact I; last_failure_shift; [exact HS | reflexivity].
Qed.

(** X16: errors are passed through.  When [StartScsi] returns an error, the
    lock was refused (and the error is "Fail to lock: ..."), or the error
    is the "Failed to wait for device" error, or it is, unchanged, the error
    that the last call before the release of the lock answered: the
    function stops at the first step that fails and undoes nothing.  The
    same holds of [UpdateScsi], which has no error of its own. *)
Theorem errors_are_passed_through
    {W : Type} (h : Handler W) (w : W) (dev dev' : ScsiDevice) (e : error) :
  (outcome (run h (StartScsi dev) w) = Done (dev', Some e) ->
   locked_failure e (trace (run h (StartScsi dev) w)) \/ e = wait_failure dev')
  /\ (outcome (run h (UpdateScsi dev) w) = Done (dev', Some e) ->
      locked_failure e (trace (run h (UpdateScsi dev) w))).
Proof.
  split; intros HO.
  - assert (HA : always (fun tr o => match o with
                                     | Done (d, Some e) =>
                                         locked_failure e tr \/ e = wait_failure d
                                     | _ => True
                                     end) (StartScsi dev)).
    { rewrite StartScsi_with_lock.
      eapply with_lock_always; [apply StartScsi_locked_failure | | |]; cbv beta.
      - intros ns le. left; left. exists ns, le. split; reflexivity.
      - intros ns tr [d [e' |]] H; [| exact I].
        destruct H as [H | H]; [left; right | right; exact H].
        exists (entry (util_GetHostNamespacePath HostProc) ns
                :: entry (lock_Lock (the_lock ns)) None :: tr), (the_lock ns).
        split; [reflexivity | last_failure_shift; exact H].
      - intros; exact I. }
    pose proof (always_run h _ _ w HA) as H. cbv beta in H. rewrite HO in H. exact H.
  - assert (HA : always (fun tr o => match o with
                                     | Done (_, Some e) => locked_failure e tr
                                     | _ => True
                                     end) (UpdateScsi dev)).
    { rewrite UpdateScsi_with_lock.
      eapply with_lock_always; [apply UpdateScsi_locked_failure | | |]; cbv beta.
      - intros ns le. left. exists ns, le. split; reflexivity.
      - intros ns tr [d [e' |]] H; [| exact I]. right.
        exists (entry (util_GetHostNamespacePath HostProc) ns
                :: entry (lock_Lock (the_lock ns)) None :: tr), (the_lock ns).
        split; [reflexivity | last_failure_shift; exact H].
      - intros; exact I. }
    pose proof (always_run h _ _ w HA) as H. cbv beta in H. rewrite HO in H. exact H.
Qed.

(** On the simulated host: a login that fails because the discovery never
    took, and an update that cannot attach the LUN. *)
Lemma errors_are_passed_through_witness :
  let dev := fst (NewScsiDevice "vol_a" "/var/lib/longhorn/a.img" "file" "") in
  let undiscoverable := SimHost.mkHost [] O None [] 5 [] [] [] None O false in
  let racing := SimHost.with_targets SimHost.idle [] 5 in
  (locked_failure "iscsiadm: No records found, exit status 21"
                  (trace (run SimHost.handle (StartScsi dev) undiscoverable))
   \/ "iscsiadm: No records found, exit status 21" = wait_failure (set_TargetID 1 dev))
  /\ locked_failure "tgtadm: can't find the target"
                    (trace (run SimHost.handle (UpdateScsi dev) racing)).
Proof.
  intros dev undiscoverable racing. split.
  - apply (proj1 (errors_are_passed_through SimHost.handle undiscoverable dev
                    (set_TargetID 1 dev) "iscsiadm: No records found, exit status 21")).
    reflexivity.
  - apply (proj2 (errors_are_passed_through SimHost.handle racing dev dev
                    "tgtadm: can't find the target")).
    reflexivity.
Defined.

(** ** The checks of [LogoutTarget] *)

(** X17: the checks of [LogoutTarget].  [LogoutTarget] asks for the
    namespace executor, the host address and the initiator, in this order,
    before it asks whether the target is logged in.  When one of them
    fails its error is returned as it is and neither the session nor the
    discovery record is queried or changed. *)
Theorem LogoutTarget_checks_first
    {W : Type} (h : Handler W) (w : W) (target : string) :
  let r := run h (LogoutTarget target) w in
  logout_checks target (trace r) (outcome r).
Proof.
  cbv zeta. apply always_run.
  unfold LogoutTarget; always_steps;
    first [ eapply logout_check_failed; reflexivity
          | eapply logout_checks_passed; reflexivity
          | apply always_true; intros tr o; eapply logout_checks_passed; reflexivity ].
Qed.

(** ** The backing store that is attached *)

Ltac attached :=
  cbv beta in *;
  repeat first [ rewrite answers_cons | rewrite answers_app | rewrite answers_nil ];
  cbn [sel_attached app];
  rewrite ?app_nil_r.

Lemma not_step_not_attached (en : Entry) : not_step en = true -> sel_attached en = None.
Proof. destruct en as [X [] x]; cbn; intros H; first [discriminate H | reflexivity]. Qed.

Lemma DeleteTarget_not_attached (en : Entry) :
  calls_DeleteTarget en = true -> sel_attached en = None.
Proof. destruct en as [X [] x]; cbn; intros H; first [discriminate H | reflexivity]. Qed.

Lemma SetupTarget_attaches (dev : ScsiDevice) :
  always (attaches dev) (SetupTarget dev).
Proof.
  unfold SetupTarget; always_steps;
    [split; [left; reflexivity | intros d H; discriminate H] |].
  eapply always_bind;
    [apply always_and;
     [apply quiet_always, SetupTarget_allocate_no_step | apply SetupTarget_allocate_record]
    | | intros tr c [_ []]].
  intros tr [d | e] [HQ HR]; cbn beta iota; always_steps;
    pose proof (forallb_answers_nil _ sel_attached _ not_step_not_attached HQ) as HN;
    unfold attaches; attached; rewrite HN; cbn [app].
  - split; [right | intros d' H; discriminate H].
    unfold backing. rewrite HR. reflexivity.
  - split; [right | intros d' H; discriminate H].
    unfold backing. rewrite HR. reflexivity.
  - split; [right | intros d' _]; unfold backing; rewrite HR; reflexivity.
  - split; [left; reflexivity | intros d' H; discriminate H].
Qed.

Lemma UpdateTarget_attaches (dev : ScsiDevice) :
  always (attaches dev) (UpdateTarget dev).
Proof.
  unfold UpdateTarget.
  eapply always_bind; [apply quiet_always, DeleteTarget_calls | |].
  - intros tr [e |] HD; always_steps;
      pose proof (forallb_answers_nil _ sel_attached _ DeleteTarget_not_attached HD) as HN.
    + unfold attaches; attached. rewrite HN.
      split; [left; reflexivity | intros d' H; discriminate H].
    + eapply always_mono; [| apply SetupTarget_attaches].
      intros tr' o [H1 H2]. unfold attaches; attached. rewrite HN. cbn [app].
      split; assumption.
  - intros tr c HD.
    pose proof (forallb_answers_nil _ sel_attached _ DeleteTarget_not_attached HD) as HN.
    unfold attaches. rewrite HN. split; [left; reflexivity | intros d' H; discriminate H].
Qed.

Lemma UpdateScsi_locked_attaches (dev : ScsiDevice) :
  always (attaches dev) (UpdateScsi_locked dev).
Proof.
  unfold UpdateScsi_locked; always_steps;
    try (split; [left; reflexivity | intros d H; discriminate H]).
  eapply always_bind; [apply UpdateTarget_attaches | |].
  - intros tr [d [e |]] [H1 H2]; cbn beta iota; always_steps; unfold attaches; attached.
    + split; [exact H1 | intros d' H; discriminate H].
    + split; [exact H1 | intros d' H; discriminate H].
    + split; [exact H1 | intros d' _; apply (H2 d); reflexivity].
  - intros tr c [H1 H2]. unfold attaches; attached.
    split; [exact H1 | intros d' H; discriminate H].
Qed.

Lemma StartScsi_locked_attaches (dev : ScsiDevice) :
  always (attaches dev) (StartScsi_locked dev).
Proof.
  unfold StartScsi_locked; always_steps;
    try (split; [left; reflexivity | intros d H; discriminate H]).
  eapply always_bind; [apply SetupTarget_attaches | |].
  - intros tr [d [e |]] [H1 H2]; cbn beta iota; always_steps.
    + unfold attaches; attached. split; [exact H1 | intros d' H; discriminate H].
    + pose proof (H2 d eq_refl) as HA.
      eapply always_bind; [apply quiet_always, StartScsi_discover_no_step | |].
      * intros tr1 a HD.
        pose proof (forallb_answers_nil _ sel_attached _ not_step_not_attached HD) as HN1.
        always_steps;
          try (unfold attaches; attached; rewrite HA, HN1;
               split; [right; reflexivity | intros d' H; first [discriminate H | reflexivity]]).
        eapply always_bind; [apply quiet_always, StartScsi_waitDevice_no_step | |].
        -- intros tr2 b HW.
           pose proof (forallb_answers_nil _ sel_attached _ not_step_not_attached HW) as HN2.
           destruct b; always_steps; unfold attaches; attached; rewrite HA, HN1, HN2;
             (split; [right; reflexivity
                     | intros d' H; first [discriminate H | reflexivity]]).
        -- intros tr2 c HW.
           pose proof (forallb_answers_nil _ sel_attached _ not_step_not_attached HW) as HN2.
           unfold attaches; attached; rewrite HA, HN1, HN2.
           split; [right; reflexivity | intros d' H; discriminate H].
      * intros tr1 c HD.
        pose proof (forallb_answers_nil _ sel_attached _ not_step_not_attached HD) as HN1.
        unfold attaches; attached; rewrite HA, HN1.
        split; [right; reflexivity | intros d' H; discriminate H].
  - intros tr c [H1 H2]. unfold attaches; attached.
    split; [exact H1 | intros d' H; discriminate H].
Qed.

Lemma with_lock_attaches (dev : ScsiDevice) (body : Prog (ScsiDevice * option error)) :
  always (attaches dev) body ->
  always (attaches dev) (with_lock (fun e => (dev, Some e)) body).
Proof.
  intros HB. eapply with_lock_always; [exact HB | | |].
  - intros ns e. split; [left; reflexivity | intros d H; discriminate H].
  - intros ns tr a [H1 H2]. unfold attaches; attached. split; assumption.
  - intros ns tr c [H1 H2]. unfold attaches; attached.
    split; [exact H1 | intros d H; discriminate H].
Qed.

(** X18: the backing store that is attached.  [StartScsi] and
    [UpdateScsi] call [AddLun] at most once, and exactly once when they
    return [nil], always for LUN [TargetLunID] and with the backing file,
    type and options of the device.  [UpdateScsiBackingStore] changes the
    type and the options and nothing else, so an [UpdateScsi] that follows
    it attaches the same backing file with the new type and options. *)
Theorem backing_store_attached
    {W : Type} (h : Handler W) (w : W) (dev : ScsiDevice) (bsType bsOpts : string) :
  let start := run h (StartScsi dev) w in
  let updated := fst (UpdateScsiBackingStore dev bsType bsOpts) in
  let update := run h (UpdateScsi updated) w in
  attaches dev (trace start) (outcome start)
  /\ attaches updated (trace update) (outcome update)
  /\ backing updated = (TargetLunID, BackingFile dev, bsType, bsOpts)
  /\ Target updated = Target dev /\ TargetID updated = TargetID dev
  /\ Device updated = Device dev
  /\ snd (UpdateScsiBackingStore dev bsType bsOpts) = None.
Proof.
  cbv zeta. split; [| split; [| repeat split]].
  - apply always_run. rewrite StartScsi_with_lock.
    apply with_lock_attaches, StartScsi_locked_attaches.
  - apply always_run. rewrite UpdateScsi_with_lock.
    apply with_lock_attaches, UpdateScsi_locked_attaches.
Qed.

(** On the simulated host: the backing store is switched from a file to
    an asynchronous one, and the update attaches it. *)
Lemma backing_store_attached_witness :
  let dev := fst (NewScsiDevice "vol_a" "/var/lib/longhorn/a.img" "file" "") in
  let updated := fst (UpdateScsiBackingStore dev "aio" "direct") in
  answers sel_attached (trace (run SimHost.handle (StartScsi dev) SimHost.idle))
  = [(TargetLunID, "/var/lib/longhorn/a.img", "file", "")]
  /\ answers sel_attached (trace (run SimHost.handle (UpdateScsi updated) SimHost.idle))
     = [(TargetLunID, "/var/lib/longhorn/a.img", "aio", "direct")].
Proof.
  intros dev updated.
  destruct (backing_store_attached SimHost.handle SimHost.idle dev "aio" "direct")
    as ((_ & H1) & (_ & H2) & _).
  split.
  - apply (H1 (set_Device "/dev/sdb" (set_TargetID 1 dev))). reflexivity.
  - apply (H2 (set_TargetID 1 updated)). reflexivity.
Defined.
